(** * Interactive snooker game: trail prediction and dynamic obstacles

    A shallow embedding of [BallTrailPrediction] and [DynamicObstacles]
    together with the parts of [Table], [Ball], [BallManager] and [Cue] they
    call.  JavaScript numbers that hold coordinates, speeds and angles are
    idealised as real numbers ([R]); frame and attempt counters, which only
    ever hold small non-negative integers, are [nat].  Objects mutated in
    place are modelled by explicit state passing. *)

From Stdlib Require Import Reals Lra Lia List Bool Arith.
From Stdlib Require String.
Import String.StringSyntax.
Import ListNotations.
Open Scope R_scope.
Delimit Scope string_scope with string.
Bind Scope string_scope with String.string.

(** ** p5.js and Math helpers used by the game code *)

Definition Rltb (a b : R) : bool := if Rlt_dec a b then true else false.
Definition Rleb (a b : R) : bool := if Rle_dec a b then true else false.
Definition Rgtb (a b : R) : bool := Rltb b a.
Definition Rgeb (a b : R) : bool := Rleb b a.

Module P5.

(** [dist(x1, y1, x2, y2)] *)
Definition dist (x1 y1 x2 y2 : R) : R :=
  sqrt ((x2 - x1) * (x2 - x1) + (y2 - y1) * (y2 - y1)).

(** [map(n, start1, stop1, start2, stop2)], without clamping *)
Definition map (n start1 stop1 start2 stop2 : R) : R :=
  (n - start1) / (stop1 - start1) * (stop2 - start2) + start2.

(** [random(min, max)]: the underlying uniform draw [rand] from [0, 1) is
    made explicit. *)
Definition random (min max rand : R) : R :=
  if Rltb max min then rand * (min - max) + max
  else rand * (max - min) + min.

(** [atan2(y, x)], the angle of the point (x, y), with the value 0 at the
    origin as in [Math.atan2]. *)
Definition atan2 (y x : R) : R :=
  if Rltb 0 x then atan (y / x)
  else if Rltb x 0 then
    (if Rleb 0 y then atan (y / x) + PI else atan (y / x) - PI)
  else if Rltb 0 y then PI / 2
  else if Rltb y 0 then - (PI / 2)
  else 0.

End P5.

(** [p5.Vector], restricted to the two components the game uses. *)
Record Vector : Type := createVector { vx : R; vy : R }.

Module Vec.
Definition add (a b : Vector) : Vector := createVector (vx a + vx b) (vy a + vy b).
Definition sub (a b : Vector) : Vector := createVector (vx a - vx b) (vy a - vy b).
Definition mult (a : Vector) (k : R) : Vector := createVector (vx a * k) (vy a * k).
Definition dot (a b : Vector) : R := vx a * vx b + vy a * vy b.
Definition mag (a : Vector) : R := sqrt (vx a * vx a + vy a * vy a).
End Vec.

(** ** sketch.js globals *)

Definition tableLength : R := 1000.
Definition tableWidth : R := 500.
Definition ballDiameter : R := tableWidth / 36.
Definition ballRadius : R := ballDiameter / 2.

(** ** Table *)

Record Boundaries : Type := mkBoundaries {
  left : R; right : R; top : R; bottom : R
}.

Record Table : Type := mkTable {
  t_length : R;
  t_width : R;
  t_x : R;
  t_y : R;
  t_ballDiameter : R;
  pocketRadius : R;
  pocketPositions : list Vector
}.

(** [Table.initializePockets], from the table origin, size and pocket radius. *)
Definition initializePockets (x y len wid pr : R) : list Vector :=
  [ createVector (x + pr * 0.5) (y + pr * 0.5);
    createVector (x + len - pr * 0.5) (y + pr * 0.5);
    createVector (x + pr * 0.5) (y + wid - pr * 0.5);
    createVector (x + len - pr * 0.5) (y + wid - pr * 0.5);
    createVector (x + len / 2) (y + pr * 0.5);
    createVector (x + len / 2) (y + wid - pr * 0.5) ].

(** [new Table()]; [width] and [height] are the p5 canvas dimensions. *)
Definition Table_new (width height : R) : Table :=
  let len := 1000 in
  let wid := 500 in
  let x := (width - len) / 2 in
  let y := (height - wid) / 2 in
  let bd := wid / 36 in
  let pr := bd * 1.5 in
  mkTable len wid x y bd pr (initializePockets x y len wid pr).

(** The table of the game: [createCanvas(1200, 600)]. *)
Definition gameTable : Table := Table_new 1200 600.

Definition getBoundaries (t : Table) : Boundaries :=
  mkBoundaries (t_x t) (t_x t + t_length t) (t_y t) (t_y t + t_width t).

Definition getPocketPositions (t : Table) : list Vector := pocketPositions t.

Definition isInDZone (t : Table) (x y : R) : bool :=
  let baulkX := t_x t + t_length t * 0.25 in
  let dRadius := 80 in
  let distanceFromCenter := P5.dist x y baulkX (t_y t + t_width t / 2) in
  Rleb x baulkX && Rleb distanceFromCenter dRadius.

(** ** Ball, BallManager and Cue *)

(** The Matter.js body of a ball: only position and velocity are used. *)
Record Body : Type := mkBody { position : Vector; velocity : Vector }.

Record Ball : Type := mkBall {
  b_x : R;
  b_y : R;
  body : option Body
}.

Definition getPosition (b : Ball) : Vector :=
  match body b with
  | Some bd => position bd
  | None => createVector (b_x b) (b_y b)
  end.

Definition getVelocity (b : Ball) : Vector :=
  match body b with
  | Some bd => velocity bd
  | None => createVector 0 0
  end.

Definition setPosition (b : Ball) (x y : R) : Ball :=
  mkBall x y
    (match body b with
     | Some bd => Some (mkBody (createVector x y) (velocity bd))
     | None => None
     end).

Definition setVelocity (b : Ball) (velocityX velocityY : R) : Ball :=
  match body b with
  | Some bd => mkBall (b_x b) (b_y b) (Some (mkBody (position bd) (createVector velocityX velocityY)))
  | None => b
  end.

Record BallManager : Type := mkBallManager {
  cueBall : Ball;
  redBalls : list Ball;
  coloredBalls : list Ball;
  ballsMoving : bool
}.

Definition areBallsMoving (bm : BallManager) : bool := ballsMoving bm.
Definition getCueBall (bm : BallManager) : Ball := cueBall bm.
Definition getRedBalls (bm : BallManager) : list Ball := redBalls bm.
Definition getColoredBalls (bm : BallManager) : list Ball := coloredBalls bm.

Record Cue : Type := mkCue {
  angle : R;
  c_visible : bool;
  power : R;
  charging : bool
}.

Definition Cue_isVisible (c : Cue) : bool := c_visible c.
Definition isCharging (c : Cue) : bool := charging c.
Definition getCurrentPower (c : Cue) : R := power c.

(** ** BallTrailPrediction *)

Module BallTrailPrediction.

(** One entry of [predictionTrail]. *)
Record Sample : Type := mkSample {
  s_x : R;
  s_y : R;
  bounce : nat;
  speed : R
}.

Record t : Type := mk {
  maxPredictionSteps : nat;
  predictionStepSize : R;
  maxBounces : nat;
  speedThreshold : R;
  predictionTrail : list Sample;
  predictionBounces : nat;
  frictionCoefficient : R;
  cushionRestitution : R;
  p_ballRadius : R;
  enabled : bool;
  visible : bool
}.

Definition constructor : t :=
  mk 300 2 5 0.3 [] 0 0.985 0.75 ballRadius true false.

Definition setMaxBounces (p : t) (n : nat) : t :=
  mk (maxPredictionSteps p) (predictionStepSize p) n (speedThreshold p)
     (predictionTrail p) (predictionBounces p) (frictionCoefficient p)
     (cushionRestitution p) (p_ballRadius p) (enabled p) (visible p).

Definition setPredictionAccuracy (p : t) (stepSize : R) : t :=
  mk (maxPredictionSteps p) stepSize (maxBounces p) (speedThreshold p)
     (predictionTrail p) (predictionBounces p) (frictionCoefficient p)
     (cushionRestitution p) (p_ballRadius p) (enabled p) (visible p).

(** The object returned by [checkCushionCollision]. *)
Record Collision : Type := mkCollision {
  hit : bool;
  hitPoint : Vector;
  normal : Vector
}.

Definition cushionThickness : R := 12.

Definition leftBound (p : t) (tb : Table) : R :=
  left (getBoundaries tb) + cushionThickness + p_ballRadius p.
Definition rightBound (p : t) (tb : Table) : R :=
  right (getBoundaries tb) - cushionThickness - p_ballRadius p.
Definition topBound (p : t) (tb : Table) : R :=
  top (getBoundaries tb) + cushionThickness + p_ballRadius p.
Definition bottomBound (p : t) (tb : Table) : R :=
  bottom (getBoundaries tb) - cushionThickness - p_ballRadius p.

Definition checkCushionCollision (p : t) (currentPos nextPos : Vector) (tb : Table)
  : Collision :=
  if Rleb (vx nextPos) (leftBound p tb) && Rgtb (vx currentPos) (leftBound p tb) then
    mkCollision true (createVector (leftBound p tb) (vy nextPos)) (createVector 1 0)
  else if Rgeb (vx nextPos) (rightBound p tb) && Rltb (vx currentPos) (rightBound p tb) then
    mkCollision true (createVector (rightBound p tb) (vy nextPos)) (createVector (-1) 0)
  else if Rleb (vy nextPos) (topBound p tb) && Rgtb (vy currentPos) (topBound p tb) then
    mkCollision true (createVector (vx nextPos) (topBound p tb)) (createVector 0 1)
  else if Rgeb (vy nextPos) (bottomBound p tb) && Rltb (vy currentPos) (bottomBound p tb) then
    mkCollision true (createVector (vx nextPos) (bottomBound p tb)) (createVector 0 (-1))
  else
    mkCollision false nextPos (createVector 0 0).

Definition reflectVelocity (incident nrm : Vector) : Vector :=
  let dotProduct := Vec.dot incident nrm in
  Vec.sub incident (Vec.mult nrm (2 * dotProduct)).

Definition withResult (p : t) (trail : list Sample) (bounces : nat) : t :=
  mk (maxPredictionSteps p) (predictionStepSize p) (maxBounces p) (speedThreshold p)
     trail bounces (frictionCoefficient p) (cushionRestitution p) (p_ballRadius p)
     (enabled p) (visible p).

(** The [for] loop of [calculatePrediction].  [steps] is the number of
    iterations still allowed, [maxPredictionSteps - step]; the loop state is
    the velocity, the current position, the trail built so far and
    [predictionBounces]. *)
Fixpoint predictionLoop (p : t) (tb : Table) (steps : nat)
    (velocity currentPos : Vector) (trail : list Sample) (bounces : nat)
  : list Sample * nat :=
  match steps with
  | O => (trail, bounces)
  | S steps' =>
    if (bounces <? maxBounces p)%nat then
      let velocity := Vec.mult velocity (frictionCoefficient p) in
      let nextPos := Vec.add currentPos (Vec.mult velocity (predictionStepSize p)) in
      let collision := checkCushionCollision p currentPos nextPos tb in
      let nextPos := if hit collision then hitPoint collision else nextPos in
      let velocity :=
        if hit collision
        then Vec.mult (reflectVelocity velocity (normal collision)) (cushionRestitution p)
        else velocity in
      let bounces := if hit collision then S bounces else bounces in
      let trail :=
        trail ++ [mkSample (vx nextPos) (vy nextPos) bounces (Vec.mag velocity)] in
      if Rltb (Vec.mag velocity) (speedThreshold p) then (trail, bounces)
      else predictionLoop p tb steps' velocity nextPos trail bounces
    else (trail, bounces)
  end.

(** The body of [calculatePrediction] after the guard, from the start
    position and the launch velocity it has computed. *)
Definition predict (p : t) (tb : Table) (startPos velocity : Vector) : t :=
  let '(trail, bounces) :=
    predictionLoop p tb (maxPredictionSteps p) velocity startPos [] 0%nat in
  withResult p trail bounces.

Definition launchVelocity (cue : Cue) : Vector :=
  let shootAngle := angle cue + PI in
  let speed :=
    if isCharging cue then P5.map (getCurrentPower cue / 100) 0 1 2 12 else 6 in
  createVector (cos shootAngle * speed) (sin shootAngle * speed).

Definition calculatePrediction (p : t) (cueBall : Ball) (cue : Cue) (tb : Table) : t :=
  if negb (enabled p)
     || (match body cueBall with Some _ => false | None => true end)
     || negb (Cue_isVisible cue)
  then withResult p [] (predictionBounces p)
  else
    let cueBallPos := getPosition cueBall in
    let startPos := createVector (vx cueBallPos) (vy cueBallPos) in
    predict p tb startPos (launchVelocity cue).

Definition getBounceCount (p : t) : nat := predictionBounces p.
Definition getTrailLength (p : t) : nat := length (predictionTrail p).

End BallTrailPrediction.

(** ** DynamicObstacles *)

Module DynamicObstacles.

Inductive Phase : Type := warning | active | fading.

Record Obstacle : Type := mkObstacle {
  o_x : R;
  o_y : R;
  age : nat;
  maxAge : nat;
  phase : Phase;
  rotationAngle : R;
  rotationSpeed : R;
  o_body : bool;      (* whether the Matter.js rectangle exists *)
  o_active : bool
}.

Record t : Type := mk {
  obstacles : list Obstacle;
  spawnTimer : nat;
  spawnRate : nat;
  maxObstacles : nat;
  warningTime : nat;
  activeTime : nat;
  fadeTime : nat;
  interactionRadius : R;
  emergencyRadius : R;
  maxPushForce : R;
  minPushForce : R;
  enabled : bool
}.

Definition constructor : t :=
  mk [] 0 420 2 120 300 60 60 25 6 1.5 true.

Definition withObstacles (d : t) (obs : list Obstacle) : t :=
  mk obs (spawnTimer d) (spawnRate d) (maxObstacles d) (warningTime d) (activeTime d)
     (fadeTime d) (interactionRadius d) (emergencyRadius d) (maxPushForce d)
     (minPushForce d) (enabled d).

Definition withSpawnTimer (d : t) (n : nat) : t :=
  mk (obstacles d) n (spawnRate d) (maxObstacles d) (warningTime d) (activeTime d)
     (fadeTime d) (interactionRadius d) (emergencyRadius d) (maxPushForce d)
     (minPushForce d) (enabled d).

Definition withEnabled (d : t) (e : bool) : t :=
  mk (obstacles d) (spawnTimer d) (spawnRate d) (maxObstacles d) (warningTime d)
     (activeTime d) (fadeTime d) (interactionRadius d) (emergencyRadius d)
     (maxPushForce d) (minPushForce d) e.

(** The uniform draws of [random]: draw number [k] yields [rnd k]. *)
Definition Rand : Type := nat -> R.

(** *** Spawn search *)

Definition tooCloseToPockets (tb : Table) (x y : R) : bool :=
  existsb (fun pocket => Rltb (P5.dist x y (vx pocket) (vy pocket)) 70)
          (getPocketPositions tb).

Definition ballNear (x y : R) (ball : Ball) : bool :=
  match body ball with
  | Some bd => Rltb (P5.dist x y (vx (position bd)) (vy (position bd))) 80
  | None => false
  end.

Definition tooCloseToBalls (d : t) (bm : BallManager) (x y : R) : bool :=
  ballNear x y (getCueBall bm)
  || existsb (ballNear x y) (getRedBalls bm)
  || existsb (ballNear x y) (getColoredBalls bm)
  || existsb (fun o => Rltb (P5.dist x y (o_x o) (o_y o)) 100) (obstacles d).

(** The three rejection tests of one attempt, in source order. *)
Definition rejected (d : t) (tb : Table) (bm : BallManager) (x y : R) : bool :=
  if isInDZone tb x y then true
  else if tooCloseToPockets tb x y then true
  else tooCloseToBalls d bm x y.

(** The candidate drawn by the attempt that starts at draw [k]. *)
Definition candidate (tb : Table) (rnd : Rand) (k : nat) : R * R :=
  let boundaries := getBoundaries tb in
  (P5.random (left boundaries + 80) (right boundaries - 80) (rnd k),
   P5.random (top boundaries + 80) (bottom boundaries - 80) (rnd (S k))).

(** The [while (attempts < maxAttempts)] loop; [attemptsLeft] is
    [maxAttempts - attempts].  Returns the position found, if any, and the
    number of draws consumed so far. *)
Fixpoint findSafeLoop (d : t) (tb : Table) (bm : BallManager) (rnd : Rand)
    (attemptsLeft k : nat) : option Vector * nat :=
  match attemptsLeft with
  | O => (None, k)
  | S n =>
    let '(x, y) := candidate tb rnd k in
    if rejected d tb bm x y then findSafeLoop d tb bm rnd n (S (S k))
    else (Some (createVector x y), S (S k))
  end.

Definition maxAttempts : nat := 50.

Definition findSafeSpawnPosition (d : t) (tb : Table) (bm : BallManager)
    (rnd : Rand) (k : nat) : option Vector * nat :=
  findSafeLoop d tb bm rnd maxAttempts k.

Definition newObstacle (d : t) (spawnPos : Vector) : Obstacle :=
  mkObstacle (vx spawnPos) (vy spawnPos) 0
             (warningTime d + activeTime d + fadeTime d)
             warning 0 0.08 false false.

Definition spawnRandomObstacle (d : t) (tb : Table) (bm : BallManager)
    (rnd : Rand) (k : nat) : t * nat :=
  match findSafeSpawnPosition d tb bm rnd k with
  | (None, k') => (d, k')
  | (Some spawnPos, k') =>
    (withObstacles d (obstacles d ++ [newObstacle d spawnPos]), k')
  end.

(** *** Lifecycle *)

Definition withPhase (o : Obstacle) (ph : Phase) : Obstacle :=
  mkObstacle (o_x o) (o_y o) (age o) (maxAge o) ph (rotationAngle o)
             (rotationSpeed o) (o_body o) (o_active o).

Definition activateObstacle (o : Obstacle) : Obstacle :=
  mkObstacle (o_x o) (o_y o) (age o) (maxAge o) (phase o) (rotationAngle o)
             (rotationSpeed o) true true.

Definition deactivateObstacle (o : Obstacle) : Obstacle :=
  mkObstacle (o_x o) (o_y o) (age o) (maxAge o) (phase o) (rotationAngle o)
             (rotationSpeed o) false false.

Definition updateObstaclePhase (d : t) (o : Obstacle) : Obstacle :=
  if (age o <=? warningTime d)%nat then withPhase o warning
  else if (age o <=? warningTime d + activeTime d)%nat then
    withPhase (match phase o with warning => activateObstacle o | _ => o end) active
  else if (age o <=? maxAge o)%nat then
    withPhase (match phase o with active => deactivateObstacle o | _ => o end) fading
  else o.

(** *** Ball interactions *)

Definition pushBallAway (d : t) (ball : Ball) (o : Obstacle) (distance : R) : Ball :=
  match body ball with
  | None => ball
  | Some bd =>
    let pushAngle :=
      P5.atan2 (vy (position bd) - o_y o) (vx (position bd) - o_x o) in
    let pushAngle := pushAngle + sin (rotationAngle o * 2) * 0.2 in
    let forceMagnitude :=
      P5.map distance 5 (interactionRadius d) (maxPushForce d) (minPushForce d) in
    let velocityX := cos pushAngle * forceMagnitude in
    let velocityY := sin pushAngle * forceMagnitude in
    let currentVel := getVelocity ball in
    let newVelX := vx currentVel + velocityX * 0.3 in
    let newVelY := vy currentVel + velocityY * 0.3 in
    let maxVel := 10 in
    let currentSpeed := sqrt (newVelX * newVelX + newVelY * newVelY) in
    if Rgtb currentSpeed maxVel
    then setVelocity ball (newVelX / currentSpeed * maxVel) (newVelY / currentSpeed * maxVel)
    else setVelocity ball newVelX newVelY
  end.

Definition escapeDistance : R := 40.

Definition emergencyPushBall (ball : Ball) (o : Obstacle) : Ball :=
  match body ball with
  | None => ball
  | Some bd =>
    let escapeAngle :=
      P5.atan2 (vy (position bd) - o_y o) (vx (position bd) - o_x o) in
    let newX := o_x o + cos escapeAngle * escapeDistance in
    let newY := o_y o + sin escapeAngle * escapeDistance in
    setVelocity (setPosition ball newX newY) (cos escapeAngle * 3) (sin escapeAngle * 3)
  end.

(** The callback of [allBalls.forEach] in [handleBallInteractions]; balls
    without a body are not in [allBalls] and stay as they are. *)
Definition interactWithBall (d : t) (o : Obstacle) (ball : Ball) : Ball :=
  match body ball with
  | None => ball
  | Some bd =>
    let distance := P5.dist (o_x o) (o_y o) (vx (position bd)) (vy (position bd)) in
    let ball :=
      if Rltb distance (interactionRadius d) && Rgtb distance 5
      then pushBallAway d ball o distance else ball in
    if Rltb distance (emergencyRadius d) && Rgtb distance 0
    then emergencyPushBall ball o else ball
  end.

Definition handleBallInteractions (d : t) (o : Obstacle) (bm : BallManager)
  : BallManager :=
  mkBallManager (interactWithBall d o (cueBall bm))
                (List.map (interactWithBall d o) (redBalls bm))
                (List.map (interactWithBall d o) (coloredBalls bm))
                (ballsMoving bm).

(** *** Per-frame update *)

(** What one iteration of the loop of [updateObstacles] does to the
    obstacle it visits, before the interaction and the removal test. *)
Definition ageObstacle (d : t) (o : Obstacle) : Obstacle :=
  let o := mkObstacle (o_x o) (o_y o) (S (age o)) (maxAge o) (phase o)
                      (rotationAngle o) (rotationSpeed o) (o_body o) (o_active o) in
  let o := updateObstaclePhase d o in
  mkObstacle (o_x o) (o_y o) (age o) (maxAge o) (phase o)
             (rotationAngle o + rotationSpeed o) (rotationSpeed o)
             (o_body o) (o_active o).

Definition expired (o : Obstacle) : bool := (maxAge o <? age o)%nat.

(** [updateObstacles] walks the array from the last index down to 0 and
    splices out the visited element when it has expired, which leaves the
    lower indices in place.  On a list: the tail is processed first, then
    the head. *)
Fixpoint updateObstaclesList (d : t) (obs : list Obstacle) (bm : BallManager)
  : list Obstacle * BallManager :=
  match obs with
  | [] => ([], bm)
  | o :: rest =>
    let '(rest', bm) := updateObstaclesList d rest bm in
    let o' := ageObstacle d o in
    let bm :=
      match phase o' with
      | active => handleBallInteractions d o' bm
      | _ => bm
      end in
    (if expired o' then rest' else o' :: rest', bm)
  end.

Definition updateObstacles (d : t) (bm : BallManager) : t * BallManager :=
  let '(obs, bm) := updateObstaclesList d (obstacles d) bm in
  (withObstacles d obs, bm).

Definition spawnDue (d : t) (bm : BallManager) : bool :=
  (spawnRate d <=? spawnTimer d)%nat
  && (length (obstacles d) <? maxObstacles d)%nat
  && negb (areBallsMoving bm).

Definition update (d : t) (tb : Table) (bm : BallManager) (rnd : Rand) (k : nat)
  : t * BallManager * nat :=
  if negb (enabled d) then (d, bm, k)
  else
    let d := withSpawnTimer d (S (spawnTimer d)) in
    let '(d, k) :=
      if spawnDue d bm then
        let '(d, k) := spawnRandomObstacle d tb bm rnd k in
        (withSpawnTimer d 0, k)
      else (d, k) in
    let '(d, bm) := updateObstacles d bm in
    (d, bm, k).

Definition enable (d : t) : t := withEnabled d true.

(** [disable] removes the obstacles one by one until none is left. *)
Definition disable (d : t) : t := withObstacles (withEnabled d false) [].

Definition toggle (d : t) : t := if enabled d then disable d else enable d.

(** *** Observing one obstacle over its life *)

(** What is seen of an obstacle: its phase while it is in the container. *)
Inductive Observed : Type := inPhase (ph : Phase) | removed.

(** One pass of [updateObstacles] over an obstacle that is still there. *)
Definition tickObstacle (d : t) (o : option Obstacle) : option Obstacle :=
  match o with
  | None => None
  | Some o => let o' := ageObstacle d o in if expired o' then None else Some o'
  end.

Fixpoint afterTicks (d : t) (n : nat) (o : option Obstacle) : option Obstacle :=
  match n with
  | O => o
  | S n' => tickObstacle d (afterTicks d n' o)
  end.

Definition observe (o : option Obstacle) : Observed :=
  match o with
  | Some o => inPhase (phase o)
  | None => removed
  end.

Definition rank (ob : Observed) : nat :=
  match ob with
  | inPhase warning => 0
  | inPhase active => 1
  | inPhase fading => 2
  | removed => 3
  end.

(** *** The states the obstacle system can be in *)

(** From [new DynamicObstacles()], the game calls [update] once per frame
    (with whatever the balls are doing then) and [toggle] on a key press. *)
Inductive Reachable (tb : Table) (rnd : Rand) : t -> nat -> Prop :=
| reach_new : forall k, Reachable tb rnd constructor k
| reach_update : forall d k bm,
    Reachable tb rnd d k ->
    Reachable tb rnd (fst (fst (update d tb bm rnd k))) (snd (update d tb bm rnd k))
| reach_toggle : forall d k,
    Reachable tb rnd d k -> Reachable tb rnd (toggle d) k.

Definition insideBy80 (tb : Table) (x y : R) : Prop :=
  left (getBoundaries tb) + 80 <= x <= right (getBoundaries tb) - 80
  /\ top (getBoundaries tb) + 80 <= y <= bottom (getBoundaries tb) - 80.

End DynamicObstacles.

(** ** The four cushion tests, as propositions *)

Section Cushion.

Import BallTrailPrediction.

Variables (p : BallTrailPrediction.t) (tb : Table) (currentPos nextPos : Vector).

Definition crossesLeft : Prop :=
  vx nextPos <= leftBound p tb /\ vx currentPos > leftBound p tb.
Definition crossesRight : Prop :=
  vx nextPos >= rightBound p tb /\ vx currentPos < rightBound p tb.
Definition crossesTop : Prop :=
  vy nextPos <= topBound p tb /\ vy currentPos > topBound p tb.
Definition crossesBottom : Prop :=
  vy nextPos >= bottomBound p tb /\ vy currentPos < bottomBound p tb.

(** What [checkCushionCollision] returns when the ordered tests select the
    given cushion. *)
Definition leftHit : Collision :=
  mkCollision true (createVector (leftBound p tb) (vy nextPos)) (createVector 1 0).
Definition rightHit : Collision :=
  mkCollision true (createVector (rightBound p tb) (vy nextPos)) (createVector (-1) 0).
Definition topHit : Collision :=
  mkCollision true (createVector (vx nextPos) (topBound p tb)) (createVector 0 1).
Definition bottomHit : Collision :=
  mkCollision true (createVector (vx nextPos) (bottomBound p tb)) (createVector 0 (-1)).
Definition noHit : Collision := mkCollision false nextPos (createVector 0 0).

End Cushion.

(** ** Vocabulary for statements about the trail *)

(** Every element of the list is related to the one after it. *)
Fixpoint adjacent {A : Type} (rel : A -> A -> Prop) (l : list A) : Prop :=
  match l with
  | a :: (b :: _) as rest => rel a b /\ adjacent rel rest
  | _ => True
  end.

(** The velocity, position and bounce count after one iteration of the loop
    of [calculatePrediction], as [predictionLoop] computes them. *)
Definition iteration (p : BallTrailPrediction.t) (tb : Table)
    (velocity currentPos : Vector) (bounces : nat) : Vector * Vector * nat :=
  let velocity := Vec.mult velocity (BallTrailPrediction.frictionCoefficient p) in
  let nextPos :=
    Vec.add currentPos (Vec.mult velocity (BallTrailPrediction.predictionStepSize p)) in
  let collision := BallTrailPrediction.checkCushionCollision p currentPos nextPos tb in
  if BallTrailPrediction.hit collision
  then (Vec.mult (BallTrailPrediction.reflectVelocity velocity
                    (BallTrailPrediction.normal collision))
                 (BallTrailPrediction.cushionRestitution p),
        BallTrailPrediction.hitPoint collision, S bounces)
  else (velocity, nextPos, bounces).

(** How a sample relates to the one pushed before it: same bounce count and
    the speed scaled by the friction factor, or one more bounce and the speed
    scaled by friction and restitution. *)
Definition follows (p : BallTrailPrediction.t) (s1 s2 : BallTrailPrediction.Sample) : Prop :=
  (BallTrailPrediction.bounce s2 = BallTrailPrediction.bounce s1
   /\ BallTrailPrediction.speed s2
      = Rabs (BallTrailPrediction.frictionCoefficient p) * BallTrailPrediction.speed s1)
  \/ (BallTrailPrediction.bounce s2 = S (BallTrailPrediction.bounce s1)
      /\ BallTrailPrediction.speed s2
         = Rabs (BallTrailPrediction.frictionCoefficient p)
           * Rabs (BallTrailPrediction.cushionRestitution p)
           * BallTrailPrediction.speed s1).

(** [a] and [b] are consecutive entries of [l], [a] first. *)
Definition consecutive {A : Type} (l : list A) (a b : A) : Prop :=
  exists i, nth_error l i = Some a /\ nth_error l (S i) = Some b.

(** [a] is the last entry of [l]. *)
Definition lastEntry {A : Type} (l : list A) (a : A) : Prop :=
  nth_error l (length l - 1) = Some a.

(** The bounds of a prediction [r] computed with the configuration of [p]. *)
Definition trailBounded (p r : BallTrailPrediction.t) : Prop :=
  (length (BallTrailPrediction.predictionTrail r)
   <= BallTrailPrediction.maxPredictionSteps p)%nat
  /\ (forall s, lastEntry (BallTrailPrediction.predictionTrail r) s ->
                (BallTrailPrediction.bounce s <= BallTrailPrediction.maxBounces p)%nat)
  /\ (forall s1 s2, consecutive (BallTrailPrediction.predictionTrail r) s1 s2 ->
                    (BallTrailPrediction.bounce s1 <= BallTrailPrediction.bounce s2)%nat).

(** Speeds along a trail: never larger than the one before; scaled by the
    friction factor alone when the two samples have the same bounce count. *)
Definition speedDecays (p : BallTrailPrediction.t)
    (trail : list BallTrailPrediction.Sample) : Prop :=
  forall s1 s2, consecutive trail s1 s2 ->
    0 <= BallTrailPrediction.speed s2 <= BallTrailPrediction.speed s1
    /\ (BallTrailPrediction.bounce s2 = BallTrailPrediction.bounce s1 ->
        BallTrailPrediction.speed s2
        = BallTrailPrediction.frictionCoefficient p * BallTrailPrediction.speed s1)
    /\ (BallTrailPrediction.bounce s2 <> BallTrailPrediction.bounce s1 ->
        BallTrailPrediction.speed s2
        = BallTrailPrediction.frictionCoefficient p
          * BallTrailPrediction.cushionRestitution p * BallTrailPrediction.speed s1).

(** ** Vocabulary for statements about obstacles *)

(** The phase the age thresholds assign to an obstacle of age [n] that is
    still in the container. *)
Definition phaseAt (d : DynamicObstacles.t) (n : nat) : DynamicObstacles.Phase :=
  if (n <=? DynamicObstacles.warningTime d)%nat then DynamicObstacles.warning
  else if (n <=? DynamicObstacles.warningTime d + DynamicObstacles.activeTime d)%nat
       then DynamicObstacles.active
       else DynamicObstacles.fading.

(** What is seen, [n] calls of [update] after its spawn, of an obstacle
    spawned at [pos]. *)
Definition lifeTrace (d : DynamicObstacles.t) (pos : Vector) (n : nat)
  : DynamicObstacles.Observed :=
  DynamicObstacles.observe
    (DynamicObstacles.afterTicks d n (Some (DynamicObstacles.newObstacle d pos))).

(** What a pass of [updateObstacles] leaves of one obstacle. *)
Definition survivors (d : DynamicObstacles.t) (o : DynamicObstacles.Obstacle)
  : list DynamicObstacles.Obstacle :=
  match DynamicObstacles.tickObstacle d (Some o) with
  | Some o' => [o']
  | None => []
  end.

(** The balls of the manager in the order [handleBallInteractions] collects
    them (those without a body included; the pass skips them). *)
Definition ballsOf (bm : BallManager) : list Ball :=
  getCueBall bm :: getRedBalls bm ++ getColoredBalls bm.

(** Distance from the centre of an obstacle to where a ball is. *)
Definition distanceTo (o : DynamicObstacles.Obstacle) (ball : Ball) : R :=
  P5.dist (DynamicObstacles.o_x o) (DynamicObstacles.o_y o)
          (vx (getPosition ball)) (vy (getPosition ball)).

(** An obstacle in its active phase at the centre of the game table, and a
    ball manager whose only ball with a body is a resting cue ball at (x, y):
    concrete inputs for the interaction pass. *)
Definition activeObstacleAtCentre : DynamicObstacles.Obstacle :=
  DynamicObstacles.mkObstacle 600 300 200 480 DynamicObstacles.active 16 0.08 true true.

Definition loneCueBall (x y : R) : BallManager :=
  mkBallManager (mkBall x y (Some (mkBody (createVector x y) (createVector 0 0))))
                [] [] false.

(** Every one of the [n] attempts that start at draw [k] draws a candidate
    that one of the tests rejects. *)
Definition allRejected (d : DynamicObstacles.t) (tb : Table) (bm : BallManager)
    (rnd : DynamicObstacles.Rand) (k n : nat) : Prop :=
  forall i, (i < n)%nat ->
    DynamicObstacles.rejected d tb bm
      (fst (DynamicObstacles.candidate tb rnd (k + 2 * i)))
      (snd (DynamicObstacles.candidate tb rnd (k + 2 * i))) = true.

Definition obstacleInside (tb : Table) (o : DynamicObstacles.Obstacle) : Prop :=
  DynamicObstacles.insideBy80 tb (DynamicObstacles.o_x o) (DynamicObstacles.o_y o).

(** A source of draws that sends every candidate of the game table to the
    centre of the D zone: x from the even draws, y from the odd ones. *)
Definition drawsIntoDZone : DynamicObstacles.Rand :=
  fun n => if Nat.even n then 17 / 84 else 1 / 2.

(** Draws that send every candidate to the middle of its range, and a ball
    manager with no ball on the table. *)
Definition middleDraws : DynamicObstacles.Rand := fun _ => 1 / 2.

Definition noBalls : BallManager := mkBallManager (mkBall 0 0 None) [] [] false.


(** * The rest of the prediction, obstacle, ball, cue and table code *)

(** ** BallTrailPrediction: state management and bounce markers *)

Module TrailView.

Definition withFlags (p : BallTrailPrediction.t) (e v : bool) : BallTrailPrediction.t :=
  BallTrailPrediction.mk
    (BallTrailPrediction.maxPredictionSteps p) (BallTrailPrediction.predictionStepSize p)
    (BallTrailPrediction.maxBounces p) (BallTrailPrediction.speedThreshold p)
    (BallTrailPrediction.predictionTrail p) (BallTrailPrediction.predictionBounces p)
    (BallTrailPrediction.frictionCoefficient p) (BallTrailPrediction.cushionRestitution p)
    (BallTrailPrediction.p_ballRadius p) e v.

Definition show (p : BallTrailPrediction.t) : BallTrailPrediction.t :=
  withFlags p (BallTrailPrediction.enabled p) true.
Definition hide (p : BallTrailPrediction.t) : BallTrailPrediction.t :=
  withFlags p (BallTrailPrediction.enabled p) false.
Definition enable (p : BallTrailPrediction.t) : BallTrailPrediction.t :=
  withFlags p true (BallTrailPrediction.visible p).
Definition disable (p : BallTrailPrediction.t) : BallTrailPrediction.t :=
  withFlags p false (BallTrailPrediction.visible p).

Definition toggle (p : BallTrailPrediction.t) : BallTrailPrediction.t :=
  let p := withFlags p (negb (BallTrailPrediction.enabled p)) (BallTrailPrediction.visible p) in
  if negb (BallTrailPrediction.enabled p) then hide p else p.

Definition isVisible (p : BallTrailPrediction.t) : bool :=
  BallTrailPrediction.visible p && BallTrailPrediction.enabled p.

(** The loop of [drawBouncePoints]: the samples at which a circle is drawn,
    in order; [lastBounce] starts at -1. *)
Fixpoint bounceMarkers (lastBounce : Z) (trail : list BallTrailPrediction.Sample)
  : list BallTrailPrediction.Sample :=
  match trail with
  | [] => []
  | point :: rest =>
    if (lastBounce <? Z.of_nat (BallTrailPrediction.bounce point))%Z
    then point :: bounceMarkers (Z.of_nat (BallTrailPrediction.bounce point)) rest
    else bounceMarkers lastBounce rest
  end.

Definition drawBouncePoints (p : BallTrailPrediction.t) : list BallTrailPrediction.Sample :=
  bounceMarkers (-1)%Z (BallTrailPrediction.predictionTrail p).

End TrailView.

(** ** Ball: physics body, speed *)

Module BallOps.

(** [Bodies.circle] makes a body at rest at the given position. *)
Definition createPhysicsBody (b : Ball) : Ball :=
  if Rgtb (b_x b) 0 && Rgtb (b_y b) 0
     && (match body b with Some _ => false | None => true end)
  then mkBall (b_x b) (b_y b)
              (Some (mkBody (createVector (b_x b) (b_y b)) (createVector 0 0)))
  else b.

Definition removePhysicsBody (b : Ball) : Ball :=
  match body b with
  | Some _ => mkBall (b_x b) (b_y b) None
  | None => b
  end.

Definition getSpeed (b : Ball) : R :=
  match body b with
  | Some _ =>
    let velocity := getVelocity b in
    sqrt (vx velocity * vx velocity + vy velocity * vy velocity)
  | None => 0
  end.

Definition isMoving (b : Ball) (threshold : R) : bool := Rgtb (getSpeed b) threshold.

End BallOps.

(** ** BallManager: movement state and cue ball placement *)

Module BallManagerOps.

Definition speedThreshold : R := 0.5.

Definition hasBody (b : Ball) : bool :=
  match body b with Some _ => true | None => false end.

(** [updateBallMovementState]: the flag is raised by any ball that has a
    body and moves faster than the threshold. *)
Definition updateBallMovementState (bm : BallManager) : BallManager :=
  let moving := fun ball => hasBody ball && BallOps.isMoving ball speedThreshold in
  mkBallManager (cueBall bm) (redBalls bm) (coloredBalls bm)
    (moving (cueBall bm) || existsb moving (redBalls bm)
     || existsb moving (coloredBalls bm)).

(** [placeCueBall]: the result and the manager after the call. *)
Definition placeCueBall (bm : BallManager) (x y : R) (tb : Table) : bool * BallManager :=
  if negb (isInDZone tb x y) then (false, bm)
  else
    let cue := BallOps.removePhysicsBody (cueBall bm) in
    let cue := setPosition cue x y in
    let cue := BallOps.createPhysicsBody cue in
    (true, mkBallManager cue (redBalls bm) (coloredBalls bm) (ballsMoving bm)).

End BallManagerOps.

(** ** Cue: charging and shooting.

    The fields [maxPower] and [maxSpeed] of the cue, which the record above
    does not carry, are passed to the methods that read them. *)

Module CueOps.

(** The values the [Cue] constructor gives them. *)
Definition initialMaxPower : R := 100.
Definition initialMaxSpeed : R := 20.

Definition startCharging (c : Cue) : Cue :=
  if c_visible c then mkCue (angle c) (c_visible c) 0 true else c.

Definition updatePower (maxPower : R) (c : Cue) : Cue :=
  if charging c && Rltb (power c) maxPower
  then mkCue (angle c) (c_visible c) (power c + 2) (charging c)
  else c.

(** [stopCharging]: the final power and the cue after the call. *)
Definition stopCharging (c : Cue) : R * Cue :=
  (power c, mkCue (angle c) (c_visible c) 0 false).

(** [shoot]: the cue and the cue ball after the call. *)
Definition shoot (maxPower maxSpeed : R) (c : Cue) (cueBall : Ball) (shotPower : R)
  : Cue * Ball :=
  match body cueBall with
  | None => (c, cueBall)
  | Some _ =>
    let shootAngle := angle c + PI in
    let speed := P5.map shotPower 0 maxPower 1 maxSpeed in
    let velocityX := cos shootAngle * speed in
    let velocityY := sin shootAngle * speed in
    (mkCue (angle c) false (power c) (charging c),
     setVelocity cueBall velocityX velocityY)
  end.

(** [n] frames of [updatePower]. *)
Fixpoint charge (maxPower : R) (n : nat) (c : Cue) : Cue :=
  match n with
  | O => c
  | S n' => updatePower maxPower (charge maxPower n' c)
  end.

End CueOps.

(** ** Table: ball placement *)

Module TableOps.

Definition t_ballRadius (t : Table) : R := t_ballDiameter t / 2.

Definition isValidBallPosition (t : Table) (x y : R) : bool :=
  let baulkX := t_x t + t_length t * 0.25 in
  let dRadius := 80 in
  let distanceFromD := P5.dist x y baulkX (t_y t + t_width t / 2) in
  if Rltb x baulkX && Rltb distanceFromD dRadius then false
  else if existsb (fun pocket => Rltb (P5.dist x y (vx pocket) (vy pocket)) 40)
                  (pocketPositions t)
       then false
       else true.

(** The candidate of [getRandomValidPosition] drawn from draw [k] on. *)
Definition randomCandidate (t : Table) (rnd : nat -> R) (k : nat) : R * R :=
  (P5.random (t_x t + t_ballRadius t + 50) (t_x t + t_length t - t_ballRadius t - 50)
             (rnd k),
   P5.random (t_y t + t_ballRadius t + 50) (t_y t + t_width t - t_ballRadius t - 50)
             (rnd (S k))).

(** The loop [while (!validPosition && attempts < 100)]; [attemptsLeft] is
    [100 - attempts], [xy] the last candidate drawn.  It returns the last
    candidate and the number of draws consumed. *)
Fixpoint randomValidLoop (t : Table) (rnd : nat -> R) (attemptsLeft : nat)
    (xy : R * R) (k : nat) : (R * R) * nat :=
  match attemptsLeft with
  | O => (xy, k)
  | S n =>
    let xy := randomCandidate t rnd k in
    if isValidBallPosition t (fst xy) (snd xy) then (xy, S (S k))
    else randomValidLoop t rnd n xy (S (S k))
  end.

(** [getRandomValidPosition]; [x] and [y] are not initialised before the
    loop, whose first iteration assigns them: the pair given here is never
    returned. *)
Definition getRandomValidPosition (t : Table) (rnd : nat -> R) (k : nat)
  : (R * R) * nat :=
  randomValidLoop t rnd 100 (0, 0) k.

End TableOps.

(** ** GameManager: keeping the prediction up to date *)

Module GameManager.

Definition updateBallPrediction (cueBallPlaced : bool) (cue : Cue) (bm : BallManager)
    (tb : Table) (p : BallTrailPrediction.t) : BallTrailPrediction.t :=
  if cueBallPlaced && Cue_isVisible cue && negb (areBallsMoving bm)
     && BallManagerOps.hasBody (getCueBall bm)
  then
    let p := BallTrailPrediction.calculatePrediction p (getCueBall bm) cue tb in
    if BallTrailPrediction.enabled p then TrailView.show p else p
  else TrailView.hide p.

End GameManager.

(** ** Vocabulary for further statements about the trail *)

(** The speed of the sample of index [i] is the launch speed scaled by the
    friction factor once per step and by the restitution once per bounce. *)
Definition speedClosedForm (p : BallTrailPrediction.t) (launch : Vector)
    (trail : list BallTrailPrediction.Sample) : Prop :=
  forall i s, nth_error trail i = Some s ->
    BallTrailPrediction.speed s
    = Vec.mag launch * BallTrailPrediction.frictionCoefficient p ^ (S i)
      * BallTrailPrediction.cushionRestitution p ^ (BallTrailPrediction.bounce s).

(** Every sample followed by another one left the loop running: its speed
    reached the threshold and its bounce count was below the limit. *)
Definition onlyLastStops (p : BallTrailPrediction.t)
    (trail : list BallTrailPrediction.Sample) : Prop :=
  forall i s, nth_error trail i = Some s -> (S i < length trail)%nat ->
    BallTrailPrediction.speedThreshold p <= BallTrailPrediction.speed s
    /\ (BallTrailPrediction.bounce s < BallTrailPrediction.maxBounces p)%nat.

(** Why a prediction [r] ended: the step limit, the bounce limit or a last
    sample slower than the threshold. *)
Definition stopReason (p r : BallTrailPrediction.t) : Prop :=
  length (BallTrailPrediction.predictionTrail r) = BallTrailPrediction.maxPredictionSteps p
  \/ (BallTrailPrediction.maxBounces p <= BallTrailPrediction.predictionBounces r)%nat
  \/ exists s, lastEntry (BallTrailPrediction.predictionTrail r) s
               /\ BallTrailPrediction.speed s < BallTrailPrediction.speedThreshold p.

Definition betweenSideCushions (p : BallTrailPrediction.t) (tb : Table)
    (trail : list BallTrailPrediction.Sample) : Prop :=
  Forall (fun s => BallTrailPrediction.leftBound p tb <= BallTrailPrediction.s_x s
                   <= BallTrailPrediction.rightBound p tb) trail.

(** The bounce count stored with a prediction agrees with its trail. *)
Definition bounceCountMatches (r : BallTrailPrediction.t) : Prop :=
  (BallTrailPrediction.predictionTrail r = [] -> BallTrailPrediction.predictionBounces r = 0%nat)
  /\ (forall s, lastEntry (BallTrailPrediction.predictionTrail r) s ->
                BallTrailPrediction.bounce s = BallTrailPrediction.predictionBounces r)
  /\ (forall s, nth_error (BallTrailPrediction.predictionTrail r) 0 = Some s ->
                (BallTrailPrediction.bounce s <= 1)%nat)
  /\ (forall s1 s2, consecutive (BallTrailPrediction.predictionTrail r) s1 s2 ->
                    BallTrailPrediction.bounce s2 = BallTrailPrediction.bounce s1
                    \/ BallTrailPrediction.bounce s2 = S (BallTrailPrediction.bounce s1)).

(** The state of the loop stays between the side cushions: strictly between
    the inset bounds, or on one of them and not moving towards it. *)
Definition withinSides (p : BallTrailPrediction.t) (tb : Table) (v pos : Vector) : Prop :=
  (BallTrailPrediction.leftBound p tb < vx pos < BallTrailPrediction.rightBound p tb)
  \/ (vx pos = BallTrailPrediction.leftBound p tb /\ 0 <= vx v)
  \/ (vx pos = BallTrailPrediction.rightBound p tb /\ vx v <= 0).

(** ** Vocabulary for further statements about obstacles *)



(** The settings of the obstacle system are those of its constructor. *)
Definition constructorSettings (d : DynamicObstacles.t) : Prop :=
  DynamicObstacles.spawnRate d = 420%nat
  /\ DynamicObstacles.maxObstacles d = 2%nat
  /\ DynamicObstacles.warningTime d = 120%nat
  /\ DynamicObstacles.activeTime d = 300%nat
  /\ DynamicObstacles.fadeTime d = 60%nat
  /\ DynamicObstacles.interactionRadius d = 60
  /\ DynamicObstacles.emergencyRadius d = 25
  /\ DynamicObstacles.maxPushForce d = 6
  /\ DynamicObstacles.minPushForce d = 1.5.

(** An obstacle whose fields agree with each other: it has not outlived
    [maxAge], its phase is the one its age calls for, and its physics body
    exists, with the [active] flag set, exactly in the active phase. *)
Definition obstacleSound (d : DynamicObstacles.t) (o : DynamicObstacles.Obstacle) : Prop :=
  DynamicObstacles.maxAge o
  = (DynamicObstacles.warningTime d + DynamicObstacles.activeTime d
     + DynamicObstacles.fadeTime d)%nat
  /\ (DynamicObstacles.age o <= DynamicObstacles.maxAge o)%nat
  /\ DynamicObstacles.phase o = phaseAt d (DynamicObstacles.age o)
  /\ DynamicObstacles.o_body o = DynamicObstacles.o_active o
  /\ (DynamicObstacles.o_active o = true
      <-> DynamicObstacles.phase o = DynamicObstacles.active).

(** What an accepted spawn position [(x, y)] is clear of. *)
Definition clearOfEverything (d : DynamicObstacles.t) (tb : Table) (bm : BallManager)
    (x y : R) : Prop :=
  isInDZone tb x y = false
  /\ Forall (fun pocket => 70 <= P5.dist x y (vx pocket) (vy pocket))
            (getPocketPositions tb)
  /\ Forall (fun ball => forall bd, body ball = Some bd ->
                         80 <= P5.dist x y (vx (position bd)) (vy (position bd)))
            (ballsOf bm)
  /\ Forall (fun o => 100 <= P5.dist x y (DynamicObstacles.o_x o) (DynamicObstacles.o_y o))
            (DynamicObstacles.obstacles d).

(** Two states of the obstacle system with the same settings and the same
    [enabled] flag. *)
Definition sameSettings (d d' : DynamicObstacles.t) : Prop :=
  DynamicObstacles.spawnRate d' = DynamicObstacles.spawnRate d
  /\ DynamicObstacles.maxObstacles d' = DynamicObstacles.maxObstacles d
  /\ DynamicObstacles.warningTime d' = DynamicObstacles.warningTime d
  /\ DynamicObstacles.activeTime d' = DynamicObstacles.activeTime d
  /\ DynamicObstacles.fadeTime d' = DynamicObstacles.fadeTime d
  /\ DynamicObstacles.interactionRadius d' = DynamicObstacles.interactionRadius d
  /\ DynamicObstacles.emergencyRadius d' = DynamicObstacles.emergencyRadius d
  /\ DynamicObstacles.maxPushForce d' = DynamicObstacles.maxPushForce d
  /\ DynamicObstacles.minPushForce d' = DynamicObstacles.minPushForce d
  /\ DynamicObstacles.enabled d' = DynamicObstacles.enabled d.

(** A ball that has a body is on the centre of the obstacle or at least the
    emergency radius away from it. *)
Definition outOfEmergencyZone (d : DynamicObstacles.t) (o : DynamicObstacles.Obstacle)
    (ball : Ball) : Prop :=
  forall bd, body ball = Some bd ->
    distanceTo o ball = 0 \/ DynamicObstacles.emergencyRadius d <= distanceTo o ball.

(** ** Vocabulary for statements about ball placement *)

(** The rectangle [getRandomValidPosition] draws from. *)
Definition inPlacementArea (t : Table) (x y : R) : Prop :=
  t_x t + TableOps.t_ballRadius t + 50 <= x <= t_x t + t_length t - TableOps.t_ballRadius t - 50
  /\ t_y t + TableOps.t_ballRadius t + 50 <= y
     <= t_y t + t_width t - TableOps.t_ballRadius t - 50.

(** The candidate drawn by attempt number [i] (from 0) of a search that
    starts at draw [k] is a valid ball position. *)
Definition attemptValid (t : Table) (rnd : nat -> R) (k i : nat) : bool :=
  TableOps.isValidBallPosition t
    (fst (TableOps.randomCandidate t rnd (k + 2 * i)))
    (snd (TableOps.randomCandidate t rnd (k + 2 * i))).

(** Draws that send every candidate of [getRandomValidPosition] on the game
    table to (340, 300), inside the D zone. *)
Definition drawsIntoDZoneForBalls : nat -> R :=
  fun n => if Nat.even n then 659 / 3190 else 1 / 2.

(** ** Several frames of the obstacle system *)

(** One call of [update] per frame, with the balls as they are in that
    frame; the result is the system and the number of draws used. *)
Fixpoint runFrames (tb : Table) (rnd : DynamicObstacles.Rand) (bms : list BallManager)
    (d : DynamicObstacles.t) (k : nat) : DynamicObstacles.t * nat :=
  match bms with
  | [] => (d, k)
  | bm :: rest =>
    runFrames tb rnd rest (fst (fst (DynamicObstacles.update d tb bm rnd k)))
              (snd (DynamicObstacles.update d tb bm rnd k))
  end.

(** The obstacle system of the game after 419 frames, and after 420, with
    no ball on the table and every draw equal to 1/2. *)
Definition afterFrame419 : DynamicObstacles.t * nat :=
  runFrames gameTable middleDraws (repeat noBalls 419) DynamicObstacles.constructor 0.

Definition stateAfterFrame420 : DynamicObstacles.t :=
  fst (fst (DynamicObstacles.update (fst afterFrame419) gameTable noBalls middleDraws
              (snd afterFrame419))).

Definition drawsAfterFrame420 : nat :=
  snd (DynamicObstacles.update (fst afterFrame419) gameTable noBalls middleDraws
         (snd afterFrame419)).

(** ** Table: the spots of the coloured balls and the triangle of reds *)

Module TableLayout.

(** [ballPositions], keyed by the id of a coloured ball, as fractions of the
    table; the ids of the other balls ([cue], [red_0], ...) are not keys of
    it. *)
Definition ballPositions (ballColor : String.string) : option (R * R) :=
  if String.eqb ballColor "brown" then Some (0.25, 0.5)
  else if String.eqb ballColor "green" then Some (0.25, 0.35)
  else if String.eqb ballColor "yellow" then Some (0.25, 0.65)
  else if String.eqb ballColor "blue" then Some (0.5, 0.5)
  else if String.eqb ballColor "pink" then Some (0.735, 0.5)
  else if String.eqb ballColor "black" then Some (0.88, 0.5)
  else None.

(** [getBallSpotPosition]; [None] is the [null] returned for an id that has
    no spot. *)
Definition getBallSpotPosition (t : Table) (ballColor : String.string) : option Vector :=
  match ballPositions ballColor with
  | Some pos =>
    Some (createVector (t_x t + t_length t * fst pos) (t_y t + t_width t * snd pos))
  | None => None
  end.

(** The body of the inner loop of [getRedBallTrianglePositions]; the state is
    the array [positions] and the counter [ballIndex]. *)
Definition pushTrianglePosition (t : Table) (triangleStartX rowStartY : R) (row : nat)
    (state : list Vector * nat) (col : nat) : list Vector * nat :=
  let '(positions, ballIndex) := state in
  if (ballIndex <? 15)%nat
  then (positions ++ [createVector (triangleStartX + INR row * t_ballDiameter t * 0.87)
                                   (rowStartY + INR col * t_ballDiameter t)],
        S ballIndex)
  else (positions, ballIndex).

(** The body of the outer loop: one row of the triangle. *)
Definition triangleRow (t : Table) (triangleStartX triangleStartY : R)
    (state : list Vector * nat) (row : nat) : list Vector * nat :=
  let ballsInRow := (row + 1)%nat in
  let rowStartY := triangleStartY - (INR ballsInRow - 1) * TableOps.t_ballRadius t in
  fold_left (pushTrianglePosition t triangleStartX rowStartY row) (seq 0 ballsInRow) state.

Definition getRedBallTrianglePositions (t : Table) : list Vector :=
  let triangleStartX := t_x t + t_length t * 0.75 in
  let triangleStartY := t_y t + t_width t * 0.5 in
  let rows := 5%nat in
  fst (fold_left (triangleRow t triangleStartX triangleStartY) (seq 0 rows) ([], 0%nat)).

End TableLayout.

(** ** BallManager: creating and positioning the balls

    The record [Ball] does not carry the id of a ball, which never changes.
    Where a method reads the ids of the coloured balls, the model takes them
    as the list [ids], in the order of [coloredBalls]. *)

Module BallSetup.

(** [new Ball(id, color, value)]: at (0, 0), without a body. *)
Definition Ball_new : Ball := mkBall 0 0 None.

(** The ids of [colorData], in the order the coloured balls are created. *)
Definition colorIds : list String.string :=
  ["yellow"; "green"; "brown"; "blue"; "pink"; "black"]%string.

(** [new BallManager()], whose constructor calls [initializeBalls]. *)
Definition initializeBalls : BallManager :=
  mkBallManager Ball_new (repeat Ball_new 15) (List.map (fun _ => Ball_new) colorIds) false.

(** [array.forEach((ball, index) => ...)] where the callback updates the ball
    it is given. *)
Fixpoint forEachIndexed (f : Ball -> nat -> Ball) (balls : list Ball) (index : nat)
  : list Ball :=
  match balls with
  | [] => []
  | ball :: rest => f ball index :: forEachIndexed f rest (S index)
  end.

(** [positionRedBallsTriangle]; [index < trianglePositions.length] is the
    case in which the position of that index exists. *)
Definition positionRedBallsTriangle (bm : BallManager) (t : Table) : BallManager :=
  let trianglePositions := TableLayout.getRedBallTrianglePositions t in
  mkBallManager (cueBall bm)
    (forEachIndexed
       (fun ball index =>
          match nth_error trianglePositions index with
          | Some p => setPosition ball (vx p) (vy p)
          | None => ball
          end)
       (redBalls bm) 0)
    (coloredBalls bm) (ballsMoving bm).

(** The loop that puts each coloured ball on its spot, when it has one. *)
Fixpoint positionOnSpots (t : Table) (ids : list String.string) (balls : list Ball)
  : list Ball :=
  match balls with
  | [] => []
  | ball :: rest =>
    (match TableLayout.getBallSpotPosition t (hd ""%string ids) with
     | Some spotPos => setPosition ball (vx spotPos) (vy spotPos)
     | None => ball
     end) :: positionOnSpots t (tl ids) rest
  end.

Definition resetPhysicsBalls (bm : BallManager) : BallManager :=
  let cue := if BallManagerOps.hasBody (cueBall bm)
             then BallOps.removePhysicsBody (cueBall bm) else cueBall bm in
  mkBallManager (setPosition cue 0 0)
    (List.map BallOps.removePhysicsBody (redBalls bm))
    (List.map BallOps.removePhysicsBody (coloredBalls bm))
    (ballsMoving bm).

Definition createPhysicsBodies (bm : BallManager) : BallManager :=
  let bm := resetPhysicsBalls bm in
  mkBallManager (cueBall bm)
    (List.map BallOps.createPhysicsBody (redBalls bm))
    (List.map BallOps.createPhysicsBody (coloredBalls bm))
    (ballsMoving bm).

Definition positionBallsStarting (ids : list String.string) (bm : BallManager) (t : Table)
  : BallManager :=
  let bm := positionRedBallsTriangle bm t in
  let bm := mkBallManager (cueBall bm) (redBalls bm)
                          (positionOnSpots t ids (coloredBalls bm)) (ballsMoving bm) in
  createPhysicsBodies bm.

(** The loop that gives each ball a position from [getRandomValidPosition];
    [k] counts the random draws. *)
Fixpoint positionRandomly (t : Table) (rnd : nat -> R) (balls : list Ball) (k : nat)
  : list Ball * nat :=
  match balls with
  | [] => ([], k)
  | ball :: rest =>
    let '(randomPos, k) := TableOps.getRandomValidPosition t rnd k in
    let ball := setPosition ball (fst randomPos) (snd randomPos) in
    let '(rest, k) := positionRandomly t rnd rest k in
    (ball :: rest, k)
  end.

Definition positionBallsRandom (ids : list String.string) (bm : BallManager) (t : Table)
    (includeColored : bool) (rnd : nat -> R) (k : nat) : BallManager * nat :=
  let '(reds, k) := positionRandomly t rnd (redBalls bm) k in
  let '(colored, k) :=
    if includeColored then positionRandomly t rnd (coloredBalls bm) k
    else (positionOnSpots t ids (coloredBalls bm), k) in
  (createPhysicsBodies (mkBallManager (cueBall bm) reds colored (ballsMoving bm)), k).

End BallSetup.

(** ** BallManager: balls in pockets

    [lastPottedBallType] and [consecutiveColoredBalls], fields of the ball
    manager that the record [BallManager] does not carry, are kept in a
    record of their own that is passed along with it. *)

Module Potting.

Record PotState : Type := mkPotState {
  lastPottedBallType : String.string;
  consecutiveColoredBalls : nat
}.

(** The fields the [BallManager] constructor gives them. *)
Definition initialPotState : PotState := mkPotState ""%string 0.

Record GameEvents : Type := mkGameEvents {
  redPotted : bool;
  coloredPotted : bool;
  cueBallPotted : bool;
  gameMessage : String.string
}.

Definition mistakeMessage : String.string :=
  "MISTAKE: Two consecutive colored balls potted!"%string.

Definition cueBallMessage : String.string :=
  "Cue ball potted! Click in D zone to replace."%string.

(** [Ball.isInPocket] *)
Definition isInPocket (b : Ball) (pocketPositions : list Vector) (pocketRadius : R) : bool :=
  match body b with
  | None => false
  | Some _ =>
    let position := getPosition b in
    existsb (fun pocket =>
               Rltb (P5.dist (vx position) (vy position) (vx pocket) (vy pocket))
                    pocketRadius)
            pocketPositions
  end.

(** [Ball.isAtSpot]; [None] is the default [null] of [tolerance], and a
    tolerance of 0 is replaced like [null]. *)
Definition isAtSpot (b : Ball) (spotX spotY : R) (tolerance : option R) : bool :=
  let tolerance :=
    match tolerance with
    | Some tol => if Req_dec_T tol 0 then ballRadius * 2.5 else tol
    | None => ballRadius * 2.5
    end in
  let position := getPosition b in
  Rltb (P5.dist (vx position) (vy position) spotX spotY) tolerance.

Definition isSpotOccupied (bm : BallManager) (x y : R) : bool :=
  let checkRadius := ballRadius * 2.5 in
  let there := fun ball =>
    BallManagerOps.hasBody ball && isAtSpot ball x y (Some checkRadius) in
  if existsb there (redBalls bm) then true
  else if existsb there (coloredBalls bm) then true
  else if there (cueBall bm) then true
  else false.

(** [respotColoredBall] for the coloured ball [ball] of id [id]; [bm] holds
    the cue ball and the reds, [before] and [after] are the coloured balls
    before and after [ball] in [coloredBalls].  It returns the ball as the
    call leaves it, and the count of random draws. *)
Definition respotColoredBall (bm : BallManager) (before after : list Ball) (ball : Ball)
    (id : String.string) (t : Table) (rnd : nat -> R) (k : nat) : Ball * nat :=
  let ball := BallOps.removePhysicsBody ball in
  match TableLayout.getBallSpotPosition t id with
  | Some spotPos =>
    let newX := vx spotPos in
    let newY := vy spotPos in
    let now := mkBallManager (cueBall bm) (redBalls bm) (before ++ ball :: after)
                             (ballsMoving bm) in
    let '(newX, newY, k) :=
      if isSpotOccupied now newX newY
      then (newX + P5.random (-30) 30 (rnd k),
            newY + P5.random (-30) 30 (rnd (S k)), S (S k))
      else (newX, newY, k) in
    (BallOps.createPhysicsBody (setPosition ball newX newY), k)
  | None => (ball, k)
  end.

(** The loop over the red balls, from the last index down to 0, with
    [splice] of the potted ones: the tail is processed first, then the
    head. *)
Fixpoint checkRedBalls (pocketPositions : list Vector) (pocketRadius : R)
    (reds : list Ball) (st : PotState) (ev : GameEvents)
  : list Ball * PotState * GameEvents :=
  match reds with
  | [] => ([], st, ev)
  | ball :: rest =>
    let '(rest, st, ev) := checkRedBalls pocketPositions pocketRadius rest st ev in
    if BallManagerOps.hasBody ball && isInPocket ball pocketPositions pocketRadius
    then (rest, mkPotState "red"%string 0,
          mkGameEvents true (coloredPotted ev) (cueBallPotted ev) (gameMessage ev))
    else (ball :: rest, st, ev)
  end.

(** The loop over the coloured balls: [before] are the balls already
    visited, as they are now, [todo] the ball visited and those after it,
    [ids] the ids of the balls of [todo]. *)
Fixpoint checkColoredBalls (bm : BallManager) (t : Table) (rnd : nat -> R)
    (ids : list String.string) (before todo : list Ball)
    (st : PotState) (ev : GameEvents) (k : nat)
  : list Ball * PotState * GameEvents * nat :=
  match todo with
  | [] => (before, st, ev, k)
  | ball :: rest =>
    if BallManagerOps.hasBody ball
       && isInPocket ball (getPocketPositions t) (pocketRadius t)
    then
      let '(count, ev) :=
        if negb (String.eqb (lastPottedBallType st) "red")
        then
          let count := S (consecutiveColoredBalls st) in
          (count,
           if (2 <=? count)%nat
           then mkGameEvents (redPotted ev) (coloredPotted ev) (cueBallPotted ev)
                             mistakeMessage
           else ev)
        else (1%nat, ev) in
      let '(ball, k) := respotColoredBall bm before rest ball (hd ""%string ids) t rnd k in
      checkColoredBalls bm t rnd (tl ids) (before ++ [ball]) rest
        (mkPotState "colored"%string count)
        (mkGameEvents (redPotted ev) true (cueBallPotted ev) (gameMessage ev)) k
    else checkColoredBalls bm t rnd (tl ids) (before ++ [ball]) rest st ev k
  end.

(** [checkBallsInPockets]: the events, the manager and its potting fields
    after the call, and the count of random draws. *)
Definition checkBallsInPockets (ids : list String.string) (bm : BallManager)
    (st : PotState) (t : Table) (rnd : nat -> R) (k : nat)
  : GameEvents * BallManager * PotState * nat :=
  let pocketPositions := getPocketPositions t in
  let pocketRadius := pocketRadius t in
  let gameEvents := mkGameEvents false false false ""%string in
  let '(reds, st, gameEvents) :=
    checkRedBalls pocketPositions pocketRadius (redBalls bm) st gameEvents in
  let bm := mkBallManager (cueBall bm) reds (coloredBalls bm) (ballsMoving bm) in
  let '(colored, st, gameEvents, k) :=
    checkColoredBalls bm t rnd ids [] (coloredBalls bm) st gameEvents k in
  if BallManagerOps.hasBody (cueBall bm)
     && isInPocket (cueBall bm) pocketPositions pocketRadius
  then (mkGameEvents (redPotted gameEvents) (coloredPotted gameEvents) true cueBallMessage,
        mkBallManager (BallOps.removePhysicsBody (cueBall bm)) reds colored (ballsMoving bm),
        st, k)
  else (gameEvents, mkBallManager (cueBall bm) reds colored (ballsMoving bm), st, k).

End Potting.

(** ** Vocabulary for statements about the layout and the pockets *)


(** A ball at rest with a body at the point given. *)
Definition restingAt (p : Vector) : Ball :=
  mkBall (vx p) (vy p) (Some (mkBody (createVector (vx p) (vy p)) (createVector 0 0))).

(** The ball has a body and is in a pocket of the table. *)
Definition potted (t : Table) (ball : Ball) : bool :=
  BallManagerOps.hasBody ball
  && Potting.isInPocket ball (getPocketPositions t) (pocketRadius t).

(** ** GameManager: game state, input handling and the main loop

    The state of the game manager and of the components it owns.  [potState]
    holds the potting fields of the ball manager, [draws] counts the random
    numbers drawn so far from the stream [rnd] that stands for [random].
    The collision message of the ball manager ([handleCollisions],
    [updateCollisionTimer]) is display only and is left out. *)

Module GameLoop.

(** The values [gameState] takes. *)
Inductive GameState : Type := PLACE_CUE_BALL | AIMING | READY_TO_SHOOT | BALL_MOVING.

Record t : Type := mkGame {
  gameState : GameState;
  displayMode : nat;
  cueBallPlaced : bool;
  table : Table;
  ballManager : BallManager;
  potState : Potting.PotState;
  cue : Cue;
  ballPrediction : BallTrailPrediction.t;
  dynamicObstacles : DynamicObstacles.t;
  gameMessage : String.string;
  gameMessageTimer : nat;
  draws : nat
}.

(** [new Cue()] and the cue's [show], [hide], [reset] and [updateAngle]. *)
Definition Cue_new : Cue := mkCue 0 false 0 false.
Definition Cue_show (c : Cue) : Cue := mkCue (angle c) true (power c) (charging c).
Definition Cue_hide (c : Cue) : Cue := mkCue (angle c) false (power c) (charging c).
Definition Cue_reset (c : Cue) : Cue := mkCue 0 false 0 false.

Definition Cue_updateAngle (c : Cue) (mouseX mouseY : R) (cueBall : Ball) : Cue :=
  match body cueBall with
  | None => c
  | Some _ =>
    let cueBallPos := getPosition cueBall in
    mkCue (P5.atan2 (mouseY - vy cueBallPos) (mouseX - vx cueBallPos) + PI)
          (c_visible c) (power c) (charging c)
  end.

(** [constructor] followed by [initialize], on the canvas of 1200 by 600. *)
Definition initialize : t :=
  let tb := Table_new 1200 600 in
  let bm := BallSetup.initializeBalls in
  mkGame PLACE_CUE_BALL 1 false tb
         (BallSetup.positionBallsStarting BallSetup.colorIds bm tb)
         Potting.initialPotState Cue_new BallTrailPrediction.constructor
         DynamicObstacles.constructor ""%string 0 0.

Definition showGameMessage (g : t) (message : String.string) : t :=
  mkGame (gameState g) (displayMode g) (cueBallPlaced g) (table g) (ballManager g)
         (potState g) (cue g) (ballPrediction g) (dynamicObstacles g)
         message 180 (draws g).

Definition updateGameMessageTimer (g : t) : t :=
  if (0 <? gameMessageTimer g)%nat
  then mkGame (gameState g) (displayMode g) (cueBallPlaced g) (table g) (ballManager g)
              (potState g) (cue g) (ballPrediction g) (dynamicObstacles g)
              (gameMessage g) (gameMessageTimer g - 1) (draws g)
  else g.

Definition handlePocketEvents (rnd : nat -> R) (g : t) : t :=
  let '(pocketEvents, bm, st, k) :=
    Potting.checkBallsInPockets BallSetup.colorIds (ballManager g) (potState g) (table g)
                                rnd (draws g) in
  let g := mkGame (gameState g) (displayMode g) (cueBallPlaced g) (table g) bm
                  st (cue g) (ballPrediction g) (dynamicObstacles g)
                  (gameMessage g) (gameMessageTimer g) k in
  let g :=
    if Potting.cueBallPotted pocketEvents
    then mkGame PLACE_CUE_BALL (displayMode g) false (table g) (ballManager g)
                (potState g) (Cue_hide (cue g)) (TrailView.hide (ballPrediction g))
                (dynamicObstacles g) (gameMessage g) (gameMessageTimer g) (draws g)
    else g in
  if String.eqb (Potting.gameMessage pocketEvents) ""
  then g
  else showGameMessage g (Potting.gameMessage pocketEvents).

Definition handleCueVisibility (g : t) : t :=
  if cueBallPlaced g
     && BallManagerOps.hasBody (getCueBall (ballManager g))
     && negb (Cue_isVisible (cue g))
     && negb (areBallsMoving (ballManager g))
  then mkGame AIMING (displayMode g) (cueBallPlaced g) (table g) (ballManager g)
              (potState g) (Cue_show (cue g)) (ballPrediction g) (dynamicObstacles g)
              (gameMessage g) (gameMessageTimer g) (draws g)
  else g.

Definition handleMousePressed (g : t) (mouseX mouseY : R) : t :=
  match gameState g with
  | PLACE_CUE_BALL =>
    if isInDZone (table g) mouseX mouseY
    then
      let '(placed, bm) :=
        BallManagerOps.placeCueBall (ballManager g) mouseX mouseY (table g) in
      if placed
      then mkGame AIMING (displayMode g) true (table g) bm (potState g)
                  (Cue_show (cue g)) (ballPrediction g) (dynamicObstacles g)
                  (gameMessage g) (gameMessageTimer g) (draws g)
      else mkGame (gameState g) (displayMode g) (cueBallPlaced g) (table g) bm
                  (potState g) (cue g) (ballPrediction g) (dynamicObstacles g)
                  (gameMessage g) (gameMessageTimer g) (draws g)
    else g
  | _ => g
  end.

(** [setDisplayMode]; the modes are 1, 2 and 3, and the [switch] does
    nothing for another value. *)
Definition setDisplayMode (rnd : nat -> R) (g : t) (mode : nat) : t :=
  let bm := BallSetup.resetPhysicsBalls (ballManager g) in
  let c := Cue_reset (Cue_hide (cue g)) in
  let p := TrailView.hide (ballPrediction g) in
  let '(bm, k) :=
    match mode with
    | 1%nat => (BallSetup.positionBallsStarting BallSetup.colorIds bm (table g), draws g)
    | 2%nat => BallSetup.positionBallsRandom BallSetup.colorIds bm (table g)
                                             false rnd (draws g)
    | 3%nat => BallSetup.positionBallsRandom BallSetup.colorIds bm (table g)
                                             true rnd (draws g)
    | _ => (bm, draws g)
    end in
  mkGame PLACE_CUE_BALL mode false (table g) bm (potState g) c p
         (dynamicObstacles g) (gameMessage g) (gameMessageTimer g) k.

Definition startChargingKey (g : t) : t :=
  match gameState g with
  | AIMING =>
    if cueBallPlaced g && negb (areBallsMoving (ballManager g))
    then mkGame READY_TO_SHOOT (displayMode g) (cueBallPlaced g) (table g) (ballManager g)
                (potState g) (CueOps.startCharging (cue g)) (ballPrediction g)
                (dynamicObstacles g) (gameMessage g) (gameMessageTimer g) (draws g)
    else g
  | _ => g
  end.

Definition togglePredictionKey (g : t) : t :=
  let p := TrailView.toggle (ballPrediction g) in
  let g := mkGame (gameState g) (displayMode g) (cueBallPlaced g) (table g) (ballManager g)
                  (potState g) (cue g) p (dynamicObstacles g)
                  (gameMessage g) (gameMessageTimer g) (draws g) in
  if BallTrailPrediction.enabled p
  then showGameMessage g "Ball trail prediction enabled"%string
  else showGameMessage g "Ball trail prediction disabled"%string.

Definition toggleObstaclesKey (g : t) : t :=
  let d := DynamicObstacles.toggle (dynamicObstacles g) in
  let g := mkGame (gameState g) (displayMode g) (cueBallPlaced g) (table g) (ballManager g)
                  (potState g) (cue g) (ballPrediction g) d
                  (gameMessage g) (gameMessageTimer g) (draws g) in
  if DynamicObstacles.enabled d
  then showGameMessage g "Dynamic obstacles enabled"%string
  else showGameMessage g "Dynamic obstacles disabled"%string.

(** [handleKeyPressed]; [key] is p5's variable of that name. *)
Definition handleKeyPressed (rnd : nat -> R) (g : t) (key : String.string) : t :=
  if String.eqb key "1" then setDisplayMode rnd g 1
  else if String.eqb key "2" then setDisplayMode rnd g 2
  else if String.eqb key "3" then setDisplayMode rnd g 3
  else if String.eqb key " " then startChargingKey g
  else if String.eqb key "p" || String.eqb key "P" then togglePredictionKey g
  else if String.eqb key "o" || String.eqb key "O" then toggleObstaclesKey g
  else g.

Definition handleKeyReleased (g : t) (key : String.string) : t :=
  match gameState g with
  | READY_TO_SHOOT =>
    if String.eqb key " " && negb (areBallsMoving (ballManager g))
    then
      let '(finalPower, c) := CueOps.stopCharging (cue g) in
      let '(c, ball) :=
        CueOps.shoot CueOps.initialMaxPower CueOps.initialMaxSpeed c
                     (getCueBall (ballManager g)) finalPower in
      mkGame BALL_MOVING (displayMode g) (cueBallPlaced g) (table g)
             (mkBallManager ball (redBalls (ballManager g))
                            (coloredBalls (ballManager g)) (ballsMoving (ballManager g)))
             (potState g) c (TrailView.hide (ballPrediction g)) (dynamicObstacles g)
             (gameMessage g) (gameMessageTimer g) (draws g)
    else g
  | _ => g
  end.

Definition resetGame (g : t) : t :=
  mkGame PLACE_CUE_BALL (displayMode g) false (table g)
         (BallSetup.resetPhysicsBalls (ballManager g)) (potState g) (Cue_reset (cue g))
         (TrailView.hide (ballPrediction g)) (dynamicObstacles g) ""%string 0 (draws g).

(** [update]; [afterPhysics] is the ball manager as [Engine.update] leaves
    it, [mouseX] and [mouseY] are p5's variables of these names. *)
Definition update (rnd : nat -> R) (g : t) (afterPhysics : BallManager)
    (mouseX mouseY : R) : t :=
  let bm := BallManagerOps.updateBallMovementState afterPhysics in
  let g := mkGame (gameState g) (displayMode g) (cueBallPlaced g) (table g) bm
                  (potState g) (cue g) (ballPrediction g) (dynamicObstacles g)
                  (gameMessage g) (gameMessageTimer g) (draws g) in
  let g := handlePocketEvents rnd g in
  let c :=
    if isCharging (cue g) && negb (areBallsMoving (ballManager g))
    then CueOps.updatePower CueOps.initialMaxPower (cue g) else cue g in
  let c :=
    if cueBallPlaced g && BallManagerOps.hasBody (getCueBall (ballManager g))
    then Cue_updateAngle c mouseX mouseY (getCueBall (ballManager g)) else c in
  let p :=
    GameManager.updateBallPrediction (cueBallPlaced g) c (ballManager g) (table g)
                                     (ballPrediction g) in
  let '(d, bm, k) :=
    DynamicObstacles.update (dynamicObstacles g) (table g) (ballManager g) rnd (draws g) in
  let g := mkGame (gameState g) (displayMode g) (cueBallPlaced g) (table g) bm
                  (potState g) c p d
                  (gameMessage g) (gameMessageTimer g) k in
  let g := handleCueVisibility g in
  updateGameMessageTimer g.

End GameLoop.

(** ** Vocabulary for statements about the game loop *)

(** What [Engine.update] may do to a ball: it moves the body, if there is
    one, and leaves the rest as it is. *)
Definition moved (b b' : Ball) : Prop :=
  b_x b' = b_x b /\ b_y b' = b_y b
  /\ BallManagerOps.hasBody b' = BallManagerOps.hasBody b.

Definition engineMoves (bm bm' : BallManager) : Prop :=
  moved (cueBall bm) (cueBall bm')
  /\ Forall2 moved (redBalls bm) (redBalls bm')
  /\ Forall2 moved (coloredBalls bm) (coloredBalls bm')
  /\ ballsMoving bm' = ballsMoving bm.

(** The states of the game: those reached from [initialize] by frames of
    [update] and by the input handlers, and by [resetGame]. *)
Inductive Played (rnd : nat -> R) : GameLoop.t -> Prop :=
| played_initialize : Played rnd GameLoop.initialize
| played_update (g : GameLoop.t) (afterPhysics : BallManager) (mouseX mouseY : R) :
    Played rnd g ->
    engineMoves (GameLoop.ballManager g) afterPhysics ->
    Played rnd (GameLoop.update rnd g afterPhysics mouseX mouseY)
| played_mousePressed (g : GameLoop.t) (mouseX mouseY : R) :
    Played rnd g -> Played rnd (GameLoop.handleMousePressed g mouseX mouseY)
| played_keyPressed (g : GameLoop.t) (key : String.string) :
    Played rnd g -> Played rnd (GameLoop.handleKeyPressed rnd g key)
| played_keyReleased (g : GameLoop.t) (key : String.string) :
    Played rnd g -> Played rnd (GameLoop.handleKeyReleased g key)
| played_resetGame (g : GameLoop.t) :
    Played rnd g -> Played rnd (GameLoop.resetGame g).

(** The number of coloured balls of the list that are in a pocket. *)
Definition countPotted (t : Table) (balls : list Ball) : nat :=
  length (filter (potted t) balls).

(** The potting fields after a call of [checkBallsInPockets] that finds the
    reds and the coloured balls of [bm] in the pockets as they are. *)
Definition expectedPotState (t : Table) (bm : BallManager) (st : Potting.PotState)
  : Potting.PotState :=
  let red := existsb (potted t) (redBalls bm) in
  let colored := countPotted t (coloredBalls bm) in
  match colored with
  | O => if red then Potting.mkPotState "red"%string 0 else st
  | S _ =>
    Potting.mkPotState "colored"%string
      (if red || String.eqb (Potting.lastPottedBallType st) "red"
       then colored
       else (Potting.consecutiveColoredBalls st + colored)%nat)
  end.

(** The message of the events returned by that call. *)
Definition expectedMessage (t : Table) (bm : BallManager) (st : Potting.PotState)
  : String.string :=
  if potted t (cueBall bm) then Potting.cueBallMessage
  else if (0 <? countPotted t (coloredBalls bm))%nat
          && (2 <=? Potting.consecutiveColoredBalls (expectedPotState t bm st))%nat
       then Potting.mistakeMessage
       else ""%string.

(** [b'] is what [respotColoredBall] makes of the coloured ball [b] in some
    call. *)
Definition respotted (bm : BallManager) (t : Table) (rnd : nat -> R) (b b' : Ball) : Prop :=
  exists before after id k,
    b' = fst (Potting.respotColoredBall bm before after b id t rnd k).

(** What a call of [checkBallsInPockets] makes of a coloured ball: a ball
    in a pocket is respotted, another one is left as it is. *)
Definition visitedColored (bm : BallManager) (t : Table) (rnd : nat -> R) (b b' : Ball)
  : Prop :=
  if potted t b then respotted bm t rnd b b' else b' = b.

(** The flags of the game manager agree with each other and with the
    balls: [cueBallPlaced] is false exactly in the state PLACE_CUE_BALL and
    true exactly when the cue ball has a body, the cue is visible exactly
    in the states AIMING and READY_TO_SHOOT, the table is the one of
    [initialize], a message is shown for at most 180 frames, and there are
    six coloured balls and at most fifteen reds. *)
Definition gameConsistent (g : GameLoop.t) : Prop :=
  (GameLoop.cueBallPlaced g = false <-> GameLoop.gameState g = GameLoop.PLACE_CUE_BALL)
  /\ BallManagerOps.hasBody (cueBall (GameLoop.ballManager g)) = GameLoop.cueBallPlaced g
  /\ (Cue_isVisible (GameLoop.cue g) = true
      <-> GameLoop.gameState g = GameLoop.AIMING
          \/ GameLoop.gameState g = GameLoop.READY_TO_SHOOT)
  /\ GameLoop.table g = gameTable
  /\ (GameLoop.gameMessageTimer g <= 180)%nat
  /\ length (coloredBalls (GameLoop.ballManager g)) = 6%nat
  /\ (length (redBalls (GameLoop.ballManager g)) <= 15)%nat.

(** The cue ball keeps or lacks its body, no ball is added or lost, and the
    movement flag is kept. *)
Definition sameBalls (bm bm' : BallManager) : Prop :=
  BallManagerOps.hasBody (cueBall bm') = BallManagerOps.hasBody (cueBall bm)
  /\ length (redBalls bm') = length (redBalls bm)
  /\ length (coloredBalls bm') = length (coloredBalls bm)
  /\ ballsMoving bm' = ballsMoving bm.

(** The game after the first shot: the player clicks at (340, 300) in the D
    zone, presses the space bar and releases it at once. *)
Definition stateAfterFirstShot : GameLoop.t :=
  GameLoop.handleKeyReleased
    (GameLoop.handleKeyPressed middleDraws
       (GameLoop.handleMousePressed GameLoop.initialize 340 300) " ")
    " ".

(** * Properties *)

(** ** Comparisons and square roots *)

Lemma Rltb_true (a b : R) : Rltb a b = true <-> a < b.
Proof. unfold Rltb; destruct (Rlt_dec a b); split; intros; try discriminate; tauto. Qed.

Lemma Rltb_false (a b : R) : Rltb a b = false <-> b <= a.
Proof.
  unfold Rltb; destruct (Rlt_dec a b); split; intros; try discriminate; try lra; auto.
Qed.

Lemma Rleb_true (a b : R) : Rleb a b = true <-> a <= b.
Proof. unfold Rleb; destruct (Rle_dec a b); split; intros; try discriminate; tauto. Qed.

Lemma Rleb_false (a b : R) : Rleb a b = false <-> b < a.
Proof.
  unfold Rleb; destruct (Rle_dec a b); split; intros; try discriminate; try lra; auto.
Qed.

Lemma Rgtb_true (a b : R) : Rgtb a b = true <-> a > b.
Proof. unfold Rgtb; rewrite Rltb_true; lra. Qed.

Lemma Rgeb_true (a b : R) : Rgeb a b = true <-> a >= b.
Proof. unfold Rgeb; rewrite Rleb_true; lra. Qed.

Import BallTrailPrediction.


(** ** Cushion test *)

Lemma crossesLeft_test (p : BallTrailPrediction.t) tb cur nxt :
  Rleb (vx nxt) (leftBound p tb) && Rgtb (vx cur) (leftBound p tb) = true
  <-> crossesLeft p tb cur nxt.
Proof.
  unfold crossesLeft; rewrite andb_true_iff, Rleb_true, Rgtb_true; tauto.
Qed.

Lemma crossesRight_test (p : BallTrailPrediction.t) tb cur nxt :
  Rgeb (vx nxt) (rightBound p tb) && Rltb (vx cur) (rightBound p tb) = true
  <-> crossesRight p tb cur nxt.
Proof.
  unfold crossesRight; rewrite andb_true_iff, Rgeb_true, Rltb_true; tauto.
Qed.

Lemma crossesTop_test (p : BallTrailPrediction.t) tb cur nxt :
  Rleb (vy nxt) (topBound p tb) && Rgtb (vy cur) (topBound p tb) = true
  <-> crossesTop p tb cur nxt.
Proof.
  unfold crossesTop; rewrite andb_true_iff, Rleb_true, Rgtb_true; tauto.
Qed.

Lemma crossesBottom_test (p : BallTrailPrediction.t) tb cur nxt :
  Rgeb (vy nxt) (bottomBound p tb) && Rltb (vy cur) (bottomBound p tb) = true
  <-> crossesBottom p tb cur nxt.
Proof.
  unfold crossesBottom; rewrite andb_true_iff, Rgeb_true, Rltb_true; tauto.
Qed.

(** The result of [checkCushionCollision] is one of five records, chosen by
    the first test that holds. *)
Lemma checkCushionCollision_cases (p : BallTrailPrediction.t) tb cur nxt :
  let c := checkCushionCollision p cur nxt tb in
  (crossesLeft p tb cur nxt /\ c = leftHit p tb nxt)
  \/ (~ crossesLeft p tb cur nxt /\ crossesRight p tb cur nxt /\ c = rightHit p tb nxt)
  \/ (~ crossesLeft p tb cur nxt /\ ~ crossesRight p tb cur nxt
      /\ crossesTop p tb cur nxt /\ c = topHit p tb nxt)
  \/ (~ crossesLeft p tb cur nxt /\ ~ crossesRight p tb cur nxt
      /\ ~ crossesTop p tb cur nxt /\ crossesBottom p tb cur nxt
      /\ c = bottomHit p tb nxt)
  \/ (~ crossesLeft p tb cur nxt /\ ~ crossesRight p tb cur nxt
      /\ ~ crossesTop p tb cur nxt /\ ~ crossesBottom p tb cur nxt
      /\ c = noHit nxt).
Proof.
  intros c; subst c; unfold checkCushionCollision.
  pose proof (crossesLeft_test p tb cur nxt) as HL.
  pose proof (crossesRight_test p tb cur nxt) as HR.
  pose proof (crossesTop_test p tb cur nxt) as HT.
  pose proof (crossesBottom_test p tb cur nxt) as HB.
  destruct (Rleb (vx nxt) (leftBound p tb) && Rgtb (vx cur) (leftBound p tb)).
  { left; split; [apply HL|]; reflexivity. }
  assert (~ crossesLeft p tb cur nxt) by (intro X; apply HL in X; discriminate).
  destruct (Rgeb (vx nxt) (rightBound p tb) && Rltb (vx cur) (rightBound p tb)).
  { right; left; repeat split; auto; apply HR; reflexivity. }
  assert (~ crossesRight p tb cur nxt) by (intro X; apply HR in X; discriminate).
  destruct (Rleb (vy nxt) (topBound p tb) && Rgtb (vy cur) (topBound p tb)).
  { right; right; left; repeat split; auto; apply HT; reflexivity. }
  assert (~ crossesTop p tb cur nxt) by (intro X; apply HT in X; discriminate).
  destruct (Rgeb (vy nxt) (bottomBound p tb) && Rltb (vy cur) (bottomBound p tb)).
  { right; right; right; left; repeat split; auto; apply HB; reflexivity. }
  assert (~ crossesBottom p tb cur nxt) by (intro X; apply HB in X; discriminate).
  right; right; right; right; repeat split; auto.
Qed.

(** C1.  [checkCushionCollision] reports a hit exactly when, for one of the
    four cushions, the current position is strictly inside the inset bound
    (table boundary moved in by the cushion thickness plus the ball radius)
    and the next position is at or beyond it.  The tests are tried in the
    order left, right, top, bottom and the first that holds decides the
    result, so one cushion at most is resolved; the two tests of one axis can
    never hold together.  The hit point takes the inset bound on the crossed
    axis and the next position's other coordinate; without a hit it is the
    next position. *)
Theorem checkCushionCollision_first_match (p : BallTrailPrediction.t) tb cur nxt :
  let c := checkCushionCollision p cur nxt tb in
  let L := crossesLeft p tb cur nxt in
  let R_ := crossesRight p tb cur nxt in
  let T := crossesTop p tb cur nxt in
  let B := crossesBottom p tb cur nxt in
  leftBound p tb = left (getBoundaries tb) + 12 + p_ballRadius p
  /\ rightBound p tb = right (getBoundaries tb) - 12 - p_ballRadius p
  /\ topBound p tb = top (getBoundaries tb) + 12 + p_ballRadius p
  /\ bottomBound p tb = bottom (getBoundaries tb) - 12 - p_ballRadius p
  /\ (hit c = true <-> L \/ R_ \/ T \/ B)
  /\ (L -> c = leftHit p tb nxt)
  /\ (~ L -> R_ -> c = rightHit p tb nxt)
  /\ (~ L -> ~ R_ -> T -> c = topHit p tb nxt)
  /\ (~ L -> ~ R_ -> ~ T -> B -> c = bottomHit p tb nxt)
  /\ (~ L -> ~ R_ -> ~ T -> ~ B -> c = noHit nxt)
  /\ ~ (L /\ R_) /\ ~ (T /\ B)
  /\ (vx (hitPoint c) = vx nxt \/ vy (hitPoint c) = vy nxt).
Proof.
  intros c L R_ T B.
  pose proof (checkCushionCollision_cases p tb cur nxt) as H; cbv zeta in H.
  fold c L R_ T B in H.
  repeat match goal with |- _ /\ _ => split end;
    try reflexivity;
    try (unfold L, R_, T, B, crossesLeft, crossesRight, crossesTop, crossesBottom; lra).
  - split.
    + intros Hh.
      destruct H as [[? E]|[[? [? E]]|[[? [? [? E]]]|[[? [? [? [? E]]]]|[? [? [? [? E]]]]]]]];
        try tauto.
      rewrite E in Hh; discriminate.
    + intros Hc.
      destruct H as [[? E]|[[? [? E]]|[[? [? [? E]]]|[[? [? [? [? E]]]]|[? [? [? [? E]]]]]]]];
        try (rewrite E; reflexivity); tauto.
  - intros; destruct H as [[? E]|[[? [? E]]|[[? [? [? E]]]|[[? [? [? [? E]]]]|[? [? [? [? E]]]]]]]]; tauto.
  - intros; destruct H as [[? E]|[[? [? E]]|[[? [? [? E]]]|[[? [? [? [? E]]]]|[? [? [? [? E]]]]]]]]; tauto.
  - intros; destruct H as [[? E]|[[? [? E]]|[[? [? [? E]]]|[[? [? [? [? E]]]]|[? [? [? [? E]]]]]]]]; tauto.
  - intros; destruct H as [[? E]|[[? [? E]]|[[? [? [? E]]]|[[? [? [? [? E]]]]|[? [? [? [? E]]]]]]]]; tauto.
  - intros; destruct H as [[? E]|[[? [? E]]|[[? [? [? E]]]|[[? [? [? [? E]]]]|[? [? [? [? E]]]]]]]]; tauto.
  - destruct H as [[? E]|[[? [? E]]|[[? [? [? E]]]|[[? [? [? [? E]]]]|[? [? [? [? E]]]]]]]];
      rewrite E; simpl; auto.
Qed.

(** ** The prediction loop *)

Lemma adjacent_nth {A : Type} (rel : A -> A -> Prop) (l : list A) :
  adjacent rel l ->
  forall i a b, nth_error l i = Some a -> nth_error l (S i) = Some b -> rel a b.
Proof.
  induction l as [|x l IH]; intros Hadj i a b Ha Hb.
  - destruct i; discriminate.
  - destruct l as [|y l'].
    + destruct i as [|i]; simpl in Hb; [discriminate | destruct i; discriminate].
    + destruct Hadj as [Hxy Hrest].
      destruct i as [|i].
      * simpl in Ha, Hb. injection Ha as <-. injection Hb as <-. exact Hxy.
      * apply (IH Hrest i); assumption.
Qed.

Lemma mag_nonneg (v : Vector) : 0 <= Vec.mag v.
Proof. apply sqrt_pos. Qed.

Lemma mag_mult (v : Vector) (k : R) : Vec.mag (Vec.mult v k) = Rabs k * Vec.mag v.
Proof.
  unfold Vec.mag, Vec.mult; simpl.
  replace (vx v * k * (vx v * k) + vy v * k * (vy v * k))
    with (Rsqr k * (vx v * vx v + vy v * vy v)) by (unfold Rsqr; ring).
  rewrite sqrt_mult_alt by apply Rle_0_sqr.
  rewrite sqrt_Rsqr_abs. reflexivity.
Qed.

(** Reflection about an axis normal flips one component. *)
Lemma mag_reflect_axis (v n : Vector) :
  n = createVector 1 0 \/ n = createVector (-1) 0
  \/ n = createVector 0 1 \/ n = createVector 0 (-1) ->
  Vec.mag (reflectVelocity v n) = Vec.mag v.
Proof.
  intros [->|[->|[->| ->]]]; unfold Vec.mag, reflectVelocity, Vec.sub, Vec.mult, Vec.dot;
    simpl; f_equal; ring.
Qed.

Lemma hit_normal_axis (p : BallTrailPrediction.t) tb cur nxt :
  hit (checkCushionCollision p cur nxt tb) = true ->
  let n := normal (checkCushionCollision p cur nxt tb) in
  n = createVector 1 0 \/ n = createVector (-1) 0
  \/ n = createVector 0 1 \/ n = createVector 0 (-1).
Proof.
  intros Hh n; subst n.
  pose proof (checkCushionCollision_cases p tb cur nxt) as H; cbv zeta in H.
  destruct H as [[? E]|[[? [? E]]|[[? [? [? E]]]|[[? [? [? [? E]]]]|[? [? [? [? E]]]]]]]];
    rewrite E in *; simpl in *; auto; discriminate.
Qed.

(** One iteration either keeps the bounce count and scales the speed by the
    friction factor, or adds one bounce and scales it by restitution too. *)
Lemma iteration_effect (p : BallTrailPrediction.t) tb v pos b :
  let '(v', _, b') := iteration p tb v pos b in
  (b' = b /\ Vec.mag v' = Rabs (frictionCoefficient p) * Vec.mag v)
  \/ (b' = S b
      /\ Vec.mag v' = Rabs (frictionCoefficient p) * Rabs (cushionRestitution p) * Vec.mag v).
Proof.
  unfold iteration.
  set (v1 := Vec.mult v (frictionCoefficient p)).
  set (nxt := Vec.add pos (Vec.mult v1 (predictionStepSize p))).
  destruct (hit (checkCushionCollision p pos nxt tb)) eqn:Hh.
  - right; split; [reflexivity|].
    rewrite mag_mult, mag_reflect_axis by (apply hit_normal_axis; exact Hh).
    unfold v1; rewrite mag_mult; ring.
  - left; split; [reflexivity|]. unfold v1; apply mag_mult.
Qed.

(** The loop, one iteration unfolded. *)
Lemma predictionLoop_S (p : BallTrailPrediction.t) tb n v pos trail b :
  predictionLoop p tb (S n) v pos trail b =
  if (b <? maxBounces p)%nat then
    let '(v', pos', b') := iteration p tb v pos b in
    let trail' := trail ++ [mkSample (vx pos') (vy pos') b' (Vec.mag v')] in
    if Rltb (Vec.mag v') (speedThreshold p) then (trail', b')
    else predictionLoop p tb n v' pos' trail' b'
  else (trail, b).
Proof.
  simpl. unfold iteration.
  destruct (b <? maxBounces p)%nat; [|reflexivity].
  destruct (hit _); reflexivity.
Qed.

(** The samples pushed by the loop do not depend on the trail it starts
    from: they are appended to it. *)
Lemma predictionLoop_app (p : BallTrailPrediction.t) tb n :
  forall v pos trail b,
    predictionLoop p tb n v pos trail b =
    (trail ++ fst (predictionLoop p tb n v pos [] b),
     snd (predictionLoop p tb n v pos [] b)).
Proof.
  induction n as [|n IH]; intros v pos trail b.
  - simpl. rewrite app_nil_r. reflexivity.
  - rewrite !predictionLoop_S.
    destruct (b <? maxBounces p)%nat; [|simpl; rewrite app_nil_r; reflexivity].
    destruct (iteration p tb v pos b) as [[v' pos'] b']. cbv zeta.
    destruct (Rltb (Vec.mag v') (speedThreshold p)); [reflexivity|].
    rewrite (IH v' pos' (trail ++ _)), (IH v' pos' ([] ++ _)). simpl.
    rewrite <- app_assoc. reflexivity.
Qed.

Lemma nth_error_last_cons {A : Type} (a : A) (l : list A) :
  nth_error (a :: l) (length (a :: l) - 1) =
  match l with
  | [] => Some a
  | _ :: _ => nth_error l (length l - 1)
  end.
Proof.
  destruct l as [|b l]; [reflexivity|].
  simpl. rewrite Nat.sub_0_r. reflexivity.
Qed.

(** What the loop guarantees about the samples it pushes, started from any
    velocity, position and bounce count with [n] iterations left. *)
Lemma predictionLoop_trail (p : BallTrailPrediction.t) tb n :
  forall v pos b,
    let r := predictionLoop p tb n v pos [] b in
    (length (fst r) <= n)%nat
    /\ (b <= snd r)%nat
    /\ ((b <= maxBounces p)%nat -> (snd r <= maxBounces p)%nat)
    /\ adjacent (follows p) (fst r)
    /\ match fst r with
       | [] => snd r = b
       | s :: _ =>
         (bounce s = b /\ speed s = Rabs (frictionCoefficient p) * Vec.mag v)
         \/ (bounce s = S b
             /\ speed s = Rabs (frictionCoefficient p) * Rabs (cushionRestitution p)
                          * Vec.mag v)
       end
    /\ (forall s, nth_error (fst r) (length (fst r) - 1) = Some s -> bounce s = snd r).
Proof.
  induction n as [|n IH]; intros v pos b r; subst r.
  - simpl. repeat split; auto; intros s Hs; discriminate.
  - rewrite predictionLoop_S.
    destruct (b <? maxBounces p)%nat eqn:Hb.
    2:{ simpl. repeat split; auto; try lia; intros s Hs; discriminate. }
    apply Nat.ltb_lt in Hb.
    pose proof (iteration_effect p tb v pos b) as He.
    destruct (iteration p tb v pos b) as [[v' pos'] b']. cbv zeta.
    assert (Hb' : (b <= b' <= maxBounces p)%nat) by (destruct He as [[-> _]|[-> _]]; lia).
    destruct (Rltb (Vec.mag v') (speedThreshold p)).
    + simpl. repeat split; try lia; auto;
        intros s Hs; injection Hs as <-; reflexivity.
    + rewrite predictionLoop_app.
      specialize (IH v' pos' b'); cbv zeta in IH.
      destruct (predictionLoop p tb n v' pos' [] b') as [tr bf].
      cbn [fst snd app] in *.
      destruct IH as (Hlen & Hle & Hmax & Hadj & Hhead & Hlast).
      split; [simpl; lia|]. split; [lia|]. split; [intros _; apply Hmax; lia|].
      split; [|split].
      * destruct tr as [|s2 tr']; [exact I|]. split; [|exact Hadj].
        unfold follows; simpl. exact Hhead.
      * simpl. exact He.
      * intros s Hs. rewrite nth_error_last_cons in Hs.
        destruct tr as [|s2 tr'].
        -- injection Hs as <-. simpl. auto.
        -- apply Hlast. exact Hs.
Qed.

Lemma predict_trail (p : BallTrailPrediction.t) tb startPos v :
  predictionTrail (predict p tb startPos v)
  = fst (predictionLoop p tb (maxPredictionSteps p) v startPos [] 0%nat)
  /\ predictionBounces (predict p tb startPos v)
     = snd (predictionLoop p tb (maxPredictionSteps p) v startPos [] 0%nat).
Proof.
  unfold predict. destruct (predictionLoop _ _ _ _ _ _ _) as [tr bf]. split; reflexivity.
Qed.

Lemma predict_bounded (p : BallTrailPrediction.t) tb startPos v :
  trailBounded p (predict p tb startPos v)
  /\ (predictionBounces (predict p tb startPos v) <= maxBounces p)%nat.
Proof.
  destruct (predict_trail p tb startPos v) as [Et Eb].
  pose proof (predictionLoop_trail p tb (maxPredictionSteps p) v startPos 0) as H.
  cbv zeta in H. rewrite <- Et, <- Eb in H.
  destruct H as (Hlen & _ & Hmax & Hadj & _ & Hlast).
  unfold trailBounded. repeat split.
  - exact Hlen.
  - intros s Hs. rewrite (Hlast s Hs). apply Hmax; lia.
  - intros s1 s2 [i [H1 H2]].
    destruct (adjacent_nth _ _ Hadj i s1 s2 H1 H2) as [[-> _]|[-> _]]; lia.
  - apply Hmax; lia.
Qed.

Lemma calculatePrediction_cases (p : BallTrailPrediction.t) cueBall cue tb :
  (calculatePrediction p cueBall cue tb = withResult p [] (predictionBounces p)
   /\ (enabled p = false \/ body cueBall = None \/ Cue_isVisible cue = false))
  \/ (calculatePrediction p cueBall cue tb
      = predict p tb (getPosition cueBall) (launchVelocity cue)
      /\ enabled p = true /\ body cueBall <> None /\ Cue_isVisible cue = true).
Proof.
  unfold calculatePrediction.
  destruct (enabled p), (body cueBall) as [bd|] eqn:Hbd, (Cue_isVisible cue); simpl;
    try (left; split; [reflexivity | auto]; fail).
  right. split; [|repeat split; congruence].
  destruct (getPosition cueBall); reflexivity.
Qed.

(** C2.  Whatever the start position, launch velocity and table, the trail
    computed by the loop of [calculatePrediction] has at most
    [maxPredictionSteps] samples, its last sample carries at most
    [maxBounces] bounces, and the bounce count never goes down from one
    sample to the next; the same holds of every call of
    [calculatePrediction].  The constructor sets the two limits to 300 and
    5. *)
Theorem prediction_trail_bounded (p : BallTrailPrediction.t) (tb : Table) :
  (forall startPos velocity, trailBounded p (predict p tb startPos velocity))
  /\ (forall cueBall cue, trailBounded p (calculatePrediction p cueBall cue tb))
  /\ maxPredictionSteps BallTrailPrediction.constructor = 300%nat
  /\ maxBounces BallTrailPrediction.constructor = 5%nat.
Proof.
  split; [|split; [|split; reflexivity]].
  - intros; apply predict_bounded.
  - intros cueBall cue.
    destruct (calculatePrediction_cases p cueBall cue tb) as [[-> _]|[-> _]].
    + unfold trailBounded, lastEntry, consecutive; simpl. repeat split.
      * lia.
      * intros s Hs; discriminate.
      * intros s1 s2 [i [H1 _]]. destruct i; discriminate.
    + apply predict_bounded.
Qed.

(** C3.  With a friction factor and a restitution between 0 and 1 (the
    constructor's 0.985 and 0.75), the speed recorded in a sample is never
    larger than the speed in the sample before it: it is the previous speed
    times the friction factor when no bounce lies between the two samples,
    and times friction and restitution when one does. *)
Theorem prediction_speed_decays (p : BallTrailPrediction.t) (tb : Table)
    (startPos velocity : Vector) :
  0 <= frictionCoefficient p <= 1 ->
  0 <= cushionRestitution p <= 1 ->
  speedDecays p (predictionTrail (predict p tb startPos velocity)).
Proof.
  intros Hf Hr s1 s2 [i [H1 H2]].
  destruct (predict_trail p tb startPos velocity) as [Et _].
  pose proof (predictionLoop_trail p tb (maxPredictionSteps p) velocity startPos 0) as H.
  cbv zeta in H. rewrite <- Et in H.
  destruct H as (_ & _ & _ & Hadj & Hhead & _).
  assert (Hpos : forall j s, nth_error (predictionTrail (predict p tb startPos velocity)) j
                             = Some s -> 0 <= speed s).
  { intros j. induction j as [|j IHj]; intros s Hs.
    - destruct (predictionTrail (predict p tb startPos velocity)) as [|s0 l]; [discriminate|].
      injection Hs as <-. pose proof (mag_nonneg velocity).
      pose proof (Rabs_pos (frictionCoefficient p)).
      pose proof (Rabs_pos (cushionRestitution p)).
      destruct Hhead as [[_ ->]|[_ ->]]; repeat apply Rmult_le_pos; assumption.
    - destruct (nth_error (predictionTrail (predict p tb startPos velocity)) j) as [s0|] eqn:Hj.
      + pose proof (IHj s0 eq_refl) as H0.
        pose proof (Rabs_pos (frictionCoefficient p)).
        pose proof (Rabs_pos (cushionRestitution p)).
        destruct (adjacent_nth _ _ Hadj j s0 s Hj Hs) as [[_ ->]|[_ ->]];
          repeat apply Rmult_le_pos; assumption.
      + exfalso. apply nth_error_None in Hj.
        assert (nth_error (predictionTrail (predict p tb startPos velocity)) (S j) <> None)
          by congruence.
        apply nth_error_Some in H. lia. }
  pose proof (Hpos i s1 H1) as Hs1.
  pose proof (adjacent_nth _ _ Hadj i s1 s2 H1 H2) as Hstep. unfold follows in Hstep.
  rewrite (Rabs_pos_eq (frictionCoefficient p)) in Hstep by lra.
  rewrite (Rabs_pos_eq (cushionRestitution p)) in Hstep by lra.
  destruct Hstep as [[Hb ->]|[Hb ->]].
  - split; [|split; [intros _; reflexivity | intros Hne; congruence]].
    split; [apply Rmult_le_pos; lra|].
    rewrite <- (Rmult_1_l (speed s1)) at 2. apply Rmult_le_compat_r; lra.
  - split; [|split; [intros He; rewrite He in Hb; lia | intros _; reflexivity]].
    assert (0 <= frictionCoefficient p * cushionRestitution p <= 1).
    { split; [apply Rmult_le_pos; lra|].
      rewrite <- (Rmult_1_l 1). apply Rmult_le_compat; lra. }
    split; [apply Rmult_le_pos; lra|].
    rewrite <- (Rmult_1_l (speed s1)) at 2. apply Rmult_le_compat_r; lra.
Qed.

Lemma prediction_speed_decays_witness :
  speedDecays BallTrailPrediction.constructor
    (predictionTrail (predict BallTrailPrediction.constructor gameTable
                        (createVector 600 300) (createVector 6 0))).
Proof.
  apply prediction_speed_decays; simpl; lra.
Defined.

Lemma mag_zero (v : Vector) : Vec.mag v = 0 -> vx v = 0 /\ vy v = 0.
Proof.
  unfold Vec.mag; intros H.
  apply sqrt_eq_0 in H; [|nra].
  split; nra.
Qed.

(** A ball that does not move crosses no cushion. *)
Lemma iteration_at_rest (p : BallTrailPrediction.t) tb v pos b :
  vx v = 0 -> vy v = 0 ->
  exists v' pos',
    iteration p tb v pos b = (v', pos', b)
    /\ Vec.mag v' = 0 /\ vx pos' = vx pos /\ vy pos' = vy pos.
Proof.
  intros Hx Hy. unfold iteration.
  set (v1 := Vec.mult v (frictionCoefficient p)).
  set (nxt := Vec.add pos (Vec.mult v1 (predictionStepSize p))).
  assert (Ex : vx nxt = vx pos) by (unfold nxt, v1; simpl; rewrite Hx; ring).
  assert (Ey : vy nxt = vy pos) by (unfold nxt, v1; simpl; rewrite Hy; ring).
  pose proof (checkCushionCollision_cases p tb pos nxt) as H; cbv zeta in H.
  unfold crossesLeft, crossesRight, crossesTop, crossesBottom in H.
  rewrite Ex, Ey in H.
  destruct H as [[? E]|[[? [? E]]|[[? [? [? E]]]|[[? [? [? [? E]]]]|[? [? [? [? E]]]]]]]];
    try lra.
  rewrite E; simpl. exists v1, nxt. repeat split; auto.
  unfold v1; rewrite mag_mult.
  unfold Vec.mag; rewrite Hx, Hy.
  replace (0 * 0 + 0 * 0) with 0 by ring. rewrite sqrt_0; ring.
Qed.

(** C4.  When the launch velocity has magnitude zero and the speed
    threshold is positive (the constructor's 0.3), the prediction for any
    start position and table has at most one sample, that sample is the
    start position with no bounce and speed 0, and the bounce count is 0. *)
Theorem prediction_zero_velocity (p : BallTrailPrediction.t) (tb : Table)
    (startPos velocity : Vector) :
  0 < speedThreshold p ->
  Vec.mag velocity = 0 ->
  let r := predict p tb startPos velocity in
  (length (predictionTrail r) <= 1)%nat
  /\ predictionBounces r = 0%nat
  /\ Forall (fun s => s = mkSample (vx startPos) (vy startPos) 0 0) (predictionTrail r).
Proof.
  intros Hthr Hmag r; subst r.
  destruct (mag_zero _ Hmag) as [Hx Hy].
  destruct (predict_trail p tb startPos velocity) as [-> ->].
  destruct (maxPredictionSteps p) as [|n].
  { simpl. repeat split; auto. }
  rewrite predictionLoop_S.
  destruct (0 <? maxBounces p)%nat.
  2:{ simpl. repeat split; auto. }
  destruct (iteration_at_rest p tb velocity startPos 0 Hx Hy)
    as (v' & pos' & -> & Hv' & Hpx & Hpy).
  cbv zeta. rewrite Hv'.
  assert (Hlt : Rltb 0 (speedThreshold p) = true) by (apply Rltb_true; exact Hthr).
  rewrite Hlt. simpl. rewrite Hpx, Hpy. repeat split; auto.
Qed.

Lemma prediction_zero_velocity_witness :
  (length (predictionTrail (predict BallTrailPrediction.constructor gameTable
                              (createVector 600 300) (createVector 0 0))) <= 1)%nat
  /\ predictionBounces (predict BallTrailPrediction.constructor gameTable
                          (createVector 600 300) (createVector 0 0)) = 0%nat
  /\ Forall (fun s => s = mkSample 600 300 0 0)
       (predictionTrail (predict BallTrailPrediction.constructor gameTable
                           (createVector 600 300) (createVector 0 0))).
Proof.
  apply (prediction_zero_velocity BallTrailPrediction.constructor gameTable
           (createVector 600 300) (createVector 0 0)).
  - simpl; lra.
  - unfold Vec.mag; simpl. replace (0 * 0 + 0 * 0) with 0 by ring. apply sqrt_0.
Defined.

(** C9.  When the prediction is disabled, or the cue ball has no physics
    body, or the cue is not visible, [calculatePrediction] leaves an empty
    trail, whatever the trail held before the call. *)
Theorem calculatePrediction_guard_clears_trail (p : BallTrailPrediction.t)
    (cueBall : Ball) (cue : Cue) (tb : Table) :
  enabled p = false \/ body cueBall = None \/ Cue_isVisible cue = false ->
  predictionTrail (calculatePrediction p cueBall cue tb) = [].
Proof.
  intros H.
  destruct (calculatePrediction_cases p cueBall cue tb) as [[-> _]|[_ (He & Hb & Hv)]].
  - reflexivity.
  - destruct H as [H|[H|H]]; congruence.
Qed.

Lemma calculatePrediction_guard_clears_trail_witness :
  predictionTrail
    (calculatePrediction
       (withResult BallTrailPrediction.constructor [mkSample 600 300 1 4] 1)
       (mkBall 600 300 None) (mkCue 0 true 0 false) gameTable) = [].
Proof.
  apply calculatePrediction_guard_clears_trail.
  right; left; reflexivity.
Defined.

Import DynamicObstacles.

(** ** Obstacle lifecycle *)

(** A pass over the container treats each obstacle on its own. *)
Lemma updateObstaclesList_survivors (d : DynamicObstacles.t) (obs : list Obstacle)
    (bm : BallManager) :
  fst (updateObstaclesList d obs bm) = flat_map (survivors d) obs.
Proof.
  induction obs as [|o rest IH]; [reflexivity|].
  simpl. destruct (updateObstaclesList d rest bm) as [rest' bm'].
  simpl in IH. subst rest'.
  unfold survivors, tickObstacle.
  destruct (expired (ageObstacle d o)); reflexivity.
Qed.

(** What one pass does to the fields of the obstacle it visits. *)
Lemma ageObstacle_fields (d : DynamicObstacles.t) (o : Obstacle) :
  age (ageObstacle d o) = S (age o)
  /\ maxAge (ageObstacle d o) = maxAge o
  /\ o_x (ageObstacle d o) = o_x o
  /\ o_y (ageObstacle d o) = o_y o
  /\ phase (ageObstacle d o) =
     if (S (age o) <=? warningTime d)%nat then warning
     else if (S (age o) <=? warningTime d + activeTime d)%nat then active
     else if (S (age o) <=? maxAge o)%nat then fading
     else phase o.
Proof.
  unfold ageObstacle, updateObstaclePhase. cbn -[Nat.leb Nat.add].
  destruct (S (age o) <=? warningTime d)%nat; [cbn; repeat split|].
  destruct (S (age o) <=? warningTime d + activeTime d)%nat;
    [destruct (phase o); cbn; repeat split|].
  destruct (S (age o) <=? maxAge o)%nat;
    [destruct (phase o); cbn; repeat split|].
  cbn; repeat split.
Qed.

(** The state of an obstacle [n] passes after its spawn. *)
Lemma afterTicks_spawned (d : DynamicObstacles.t) (pos : Vector) (n : nat) :
  let M := (warningTime d + activeTime d + fadeTime d)%nat in
  match afterTicks d n (Some (newObstacle d pos)) with
  | Some o =>
    (n <= M)%nat /\ age o = n /\ maxAge o = M /\ phase o = phaseAt d n
    /\ o_x o = vx pos /\ o_y o = vy pos
  | None => (M < n)%nat
  end.
Proof.
  intros M. induction n as [|n IH].
  - simpl. unfold phaseAt. simpl. repeat split; auto. subst M; lia.
  - cbn [afterTicks]. destruct (afterTicks d n (Some (newObstacle d pos))) as [o|].
    + destruct IH as (Hn & Ha & Hm & Hp & Hx & Hy).
      unfold tickObstacle, expired.
      destruct (ageObstacle_fields d o) as (Fa & Fm & Fx & Fy & Fp).
      rewrite Fa, Fm, Ha, Hm.
      destruct (M <? S n)%nat eqn:E; [apply Nat.ltb_lt in E; exact E|].
      apply Nat.ltb_ge in E.
      rewrite Fa, Fm, Fx, Fy, Fp, Ha, Hm. unfold phaseAt.
      apply Nat.leb_le in E. rewrite E. apply Nat.leb_le in E.
      repeat split; auto.
    + cbn. lia.
Qed.

Lemma lifeTrace_thresholds (d : DynamicObstacles.t) (pos : Vector) (n : nat) :
  lifeTrace d pos n =
  if (n <=? warningTime d)%nat then inPhase warning
  else if (n <=? warningTime d + activeTime d)%nat then inPhase active
  else if (n <=? warningTime d + activeTime d + fadeTime d)%nat then inPhase fading
  else removed.
Proof.
  unfold lifeTrace.
  pose proof (afterTicks_spawned d pos n) as H; cbv zeta in H.
  destruct (afterTicks d n (Some (newObstacle d pos))) as [o|]; simpl.
  - destruct H as (Hn & _ & _ & Hp & _). rewrite Hp. unfold phaseAt.
    destruct (n <=? warningTime d)%nat; [reflexivity|].
    destruct (n <=? warningTime d + activeTime d)%nat; [reflexivity|].
    apply Nat.leb_le in Hn. rewrite Hn. reflexivity.
  - destruct (n <=? warningTime d)%nat eqn:E1; [apply Nat.leb_le in E1; lia|].
    destruct (n <=? warningTime d + activeTime d)%nat eqn:E2; [apply Nat.leb_le in E2; lia|].
    destruct (n <=? warningTime d + activeTime d + fadeTime d)%nat eqn:E3;
      [apply Nat.leb_le in E3; lia | reflexivity].
Qed.

(** C5.  An obstacle is spawned in the warning phase; [n] passes of
    [updateObstacles] later it is in the warning phase up to age
    [warningTime], active up to [warningTime + activeTime], fading up to
    [maxAge], and out of the container after that.  With an active and a
    fading time of at least one frame (300 and 60 in the constructor), what
    is observed never moves back, never moves by more than one stage per
    pass, and so visits warning, active, fading, removed in this order.
    Every obstacle of the container is aged this way by a pass. *)
Theorem obstacle_lifecycle_linear (d : DynamicObstacles.t) (pos : Vector) :
  (0 < activeTime d)%nat ->
  (0 < fadeTime d)%nat ->
  lifeTrace d pos 0 = inPhase warning
  /\ (forall n,
        lifeTrace d pos n =
        if (n <=? warningTime d)%nat then inPhase warning
        else if (n <=? warningTime d + activeTime d)%nat then inPhase active
        else if (n <=? maxAge (newObstacle d pos))%nat then inPhase fading
        else removed)
  /\ (forall n m, (n <= m)%nat -> (rank (lifeTrace d pos n) <= rank (lifeTrace d pos m))%nat)
  /\ (forall n, (rank (lifeTrace d pos (S n)) <= S (rank (lifeTrace d pos n)))%nat)
  /\ (forall obs bm, fst (updateObstaclesList d obs bm) = flat_map (survivors d) obs).
Proof.
  intros HA HF.
  split; [reflexivity|].
  split; [intros n; apply lifeTrace_thresholds|].
  split; [|split].
  - intros n m Hnm. rewrite !lifeTrace_thresholds.
    repeat match goal with
           | |- context [(?a <=? ?b)%nat] =>
             let E := fresh "E" in
             destruct (a <=? b)%nat eqn:E;
               [apply Nat.leb_le in E | apply Nat.leb_gt in E]
           end; simpl; lia.
  - intros n. rewrite !lifeTrace_thresholds.
    repeat match goal with
           | |- context [(?a <=? ?b)%nat] =>
             let E := fresh "E" in
             destruct (a <=? b)%nat eqn:E;
               [apply Nat.leb_le in E | apply Nat.leb_gt in E]
           end; simpl; lia.
  - intros; apply updateObstaclesList_survivors.
Qed.

Lemma obstacle_lifecycle_linear_witness :
  lifeTrace DynamicObstacles.constructor (createVector 600 300) 0 = inPhase warning
  /\ (forall n,
        lifeTrace DynamicObstacles.constructor (createVector 600 300) n =
        if (n <=? 120)%nat then inPhase warning
        else if (n <=? 420)%nat then inPhase active
        else if (n <=? 480)%nat then inPhase fading
        else removed)
  /\ (forall n m, (n <= m)%nat ->
        (rank (lifeTrace DynamicObstacles.constructor (createVector 600 300) n)
         <= rank (lifeTrace DynamicObstacles.constructor (createVector 600 300) m))%nat)
  /\ (forall n,
        (rank (lifeTrace DynamicObstacles.constructor (createVector 600 300) (S n))
         <= S (rank (lifeTrace DynamicObstacles.constructor (createVector 600 300) n)))%nat)
  /\ (forall obs bm,
        fst (updateObstaclesList DynamicObstacles.constructor obs bm)
        = flat_map (survivors DynamicObstacles.constructor) obs).
Proof.
  apply (obstacle_lifecycle_linear DynamicObstacles.constructor (createVector 600 300));
    simpl; lia.
Defined.

(** ** Ball interactions *)

Lemma handleBallInteractions_each (d : DynamicObstacles.t) (o : Obstacle) (bm : BallManager) :
  ballsOf (handleBallInteractions d o bm) = List.map (interactWithBall d o) (ballsOf bm).
Proof.
  unfold ballsOf, handleBallInteractions, getCueBall, getRedBalls, getColoredBalls; simpl.
  rewrite List.map_app. reflexivity.
Qed.

(** The gradual push changes the velocity only. *)
Lemma pushBallAway_position (d : DynamicObstacles.t) ball (o : Obstacle) distance bd :
  body ball = Some bd ->
  exists v, body (pushBallAway d ball o distance) = Some (mkBody (position bd) v)
            /\ b_x (pushBallAway d ball o distance) = b_x ball
            /\ b_y (pushBallAway d ball o distance) = b_y ball.
Proof.
  intros Hb. unfold pushBallAway. rewrite Hb.
  match goal with |- context [Rgtb ?a ?b] => destruct (Rgtb a b) end;
    unfold setVelocity; rewrite Hb; simpl; eexists; repeat split.
Qed.

Lemma dist_polar (x y a r : R) :
  0 <= r -> P5.dist x y (x + cos a * r) (y + sin a * r) = r.
Proof.
  intros Hr. unfold P5.dist.
  replace ((x + cos a * r - x) * (x + cos a * r - x)
           + (y + sin a * r - y) * (y + sin a * r - y))
    with (r * r * (Rsqr (sin a) + Rsqr (cos a))) by (unfold Rsqr; ring).
  rewrite sin2_cos2, Rmult_1_r. apply sqrt_square; exact Hr.
Qed.

(** The teleport puts the ball on the circle of radius [escapeDistance]
    around the obstacle, at the angle of the ball as seen from it. *)
Lemma emergencyPushBall_result ball (o : Obstacle) bd :
  body ball = Some bd ->
  let a := P5.atan2 (vy (position bd) - o_y o) (vx (position bd) - o_x o) in
  emergencyPushBall ball o =
  mkBall (o_x o + cos a * escapeDistance) (o_y o + sin a * escapeDistance)
         (Some (mkBody (createVector (o_x o + cos a * escapeDistance)
                                     (o_y o + sin a * escapeDistance))
                       (createVector (cos a * 3) (sin a * 3)))).
Proof.
  intros Hb a. unfold emergencyPushBall. rewrite Hb.
  unfold setVelocity, setPosition. rewrite Hb. reflexivity.
Qed.

(** The three outcomes of the pass for one ball with a body. *)
Lemma interactWithBall_cases (d : DynamicObstacles.t) (o : Obstacle) ball bd :
  body ball = Some bd ->
  let distance := distanceTo o ball in
  let a := P5.atan2 (vy (position bd) - o_y o) (vx (position bd) - o_x o) in
  (0 < distance < emergencyRadius d ->
   getPosition (interactWithBall d o ball)
   = createVector (o_x o + cos a * escapeDistance) (o_y o + sin a * escapeDistance)
   /\ getVelocity (interactWithBall d o ball) = createVector (cos a * 3) (sin a * 3))
  /\ (distance <= 0 \/ emergencyRadius d <= distance ->
      getPosition (interactWithBall d o ball) = getPosition ball)
  /\ (~ (5 < distance < interactionRadius d) ->
      ~ (0 < distance < emergencyRadius d) ->
      interactWithBall d o ball = ball).
Proof.
  intros Hb distance a.
  assert (Hd : distance
               = P5.dist (o_x o) (o_y o) (vx (position bd)) (vy (position bd))).
  { unfold distance, distanceTo, getPosition. rewrite Hb. reflexivity. }
  unfold interactWithBall. rewrite Hb. cbv zeta. rewrite <- Hd.
  assert (Hpush : exists bd1,
             body (if Rltb distance (interactionRadius d) && Rgtb distance 5
                   then pushBallAway d ball o distance else ball) = Some bd1
             /\ position bd1 = position bd).
  { destruct (Rltb distance (interactionRadius d) && Rgtb distance 5).
    - destruct (pushBallAway_position d ball o distance bd Hb) as (v & E & _).
      eexists; split; [exact E | reflexivity].
    - exists bd; split; [exact Hb | reflexivity]. }
  destruct Hpush as (bd1 & Hb1 & Hp1).
  split; [|split].
  - intros [H0 H1].
    assert (E : Rltb distance (emergencyRadius d) && Rgtb distance 0 = true).
    { apply andb_true_iff; split; [apply Rltb_true | apply Rgtb_true]; lra. }
    rewrite E. rewrite (emergencyPushBall_result _ o bd1 Hb1). rewrite Hp1.
    unfold getPosition, getVelocity; simpl. split; reflexivity.
  - intros H.
    assert (E : Rltb distance (emergencyRadius d) && Rgtb distance 0 = false).
    { apply andb_false_iff. destruct H as [H|H].
      - right. unfold Rgtb. apply Rltb_false. exact H.
      - left. apply Rltb_false. exact H. }
    rewrite E. unfold getPosition. rewrite Hb1, Hb. exact Hp1.
  - intros Hn1 Hn2.
    assert (E1 : Rltb distance (interactionRadius d) && Rgtb distance 5 = false).
    { apply not_true_is_false. intros X. apply andb_true_iff in X.
      destruct X as [X1 X2]. apply Rltb_true in X1. apply Rgtb_true in X2. lra. }
    assert (E2 : Rltb distance (emergencyRadius d) && Rgtb distance 0 = false).
    { apply not_true_is_false. intros X. apply andb_true_iff in X.
      destruct X as [X1 X2]. apply Rltb_true in X1. apply Rgtb_true in X2. lra. }
    rewrite E1, E2. reflexivity.
Qed.

(** *** The angle returned by [atan2] *)

Lemma sqrt_one_plus_ratio (x y k : R) :
  0 < k -> k * k = x * x ->
  sqrt (1 + (y / x)²) = sqrt (x * x + y * y) / k.
Proof.
  intros Hk Hkx.
  assert (Hx : x <> 0) by (intros ->; nra).
  assert (Hsum : 0 <= x * x + y * y) by nra.
  apply sqrt_lem_1.
  - unfold Rsqr; nra.
  - apply Rmult_le_pos; [apply sqrt_pos | left; apply Rinv_0_lt_compat; exact Hk].
  - replace (sqrt (x * x + y * y) / k * (sqrt (x * x + y * y) / k))
      with (sqrt (x * x + y * y) * sqrt (x * x + y * y) / (k * k))
      by (field; lra).
    rewrite sqrt_sqrt by exact Hsum. rewrite Hkx. unfold Rsqr. field. exact Hx.
Qed.

(** Away from the origin, [atan2 y x] is the direction of the point (x, y). *)
Lemma atan2_direction (x y : R) :
  0 < sqrt (x * x + y * y) ->
  cos (P5.atan2 y x) * sqrt (x * x + y * y) = x
  /\ sin (P5.atan2 y x) * sqrt (x * x + y * y) = y.
Proof.
  intros Hr. set (r := sqrt (x * x + y * y)) in *.
  unfold P5.atan2.
  destruct (Rltb 0 x) eqn:Hx; [apply Rltb_true in Hx | apply Rltb_false in Hx].
  - rewrite cos_atan, sin_atan.
    rewrite (sqrt_one_plus_ratio x y x) by lra. fold r.
    split; field; lra.
  - destruct (Rltb x 0) eqn:Hx'; [apply Rltb_true in Hx' | apply Rltb_false in Hx'].
    + assert (Hs : sqrt (1 + (y / x)²) = r / (- x))
        by (unfold r; apply sqrt_one_plus_ratio; lra).
      destruct (Rleb 0 y).
      * rewrite neg_cos, neg_sin, cos_atan, sin_atan, Hs. split; field; lra.
      * rewrite cos_minus, sin_minus, cos_PI, sin_PI, cos_atan, sin_atan, Hs.
        split; field; lra.
    + assert (x = 0) by lra. subst x.
      assert (Hry : r = Rabs y).
      { unfold r. replace (0 * 0 + y * y) with (Rsqr y) by (unfold Rsqr; ring).
        apply sqrt_Rsqr_abs. }
      destruct (Rltb 0 y) eqn:Hy; [apply Rltb_true in Hy | apply Rltb_false in Hy].
      * rewrite cos_PI2, sin_PI2, Hry, Rabs_pos_eq by lra. split; ring.
      * destruct (Rltb y 0) eqn:Hy'; [apply Rltb_true in Hy' | apply Rltb_false in Hy'].
        -- rewrite cos_neg, sin_neg, cos_PI2, sin_PI2, Hry, Rabs_left by lra. split; ring.
        -- assert (y = 0) by lra. subst y. rewrite Rabs_R0 in Hry. lra.
Qed.

Lemma distanceTo_lone (x y : R) :
  distanceTo activeObstacleAtCentre (cueBall (loneCueBall x y))
  = sqrt ((x - 600) * (x - 600) + (y - 300) * (y - 300)).
Proof. reflexivity. Qed.

Lemma handleBallInteractions_nth (d : DynamicObstacles.t) (o : Obstacle) bm i ball :
  nth_error (ballsOf bm) i = Some ball ->
  nth_error (ballsOf (handleBallInteractions d o bm)) i = Some (interactWithBall d o ball).
Proof.
  intros H. rewrite handleBallInteractions_each.
  rewrite nth_error_map, H. reflexivity.
Qed.

(** C6, as the code has it.  A ball with a body whose distance to the
    obstacle is strictly between 0 and the emergency radius leaves the pass
    of [handleBallInteractions] at distance [escapeDistance] (40) from the
    obstacle.  A ball at the emergency radius or beyond keeps its position:
    the test is [distance < emergencyRadius]. *)
Theorem emergency_escape_distance (d : DynamicObstacles.t) (o : Obstacle)
    (bm : BallManager) (i : nat) (ball : Ball) (bd : Body) :
  nth_error (ballsOf bm) i = Some ball ->
  body ball = Some bd ->
  exists ball',
    nth_error (ballsOf (handleBallInteractions d o bm)) i = Some ball'
    /\ (0 < distanceTo o ball < emergencyRadius d ->
        distanceTo o ball' = escapeDistance)
    /\ (emergencyRadius d <= distanceTo o ball ->
        getPosition ball' = getPosition ball
        /\ distanceTo o ball' = distanceTo o ball).
Proof.
  intros Hi Hb. exists (interactWithBall d o ball).
  split; [apply handleBallInteractions_nth; exact Hi|].
  destruct (interactWithBall_cases d o ball bd Hb) as (Hnear & Hfar & _).
  split.
  - intros H. destruct (Hnear H) as [Hp _].
    unfold distanceTo. rewrite Hp. simpl.
    apply dist_polar. unfold escapeDistance; lra.
  - intros H. assert (Hp := Hfar (or_intror H)).
    split; [exact Hp|]. unfold distanceTo. rewrite Hp. reflexivity.
Qed.

Lemma emergency_escape_distance_witness :
  exists ball',
    nth_error (ballsOf (handleBallInteractions DynamicObstacles.constructor
                          activeObstacleAtCentre (loneCueBall 610 300))) 0
    = Some ball'
    /\ distanceTo activeObstacleAtCentre ball' = escapeDistance.
Proof.
  destruct (emergency_escape_distance DynamicObstacles.constructor activeObstacleAtCentre
              (loneCueBall 610 300) 0 (cueBall (loneCueBall 610 300))
              (mkBody (createVector 610 300) (createVector 0 0)) eq_refl eq_refl)
    as (ball' & Hn & Hnear & _).
  exists ball'. split; [exact Hn|]. apply Hnear.
  rewrite distanceTo_lone.
  replace ((610 - 600) * (610 - 600) + (300 - 300) * (300 - 300)) with (10 * 10) by ring.
  rewrite sqrt_square by lra. simpl; lra.
Defined.

(** C6, as claimed, fails at the emergency radius itself: a cue ball 25
    units from the centre of an active obstacle is still 25 units from it
    after [handleBallInteractions], 15 short of the escape distance. *)
Lemma emergency_radius_boundary_counterexample :
  phase activeObstacleAtCentre = active
  /\ distanceTo activeObstacleAtCentre (cueBall (loneCueBall 625 300))
     = emergencyRadius DynamicObstacles.constructor
  /\ distanceTo activeObstacleAtCentre
       (cueBall (handleBallInteractions DynamicObstacles.constructor
                   activeObstacleAtCentre (loneCueBall 625 300))) = 25
  /\ Rabs (distanceTo activeObstacleAtCentre
             (cueBall (handleBallInteractions DynamicObstacles.constructor
                         activeObstacleAtCentre (loneCueBall 625 300)))
           - escapeDistance) = 15.
Proof.
  set (d := DynamicObstacles.constructor). set (bm := loneCueBall 625 300).
  assert (Hd : distanceTo activeObstacleAtCentre (cueBall bm) = 25).
  { unfold bm. rewrite distanceTo_lone.
    replace ((625 - 600) * (625 - 600) + (300 - 300) * (300 - 300)) with (25 * 25) by ring.
    apply sqrt_square; lra. }
  assert (Hafter : distanceTo activeObstacleAtCentre
                     (cueBall (handleBallInteractions d activeObstacleAtCentre bm)) = 25).
  { destruct (interactWithBall_cases d activeObstacleAtCentre (cueBall bm)
                (mkBody (createVector 625 300) (createVector 0 0)) eq_refl)
      as (_ & Hfar & _).
    change (cueBall (handleBallInteractions d activeObstacleAtCentre bm))
      with (interactWithBall d activeObstacleAtCentre (cueBall bm)).
    unfold distanceTo at 1. rewrite Hfar; [exact Hd|].
    right. rewrite Hd. simpl; lra. }
  split; [reflexivity|]. split; [exact Hd|]. split; [exact Hafter|].
  rewrite Hafter. unfold escapeDistance.
  rewrite Rabs_left by lra. lra.
Qed.

(** C7, as the code has it.  A ball with a body at distance exactly 0 from
    the obstacle is left as it is by the pass: both tests need a positive
    distance.  At a positive distance below the emergency radius the ball is
    moved along the direction from the obstacle to the ball, to
    [escapeDistance] from the obstacle, and leaves with speed 3 in that
    direction; no case of the pass divides by the distance. *)
Theorem degenerate_distance_handling (d : DynamicObstacles.t) (o : Obstacle)
    (bm : BallManager) (i : nat) (ball : Ball) (bd : Body) :
  nth_error (ballsOf bm) i = Some ball ->
  body ball = Some bd ->
  exists ball',
    nth_error (ballsOf (handleBallInteractions d o bm)) i = Some ball'
    /\ (distanceTo o ball = 0 -> ball' = ball)
    /\ (0 < distanceTo o ball < emergencyRadius d ->
        let dx := vx (position bd) - o_x o in
        let dy := vy (position bd) - o_y o in
        vx (getPosition ball') = o_x o + escapeDistance / distanceTo o ball * dx
        /\ vy (getPosition ball') = o_y o + escapeDistance / distanceTo o ball * dy
        /\ vx (getVelocity ball') = 3 / distanceTo o ball * dx
        /\ vy (getVelocity ball') = 3 / distanceTo o ball * dy
        /\ distanceTo o ball' = escapeDistance).
Proof.
  intros Hi Hb. exists (interactWithBall d o ball).
  split; [apply handleBallInteractions_nth; exact Hi|].
  destruct (interactWithBall_cases d o ball bd Hb) as (Hnear & _ & Hsame).
  split.
  - intros H0. apply Hsame; rewrite H0; lra.
  - intros H dx dy. destruct (Hnear H) as [Hp Hv].
    assert (Hd : distanceTo o ball = sqrt (dx * dx + dy * dy)).
    { unfold distanceTo, getPosition, P5.dist. rewrite Hb. reflexivity. }
    assert (Hpos : 0 < sqrt (dx * dx + dy * dy)) by (rewrite <- Hd; lra).
    destruct (atan2_direction dx dy Hpos) as [Hc Hs].
    fold dx dy in Hp, Hv. rewrite <- Hd in Hc, Hs.
    rewrite Hp, Hv. simpl.
    set (a := P5.atan2 dy dx) in *. set (r := distanceTo o ball) in *.
    assert (Hr : r <> 0) by lra.
    repeat split.
    + rewrite <- Hc. field. exact Hr.
    + rewrite <- Hs. field. exact Hr.
    + rewrite <- Hc. field. exact Hr.
    + rewrite <- Hs. field. exact Hr.
    + unfold distanceTo. rewrite Hp. simpl.
      apply dist_polar. unfold escapeDistance; lra.
Qed.

Lemma degenerate_distance_handling_witness :
  exists ball',
    nth_error (ballsOf (handleBallInteractions DynamicObstacles.constructor
                          activeObstacleAtCentre (loneCueBall 603 304))) 0
    = Some ball'
    /\ vx (getPosition ball') = 624 /\ vy (getPosition ball') = 332.
Proof.
  destruct (degenerate_distance_handling DynamicObstacles.constructor activeObstacleAtCentre
              (loneCueBall 603 304) 0 (cueBall (loneCueBall 603 304))
              (mkBody (createVector 603 304) (createVector 0 0)) eq_refl eq_refl)
    as (ball' & Hn & _ & Hnear).
  assert (Hd : distanceTo activeObstacleAtCentre (cueBall (loneCueBall 603 304)) = 5).
  { rewrite distanceTo_lone.
    replace ((603 - 600) * (603 - 600) + (304 - 300) * (304 - 300)) with (5 * 5) by ring.
    apply sqrt_square; lra. }
  rewrite Hd in Hnear. cbv zeta in Hnear. simpl in Hnear.
  destruct Hnear as (Hx & Hy & _); [lra|].
  exists ball'. split; [exact Hn|]. unfold escapeDistance in Hx, Hy. split; lra.
Defined.

(** C7, as claimed, fails at distance exactly 0: a cue ball on the centre
    of an active obstacle is not teleported; the pass returns the balls
    unchanged and the ball stays at distance 0. *)
Lemma zero_distance_counterexample :
  phase activeObstacleAtCentre = active
  /\ distanceTo activeObstacleAtCentre (cueBall (loneCueBall 600 300)) = 0
  /\ handleBallInteractions DynamicObstacles.constructor activeObstacleAtCentre
       (loneCueBall 600 300) = loneCueBall 600 300
  /\ distanceTo activeObstacleAtCentre
       (cueBall (handleBallInteractions DynamicObstacles.constructor
                   activeObstacleAtCentre (loneCueBall 600 300))) <> escapeDistance.
Proof.
  set (d := DynamicObstacles.constructor). set (bm := loneCueBall 600 300).
  assert (Hd : distanceTo activeObstacleAtCentre (cueBall bm) = 0).
  { unfold bm. rewrite distanceTo_lone.
    replace ((600 - 600) * (600 - 600) + (300 - 300) * (300 - 300)) with 0 by ring.
    apply sqrt_0. }
  assert (Hsame : interactWithBall d activeObstacleAtCentre (cueBall bm) = cueBall bm).
  { destruct (interactWithBall_cases d activeObstacleAtCentre (cueBall bm)
                (mkBody (createVector 600 300) (createVector 0 0)) eq_refl)
      as (_ & _ & Hsame).
    apply Hsame; rewrite Hd; lra. }
  assert (Hbm : handleBallInteractions d activeObstacleAtCentre bm = bm).
  { unfold handleBallInteractions. rewrite Hsame. reflexivity. }
  split; [reflexivity|]. split; [exact Hd|]. split; [exact Hbm|].
  rewrite Hbm, Hd. unfold escapeDistance; lra.
Qed.

(** ** Spawn search *)

Lemma findSafeLoop_exhausted (d : DynamicObstacles.t) tb bm rnd n :
  forall k, allRejected d tb bm rnd k n ->
            findSafeLoop d tb bm rnd n k = (None, (k + 2 * n)%nat).
Proof.
  induction n as [|n IH]; intros k Hall.
  - simpl. f_equal. lia.
  - cbn [findSafeLoop].
    pose proof (Hall 0%nat ltac:(lia)) as H0.
    replace (k + 2 * 0)%nat with k in H0 by lia.
    destruct (candidate tb rnd k) as [x y]. simpl in H0. rewrite H0.
    rewrite IH.
    + f_equal. lia.
    + intros i Hi. specialize (Hall (S i) ltac:(lia)).
      replace (S (S k) + 2 * i)%nat with (k + 2 * S i)%nat by lia. exact Hall.
Qed.

Lemma rejected_withSpawnTimer (d : DynamicObstacles.t) tb bm n x y :
  rejected (withSpawnTimer d n) tb bm x y = rejected d tb bm x y.
Proof. reflexivity. Qed.

(** C8.  When each of the 50 candidates drawn is rejected, the search
    stops after those 50 attempts (100 draws) with no position;
    [spawnRandomObstacle] then leaves the obstacle system as it was, and the
    call of [update] that tried the spawn does what it would do with no spawn
    due, except that the spawn timer restarts from 0, so that the next
    attempt waits for the timer to reach [spawnRate] again. *)
Theorem spawn_search_exhaustion (d : DynamicObstacles.t) (tb : Table) (bm : BallManager)
    (rnd : Rand) (k : nat) :
  allRejected d tb bm rnd k maxAttempts ->
  maxAttempts = 50%nat
  /\ findSafeSpawnPosition d tb bm rnd k = (None, (k + 100)%nat)
  /\ spawnRandomObstacle d tb bm rnd k = (d, (k + 100)%nat)
  /\ (enabled d = true ->
      spawnDue (withSpawnTimer d (S (spawnTimer d))) bm = true ->
      update d tb bm rnd k
      = (fst (updateObstacles (withSpawnTimer d 0) bm),
         snd (updateObstacles (withSpawnTimer d 0) bm), (k + 100)%nat)
      /\ spawnTimer (fst (fst (update d tb bm rnd k))) = 0%nat
      /\ ((0 < spawnRate d)%nat ->
          spawnDue (fst (fst (update d tb bm rnd k))) bm = false)).
Proof.
  intros Hall.
  assert (Hfind : forall d', obstacles d' = obstacles d ->
                             findSafeSpawnPosition d' tb bm rnd k = (None, (k + 100)%nat)).
  { intros d' Hobs. unfold findSafeSpawnPosition.
    rewrite (findSafeLoop_exhausted d' tb bm rnd maxAttempts k).
    - reflexivity.
    - intros i Hi. specialize (Hall i Hi).
      unfold rejected, tooCloseToBalls in *. rewrite Hobs. exact Hall. }
  split; [reflexivity|]. split; [apply Hfind; reflexivity|].
  split; [unfold spawnRandomObstacle; rewrite Hfind; reflexivity|].
  intros Hen Hdue.
  assert (Hup : update d tb bm rnd k
                = (fst (updateObstacles (withSpawnTimer d 0) bm),
                   snd (updateObstacles (withSpawnTimer d 0) bm), (k + 100)%nat)).
  { unfold update. rewrite Hen. cbn [negb]. rewrite Hdue.
    unfold spawnRandomObstacle. rewrite Hfind by reflexivity.
    change (withSpawnTimer (withSpawnTimer d (S (spawnTimer d))) 0)
      with (withSpawnTimer d 0).
    destruct (updateObstacles (withSpawnTimer d 0) bm) as [d' bm']. reflexivity. }
  split; [exact Hup|]. rewrite Hup. cbn [fst snd].
  unfold updateObstacles.
  destruct (updateObstaclesList (withSpawnTimer d 0) (obstacles (withSpawnTimer d 0)) bm)
    as [obs' bm'].
  cbn [fst]. split; [reflexivity|].
  intros Hrate. unfold spawnDue. cbn [withObstacles withSpawnTimer spawnRate spawnTimer].
  destruct (spawnRate d); [lia|reflexivity].
Qed.

Lemma random_value (lo hi r : R) : lo <= hi -> P5.random lo hi r = r * (hi - lo) + lo.
Proof.
  intros H. unfold P5.random.
  destruct (Rltb hi lo) eqn:E; [apply Rltb_true in E; lra | reflexivity].
Qed.

Lemma candidate_drawsIntoDZone (i : nat) :
  candidate gameTable drawsIntoDZone (2 * i) = (350, 300).
Proof.
  unfold candidate, drawsIntoDZone.
  rewrite Nat.even_succ, Nat.odd_mul, Nat.even_mul. cbn [Nat.even Nat.odd negb andb orb].
  rewrite !random_value by (simpl; lra).
  f_equal; simpl; lra.
Qed.

Lemma isInDZone_centre : isInDZone gameTable 350 300 = true.
Proof.
  unfold isInDZone. apply andb_true_iff; split; apply Rleb_true.
  - simpl; lra.
  - unfold P5.dist; simpl.
    match goal with |- sqrt ?e <= _ => replace e with 0 by lra end.
    rewrite sqrt_0; lra.
Qed.

Lemma spawn_search_exhaustion_witness :
  findSafeSpawnPosition DynamicObstacles.constructor gameTable (loneCueBall 600 300)
    drawsIntoDZone 0 = (None, 100%nat)
  /\ spawnRandomObstacle DynamicObstacles.constructor gameTable (loneCueBall 600 300)
       drawsIntoDZone 0 = (DynamicObstacles.constructor, 100%nat).
Proof.
  destruct (spawn_search_exhaustion DynamicObstacles.constructor gameTable
              (loneCueBall 600 300) drawsIntoDZone 0) as (_ & Hf & Hs & _).
  - intros i _. change (0 + 2 * i)%nat with (2 * i)%nat.
    rewrite candidate_drawsIntoDZone. cbn [fst snd].
    unfold rejected. rewrite isInDZone_centre. reflexivity.
  - split; [exact Hf | exact Hs].
Defined.

(** ** Where obstacles are *)

Lemma random_in_range (lo hi r : R) :
  lo <= hi -> 0 <= r < 1 -> lo <= P5.random lo hi r <= hi.
Proof.
  intros H Hr. rewrite random_value by exact H.
  assert (0 <= r * (hi - lo)) by (apply Rmult_le_pos; lra).
  assert (r * (hi - lo) <= 1 * (hi - lo)) by (apply Rmult_le_compat_r; lra).
  lra.
Qed.

Lemma candidate_inside (cw ch : R) (rnd : Rand) (k : nat) :
  (forall n, 0 <= rnd n < 1) ->
  insideBy80 (Table_new cw ch) (fst (candidate (Table_new cw ch) rnd k))
             (snd (candidate (Table_new cw ch) rnd k)).
Proof.
  intros Hr. unfold insideBy80, candidate. cbn [fst snd].
  split; apply random_in_range; try apply Hr; simpl; lra.
Qed.

Lemma findSafeLoop_inside (d : DynamicObstacles.t) (cw ch : R) bm rnd n :
  (forall m, 0 <= rnd m < 1) ->
  forall k pos k',
    findSafeLoop d (Table_new cw ch) bm rnd n k = (Some pos, k') ->
    insideBy80 (Table_new cw ch) (vx pos) (vy pos).
Proof.
  intros Hr. induction n as [|n IH]; intros k pos k' H.
  - discriminate.
  - cbn [findSafeLoop] in H.
    pose proof (candidate_inside cw ch rnd k Hr) as Hin.
    destruct (candidate (Table_new cw ch) rnd k) as [x y].
    destruct (rejected d (Table_new cw ch) bm x y).
    + apply (IH _ _ _ H).
    + injection H as <- _. exact Hin.
Qed.

Lemma spawnRandomObstacle_inside (d : DynamicObstacles.t) (cw ch : R) bm rnd k :
  (forall m, 0 <= rnd m < 1) ->
  Forall (obstacleInside (Table_new cw ch)) (obstacles d) ->
  Forall (obstacleInside (Table_new cw ch))
         (obstacles (fst (spawnRandomObstacle d (Table_new cw ch) bm rnd k))).
Proof.
  intros Hr Hall. unfold spawnRandomObstacle.
  destruct (findSafeSpawnPosition d (Table_new cw ch) bm rnd k) as [[pos|] k'] eqn:E.
  - cbn [fst withObstacles obstacles]. apply Forall_app. split; [exact Hall|].
    constructor; [|constructor].
    apply (findSafeLoop_inside d cw ch bm rnd maxAttempts Hr k pos k' E).
  - exact Hall.
Qed.

(** A pass neither moves an obstacle nor adds one. *)
Lemma updateObstaclesList_inside (d : DynamicObstacles.t) tb obs bm :
  Forall (obstacleInside tb) obs ->
  Forall (obstacleInside tb) (fst (updateObstaclesList d obs bm)).
Proof.
  intros Hall. rewrite updateObstaclesList_survivors.
  induction Hall as [|o rest Ho _ IH]; [constructor|].
  cbn [flat_map]. apply Forall_app. split; [|exact IH].
  unfold survivors, tickObstacle.
  destruct (expired (ageObstacle d o)); constructor; [|constructor].
  destruct (ageObstacle_fields d o) as (_ & _ & Fx & Fy & _).
  unfold obstacleInside. rewrite Fx, Fy. exact Ho.
Qed.

Lemma update_inside (d : DynamicObstacles.t) (cw ch : R) bm rnd k :
  (forall m, 0 <= rnd m < 1) ->
  Forall (obstacleInside (Table_new cw ch)) (obstacles d) ->
  Forall (obstacleInside (Table_new cw ch))
         (obstacles (fst (fst (update d (Table_new cw ch) bm rnd k)))).
Proof.
  intros Hr Hall. unfold update.
  destruct (enabled d); [|exact Hall]. cbn [negb].
  set (d1 := withSpawnTimer d (S (spawnTimer d))).
  assert (H1 : Forall (obstacleInside (Table_new cw ch)) (obstacles d1)) by exact Hall.
  assert (H2 : Forall (obstacleInside (Table_new cw ch))
                 (obstacles (fst (if spawnDue d1 bm
                                  then let '(d0, k0) :=
                                         spawnRandomObstacle d1 (Table_new cw ch) bm rnd k in
                                       (withSpawnTimer d0 0, k0)
                                  else (d1, k))))).
  { destruct (spawnDue d1 bm); [|exact H1].
    pose proof (spawnRandomObstacle_inside d1 cw ch bm rnd k Hr H1) as Hs.
    destruct (spawnRandomObstacle d1 (Table_new cw ch) bm rnd k) as [d0 k0]. exact Hs. }
  destruct (if spawnDue d1 bm
            then let '(d0, k0) := spawnRandomObstacle d1 (Table_new cw ch) bm rnd k in
                 (withSpawnTimer d0 0, k0)
            else (d1, k)) as [d2 k2].
  cbn [fst] in H2. unfold updateObstacles.
  pose proof (updateObstaclesList_inside d2 (Table_new cw ch) (obstacles d2) bm H2) as H3.
  destruct (updateObstaclesList d2 (obstacles d2) bm) as [obs' bm']. exact H3.
Qed.

(** C10.  With draws in [0, 1) and a table built by the [Table]
    constructor (1000 by 500, on a canvas of any size), a position returned
    by [findSafeSpawnPosition] lies at least 80 units inside each table
    boundary; and in every state the obstacle system reaches from its
    construction through calls of [update] and [toggle], every obstacle of
    the container lies at least 80 units inside each boundary. *)
Theorem obstacles_inside_table (cw ch : R) (rnd : Rand) :
  (forall n, 0 <= rnd n < 1) ->
  let tb := Table_new cw ch in
  (forall d bm k pos k',
      findSafeSpawnPosition d tb bm rnd k = (Some pos, k') ->
      left (getBoundaries tb) + 80 <= vx pos <= right (getBoundaries tb) - 80
      /\ top (getBoundaries tb) + 80 <= vy pos <= bottom (getBoundaries tb) - 80)
  /\ (forall d k, Reachable tb rnd d k -> Forall (obstacleInside tb) (obstacles d))
  /\ (forall d o, Forall (fun o' => o_x o' = o_x o /\ o_y o' = o_y o) (survivors d o)).
Proof.
  intros Hr tb. split; [|split].
  - intros d bm k pos k' H.
    apply (findSafeLoop_inside d cw ch bm rnd maxAttempts Hr k pos k' H).
  - intros d k Hreach. induction Hreach as [k|d k bm _ IH|d k _ IH].
    + constructor.
    + apply update_inside; assumption.
    + unfold toggle. destruct (enabled d); [constructor | exact IH].
  - intros d o. unfold survivors, tickObstacle.
    destruct (expired (ageObstacle d o)); constructor; [|constructor].
    destruct (ageObstacle_fields d o) as (_ & _ & Fx & Fy & _). split; assumption.
Qed.

Lemma findSafeLoop_accepts (d : DynamicObstacles.t) tb bm rnd n k :
  rejected d tb bm (fst (candidate tb rnd k)) (snd (candidate tb rnd k)) = false ->
  findSafeLoop d tb bm rnd (S n) k
  = (Some (createVector (fst (candidate tb rnd k)) (snd (candidate tb rnd k))), S (S k)).
Proof.
  intros H. cbn [findSafeLoop].
  destruct (candidate tb rnd k) as [x y]. cbn [fst snd] in *. rewrite H. reflexivity.
Qed.

Lemma dist_not_below (x1 y1 x2 y2 r : R) :
  0 <= r ->
  r * r <= (x2 - x1) * (x2 - x1) + (y2 - y1) * (y2 - y1) ->
  Rltb (P5.dist x1 y1 x2 y2) r = false.
Proof.
  intros Hr H. apply Rltb_false. unfold P5.dist.
  rewrite <- (sqrt_square r) by exact Hr.
  apply sqrt_le_1_alt. exact H.
Qed.

Lemma candidate_middle (k : nat) : candidate gameTable middleDraws k = (600, 300).
Proof.
  unfold candidate, middleDraws.
  rewrite !random_value by (simpl; lra).
  f_equal; simpl; lra.
Qed.

(** On the empty game table the centre (600, 300) passes every test. *)
Lemma rejected_centre :
  rejected DynamicObstacles.constructor gameTable noBalls 600 300 = false.
Proof.
  unfold rejected.
  assert (HD : isInDZone gameTable 600 300 = false).
  { unfold isInDZone. apply andb_false_iff. left. apply Rleb_false. simpl; lra. }
  rewrite HD.
  assert (HP : tooCloseToPockets gameTable 600 300 = false).
  { unfold tooCloseToPockets, getPocketPositions. simpl.
    repeat (rewrite dist_not_below by lra). reflexivity. }
  rewrite HP. reflexivity.
Qed.

Lemma findSafeSpawnPosition_centre :
  exists pos,
    findSafeSpawnPosition DynamicObstacles.constructor gameTable noBalls middleDraws 0
    = (Some pos, 2%nat)
    /\ vx pos = 600 /\ vy pos = 300.
Proof.
  eexists. split.
  - unfold findSafeSpawnPosition. change maxAttempts with (S 49).
    apply findSafeLoop_accepts.
    rewrite candidate_middle. exact rejected_centre.
  - rewrite candidate_middle. split; reflexivity.
Qed.

Lemma obstacles_inside_table_witness :
  (exists pos,
      findSafeSpawnPosition DynamicObstacles.constructor gameTable noBalls middleDraws 0
      = (Some pos, 2%nat)
      /\ left (getBoundaries gameTable) + 80 <= vx pos <= right (getBoundaries gameTable) - 80
      /\ top (getBoundaries gameTable) + 80 <= vy pos <= bottom (getBoundaries gameTable) - 80)
  /\ Forall (obstacleInside gameTable)
       (obstacles (fst (fst (update DynamicObstacles.constructor gameTable noBalls
                               middleDraws 0)))).
Proof.
  assert (Hr : forall n, 0 <= middleDraws n < 1) by (intros n; unfold middleDraws; lra).
  destruct (obstacles_inside_table 1200 600 middleDraws Hr) as (Hpos & Hall & _).
  split.
  - destruct findSafeSpawnPosition_centre as (pos & E & _).
    exists pos. split; [exact E|]. exact (Hpos _ _ _ _ _ E).
  - apply (Hall _ (snd (update DynamicObstacles.constructor gameTable noBalls middleDraws 0))).
    apply reach_update. apply reach_new.
Defined.

(** ** Worked examples on the game table *)

(** In a corner the left and the top test hold together, and the left one
    decides: the hit point keeps the next position's y, beyond the top
    bound. *)
Lemma corner_left_wins :
  let p := BallTrailPrediction.constructor in
  let cur := createVector 119 69 in
  let nxt := createVector 118 68 in
  crossesLeft p gameTable cur nxt
  /\ crossesTop p gameTable cur nxt
  /\ checkCushionCollision p cur nxt gameTable = leftHit p gameTable nxt
  /\ vy (hitPoint (checkCushionCollision p cur nxt gameTable)) < topBound p gameTable.
Proof.
  intros p cur nxt.
  assert (HL : crossesLeft p gameTable cur nxt).
  { unfold crossesLeft, leftBound, cushionThickness, ballRadius, ballDiameter, tableWidth.
    simpl. unfold ballRadius, ballDiameter, tableWidth. lra. }
  assert (HT : crossesTop p gameTable cur nxt).
  { unfold crossesTop, topBound, cushionThickness. simpl.
    unfold ballRadius, ballDiameter, tableWidth. lra. }
  assert (Hleft : checkCushionCollision p cur nxt gameTable = leftHit p gameTable nxt).
  { pose proof (checkCushionCollision_cases p gameTable cur nxt) as H; cbv zeta in H.
    destruct H as [[? E]|[[? [? E]]|[[? [? [? E]]]|[[? [? [? [? E]]]]|[? [? [? [? E]]]]]]]];
      try tauto. }
  split; [exact HL|]. split; [exact HT|]. split; [exact Hleft|].
  rewrite Hleft. simpl. unfold topBound, cushionThickness. simpl.
  unfold ballRadius, ballDiameter, tableWidth. lra.
Qed.

Lemma iteration_right_hit (p : BallTrailPrediction.t) tb v pos b :
  let v1 := Vec.mult v (frictionCoefficient p) in
  let nxt := Vec.add pos (Vec.mult v1 (predictionStepSize p)) in
  ~ crossesLeft p tb pos nxt ->
  crossesRight p tb pos nxt ->
  iteration p tb v pos b
  = (Vec.mult (reflectVelocity v1 (createVector (-1) 0)) (cushionRestitution p),
     createVector (rightBound p tb) (vy nxt), S b).
Proof.
  intros v1 nxt HL HR. unfold iteration. fold v1. fold nxt.
  pose proof (checkCushionCollision_cases p tb pos nxt) as H; cbv zeta in H.
  destruct H as [[? E]|[[? [? E]]|[[? [? [? E]]]|[[? [? [? [? E]]]]|[? [? [? [? E]]]]]]]];
    try tauto.
  rewrite E. reflexivity.
Qed.

Lemma iteration_no_hit (p : BallTrailPrediction.t) tb v pos b :
  let v1 := Vec.mult v (frictionCoefficient p) in
  let nxt := Vec.add pos (Vec.mult v1 (predictionStepSize p)) in
  ~ crossesLeft p tb pos nxt -> ~ crossesRight p tb pos nxt ->
  ~ crossesTop p tb pos nxt -> ~ crossesBottom p tb pos nxt ->
  iteration p tb v pos b = (v1, nxt, b).
Proof.
  intros v1 nxt HL HR HT HB. unfold iteration. fold v1. fold nxt.
  pose proof (checkCushionCollision_cases p tb pos nxt) as H; cbv zeta in H.
  destruct H as [[? E]|[[? [? E]]|[[? [? [? E]]]|[[? [? [? [? E]]]]|[? [? [? [? E]]]]]]]];
    try tauto.
  rewrite E. reflexivity.
Qed.

Lemma predictionLoop_continue (p : BallTrailPrediction.t) tb n v pos trail b v' pos' b' :
  (b < maxBounces p)%nat ->
  iteration p tb v pos b = (v', pos', b') ->
  speedThreshold p <= Vec.mag v' ->
  predictionLoop p tb (S n) v pos trail b
  = predictionLoop p tb n v' pos'
      (trail ++ [mkSample (vx pos') (vy pos') b' (Vec.mag v')]) b'.
Proof.
  intros Hb Hit Hs. rewrite predictionLoop_S.
  apply Nat.ltb_lt in Hb. rewrite Hb, Hit. cbv zeta.
  apply Rltb_false in Hs. rewrite Hs. reflexivity.
Qed.

Lemma mag_horizontal (a : R) : Vec.mag (createVector a 0) = Rabs a.
Proof.
  unfold Vec.mag; simpl.
  replace (a * a + 0 * 0) with (Rsqr a) by (unfold Rsqr; ring).
  apply sqrt_Rsqr_abs.
Qed.

(** A shot at speed 6 straight at the right cushion, from 1.06 units in
    front of its inset bound: the first sample sits on the inset bound with
    one bounce and speed 6 * 0.985 * 0.75, the second has the same bounce
    count and that speed times 0.985. *)
Lemma right_cushion_bounce :
  let p := BallTrailPrediction.constructor in
  exists s1 s2 rest,
    predictionTrail (predict p gameTable (createVector 1080 300) (createVector 6 0))
    = s1 :: s2 :: rest
    /\ s_x s1 = rightBound p gameTable /\ s_y s1 = 300
    /\ bounce s1 = 1%nat /\ speed s1 = 6 * 0.985 * 0.75
    /\ bounce s2 = 1%nat /\ speed s2 = 6 * 0.985 * 0.75 * 0.985.
Proof.
  intros p.
  destruct (predict_trail p gameTable (createVector 1080 300) (createVector 6 0)) as [-> _].
  change (maxPredictionSteps p) with (S (S 298)).
  set (v0 := createVector 6 0). set (pos0 := createVector 1080 300).
  set (v1 := Vec.mult (reflectVelocity (Vec.mult v0 (frictionCoefficient p))
                         (createVector (-1) 0)) (cushionRestitution p)).
  set (pos1 := createVector (rightBound p gameTable)
                 (vy (Vec.add pos0 (Vec.mult (Vec.mult v0 (frictionCoefficient p))
                                      (predictionStepSize p))))).
  assert (Hv1 : v1 = createVector (- (6 * 0.985 * 0.75)) 0).
  { unfold v1, v0, reflectVelocity, Vec.mult, Vec.sub, Vec.dot. simpl. f_equal; lra. }
  assert (Hm1 : Vec.mag v1 = 6 * 0.985 * 0.75).
  { rewrite Hv1, mag_horizontal, Rabs_Ropp, Rabs_pos_eq; lra. }
  assert (It1 : iteration p gameTable v0 pos0 0 = (v1, pos1, 1%nat)).
  { apply iteration_right_hit.
    - unfold crossesLeft, leftBound, cushionThickness. simpl.
      unfold ballRadius, ballDiameter, tableWidth. lra.
    - unfold crossesRight, rightBound, cushionThickness. simpl.
      unfold ballRadius, ballDiameter, tableWidth. lra. }
  rewrite (predictionLoop_continue p gameTable _ v0 pos0 [] 0 v1 pos1 1);
    [| simpl; lia | exact It1 | rewrite Hm1; simpl; lra].
  set (v2 := Vec.mult v1 (frictionCoefficient p)).
  set (pos2 := Vec.add pos1 (Vec.mult v2 (predictionStepSize p))).
  assert (Hm2 : Vec.mag v2 = 6 * 0.985 * 0.75 * 0.985).
  { unfold v2. rewrite mag_mult, Hm1, Rabs_pos_eq by (simpl; lra). simpl. lra. }
  assert (It2 : iteration p gameTable v1 pos1 1 = (v2, pos2, 1%nat)).
  { apply iteration_no_hit; fold v2; fold pos2.
    - unfold crossesLeft, leftBound, cushionThickness, pos2, pos1, v2, rightBound.
      rewrite Hv1. simpl. unfold cushionThickness, ballRadius, ballDiameter, tableWidth. lra.
    - unfold crossesRight, pos2, pos1, v2. rewrite Hv1. simpl. lra.
    - unfold crossesTop, topBound, cushionThickness, pos2, pos1, v2, pos0, v0.
      rewrite Hv1. simpl. unfold ballRadius, ballDiameter, tableWidth. lra.
    - unfold crossesBottom, bottomBound, cushionThickness, pos2, pos1, v2, pos0, v0.
      rewrite Hv1. simpl. unfold ballRadius, ballDiameter, tableWidth. lra. }
  rewrite (predictionLoop_continue p gameTable _ v1 pos1 _ 1 v2 pos2 1);
    [| simpl; lia | exact It2 | rewrite Hm2; simpl; lra].
  rewrite predictionLoop_app. cbn [fst app].
  do 3 eexists. split; [reflexivity|]. simpl.
  repeat split; try reflexivity; try assumption.
  unfold v0; simpl; lra.
Qed.

(** * Further properties of the prediction *)

(** ** Reflection *)

Lemma reflect_components (v n : Vector) :
  reflectVelocity v n
  = createVector (vx v - vx n * (2 * Vec.dot v n)) (vy v - vy n * (2 * Vec.dot v n)).
Proof. reflexivity. Qed.

(** X1.  About a unit normal, [reflectVelocity] is its own inverse, gives
    the same result for the normal and its opposite, keeps the magnitude and
    reverses the component along the normal. *)
Theorem reflectVelocity_unit_normal (v n : Vector) :
  Vec.dot n n = 1 ->
  reflectVelocity (reflectVelocity v n) n = v
  /\ reflectVelocity v (Vec.mult n (-1)) = reflectVelocity v n
  /\ reflectVelocity (reflectVelocity v n) (Vec.mult n (-1)) = v
  /\ Vec.mag (reflectVelocity v n) = Vec.mag v
  /\ Vec.dot (reflectVelocity v n) n = - Vec.dot v n.
Proof.
  intros Hn. destruct v as [x y], n as [a b].
  unfold Vec.dot in Hn; simpl in Hn.
  assert (Hdot : Vec.dot (reflectVelocity (createVector x y) (createVector a b))
                         (createVector a b)
                 = - Vec.dot (createVector x y) (createVector a b)).
  { unfold reflectVelocity, Vec.dot, Vec.sub, Vec.mult; simpl.
    replace ((x - a * (2 * (x * a + y * b))) * a + (y - b * (2 * (x * a + y * b))) * b)
      with ((x * a + y * b) * (1 - 2 * (a * a + b * b))) by ring.
    rewrite Hn. ring. }
  assert (Hopp : reflectVelocity (createVector x y) (Vec.mult (createVector a b) (-1))
                 = reflectVelocity (createVector x y) (createVector a b)).
  { unfold reflectVelocity, Vec.dot, Vec.sub, Vec.mult; simpl. f_equal; ring. }
  assert (Hinv : reflectVelocity (reflectVelocity (createVector x y) (createVector a b))
                                 (createVector a b) = createVector x y).
  { rewrite (reflect_components (reflectVelocity _ _)). rewrite Hdot.
    unfold reflectVelocity, Vec.dot, Vec.sub, Vec.mult; simpl. f_equal; ring. }
  split; [exact Hinv|]. split; [exact Hopp|].
  split.
  { rewrite <- Hinv at 2.
    set (w := reflectVelocity (createVector x y) (createVector a b)).
    unfold reflectVelocity, Vec.dot, Vec.sub, Vec.mult; simpl. f_equal; ring. }
  split; [|exact Hdot].
  unfold Vec.mag, reflectVelocity, Vec.dot, Vec.sub, Vec.mult; simpl. f_equal.
  replace ((x - a * (2 * (x * a + y * b))) * (x - a * (2 * (x * a + y * b)))
           + (y - b * (2 * (x * a + y * b))) * (y - b * (2 * (x * a + y * b))))
    with (x * x + y * y
          + 4 * (x * a + y * b) * (x * a + y * b) * ((a * a + b * b) - 1)) by ring.
  rewrite Hn. ring.
Qed.

Lemma reflectVelocity_unit_normal_witness :
  reflectVelocity (reflectVelocity (createVector 3 4) (createVector (3 / 5) (4 / 5)))
                  (createVector (3 / 5) (4 / 5)) = createVector 3 4
  /\ Vec.mag (reflectVelocity (createVector 3 4) (createVector (3 / 5) (4 / 5)))
     = Vec.mag (createVector 3 4).
Proof.
  destruct (reflectVelocity_unit_normal (createVector 3 4) (createVector (3 / 5) (4 / 5)))
    as (H1 & _ & _ & H4 & _).
  - unfold Vec.dot; simpl; lra.
  - split; assumption.
Defined.

(** ** Speeds and stopping *)

Lemma nth_error_succ_some {A : Type} (l : list A) (i : nat) (a : A) :
  nth_error l (S i) = Some a -> exists b, nth_error l i = Some b.
Proof.
  intros H. destruct (nth_error l i) as [b|] eqn:E; [exists b; reflexivity|].
  apply nth_error_None in E.
  assert (nth_error l (S i) <> None) by congruence.
  apply nth_error_Some in H0. lia.
Qed.

(** X2.  With a friction factor and a restitution that are not negative,
    the speed recorded in the sample of index [i] is the launch speed times
    the friction factor to the power [i + 1] times the restitution to the
    power of the sample's bounce count. *)
Theorem prediction_speed_closed_form (p : BallTrailPrediction.t) (tb : Table)
    (startPos velocity : Vector) :
  0 <= frictionCoefficient p ->
  0 <= cushionRestitution p ->
  speedClosedForm p velocity (predictionTrail (predict p tb startPos velocity)).
Proof.
  intros Hf Hr.
  destruct (predict_trail p tb startPos velocity) as [Et _].
  pose proof (predictionLoop_trail p tb (maxPredictionSteps p) velocity startPos 0) as H.
  cbv zeta in H. rewrite <- Et in H.
  destruct H as (_ & _ & _ & Hadj & Hhead & _).
  set (trail := predictionTrail (predict p tb startPos velocity)) in *.
  rewrite (Rabs_pos_eq _ Hf), (Rabs_pos_eq _ Hr) in Hhead.
  intros i. induction i as [|i IH]; intros s Hs.
  - destruct trail as [|s0 rest]; [discriminate|]. injection Hs as <-.
    destruct Hhead as [[-> ->]|[-> ->]]; simpl; ring.
  - destruct (nth_error_succ_some _ _ _ Hs) as [s1 Hs1].
    pose proof (adjacent_nth _ _ Hadj i s1 s Hs1 Hs) as Hstep. unfold follows in Hstep.
    rewrite (Rabs_pos_eq _ Hf), (Rabs_pos_eq _ Hr) in Hstep.
    rewrite (IH s1 Hs1) in Hstep.
    destruct Hstep as [[-> ->]|[-> ->]]; simpl; ring.
Qed.

Lemma prediction_speed_closed_form_witness :
  speedClosedForm BallTrailPrediction.constructor (createVector 6 0)
    (predictionTrail (predict BallTrailPrediction.constructor gameTable
                        (createVector 1080 300) (createVector 6 0))).
Proof.
  apply prediction_speed_closed_form; simpl; lra.
Defined.

(** The loop goes on after a sample only if that sample is fast enough and
    the bounce limit is not reached; and it ends for one of three reasons. *)
Lemma predictionLoop_stops (p : BallTrailPrediction.t) tb n :
  forall v pos b,
    let r := predictionLoop p tb n v pos [] b in
    (fst r <> [] -> (b < maxBounces p)%nat)
    /\ (forall i s, nth_error (fst r) i = Some s -> (S i < length (fst r))%nat ->
                    speedThreshold p <= speed s /\ (bounce s < maxBounces p)%nat)
    /\ (length (fst r) = n
        \/ (maxBounces p <= snd r)%nat
        \/ exists s, lastEntry (fst r) s /\ speed s < speedThreshold p).
Proof.
  induction n as [|n IH]; intros v pos b r; subst r.
  - simpl. split; [congruence|]. split; [|left; reflexivity].
    intros i s Hs; destruct i; discriminate.
  - rewrite predictionLoop_S.
    destruct (b <? maxBounces p)%nat eqn:Hb.
    2:{ apply Nat.ltb_ge in Hb. simpl. split; [congruence|]. split; [|right; left; exact Hb].
        intros i s Hs; destruct i; discriminate. }
    apply Nat.ltb_lt in Hb.
    destruct (iteration p tb v pos b) as [[v' pos'] b']. cbv zeta.
    destruct (Rltb (Vec.mag v') (speedThreshold p)) eqn:Hthr.
    + apply Rltb_true in Hthr. cbn [fst snd].
      split; [intros _; exact Hb|]. split.
      * intros i s Hs Hlen. simpl in Hlen. lia.
      * right; right. eexists. split; [reflexivity|]. simpl. exact Hthr.
    + apply Rltb_false in Hthr. rewrite predictionLoop_app.
      specialize (IH v' pos' b'); cbv zeta in IH.
      destruct (predictionLoop p tb n v' pos' [] b') as [tr bf].
      cbn [fst snd app] in *.
      destruct IH as (Hne & Hmid & Hend).
      split; [intros _; exact Hb|]. split.
      * intros i s Hs Hlen. destruct i as [|i].
        -- injection Hs as <-. simpl. split; [exact Hthr|].
           apply Hne. destruct tr; [simpl in Hlen; lia | congruence].
        -- simpl in Hs, Hlen. apply (Hmid i s Hs). lia.
      * destruct Hend as [Hl|[Hm|[s [Hs Hsp]]]].
        -- left. simpl. lia.
        -- right; left. exact Hm.
        -- right; right. exists s. split; [|exact Hsp].
           unfold lastEntry in *. rewrite nth_error_last_cons.
           destruct tr; [destruct (length (@nil Sample) - 1)%nat; discriminate | exact Hs].
Qed.

(** X3.  In a prediction, every sample that is followed by another one has
    a speed of at least [speedThreshold] and fewer than [maxBounces]
    bounces; and the prediction ended because [maxPredictionSteps] samples
    were produced, or [maxBounces] was reached, or the last sample is slower
    than [speedThreshold]. *)
Theorem prediction_stops_for_a_reason (p : BallTrailPrediction.t) (tb : Table)
    (startPos velocity : Vector) :
  onlyLastStops p (predictionTrail (predict p tb startPos velocity))
  /\ stopReason p (predict p tb startPos velocity).
Proof.
  destruct (predict_trail p tb startPos velocity) as [Et Eb].
  pose proof (predictionLoop_stops p tb (maxPredictionSteps p) velocity startPos 0) as H.
  cbv zeta in H. rewrite <- Et, <- Eb in H.
  destruct H as (_ & Hmid & Hend).
  split; [exact Hmid | exact Hend].
Qed.

(** X4.  After a prediction, [predictionBounces] is the bounce count of the
    last sample (0 for an empty trail); the first sample has at most one
    bounce and each further sample at most one more than the one before. *)
Theorem prediction_bounce_count_matches (p : BallTrailPrediction.t) (tb : Table)
    (startPos velocity : Vector) :
  bounceCountMatches (predict p tb startPos velocity).
Proof.
  destruct (predict_trail p tb startPos velocity) as [Et Eb].
  pose proof (predictionLoop_trail p tb (maxPredictionSteps p) velocity startPos 0) as H.
  cbv zeta in H. rewrite <- Et, <- Eb in H.
  destruct H as (_ & _ & _ & Hadj & Hhead & Hlast).
  unfold bounceCountMatches. repeat split.
  - intros E. rewrite E in Hhead. exact Hhead.
  - exact Hlast.
  - intros s Hs.
    destruct (predictionTrail (predict p tb startPos velocity)) as [|s0 rest];
      [discriminate|].
    injection Hs as <-. destruct Hhead as [[-> _]|[-> _]]; lia.
  - intros s1 s2 [i [H1 H2]].
    destruct (adjacent_nth _ _ Hadj i s1 s2 H1 H2) as [[E _]|[E _]]; auto.
Qed.

(** ** Staying between the side cushions *)

(** A property of the loop state kept by every iteration holds of every
    sample. *)
Lemma predictionLoop_invariant (p : BallTrailPrediction.t) tb
    (Inv : Vector -> Vector -> Prop) (Q : Sample -> Prop) :
  (forall v pos b, Inv v pos ->
     Inv (fst (fst (iteration p tb v pos b))) (snd (fst (iteration p tb v pos b)))
     /\ Q (mkSample (vx (snd (fst (iteration p tb v pos b))))
                    (vy (snd (fst (iteration p tb v pos b))))
                    (snd (iteration p tb v pos b))
                    (Vec.mag (fst (fst (iteration p tb v pos b)))))) ->
  forall n v pos b, Inv v pos -> Forall Q (fst (predictionLoop p tb n v pos [] b)).
Proof.
  intros Hkeep. induction n as [|n IH]; intros v pos b HI.
  - constructor.
  - rewrite predictionLoop_S.
    destruct (b <? maxBounces p)%nat; [|constructor].
    destruct (Hkeep v pos b HI) as [HI' HQ].
    destruct (iteration p tb v pos b) as [[v' pos'] b']. cbn [fst snd] in *.
    destruct (Rltb (Vec.mag v') (speedThreshold p)).
    + cbn [fst app]. constructor; [exact HQ | constructor].
    + rewrite predictionLoop_app. cbn [fst app].
      constructor; [exact HQ | apply IH; exact HI'].
Qed.

Lemma iteration_withinSides (p : BallTrailPrediction.t) tb v pos b :
  0 <= frictionCoefficient p -> 0 <= cushionRestitution p ->
  0 <= predictionStepSize p ->
  leftBound p tb < rightBound p tb ->
  withinSides p tb v pos ->
  withinSides p tb (fst (fst (iteration p tb v pos b))) (snd (fst (iteration p tb v pos b)))
  /\ leftBound p tb <= vx (snd (fst (iteration p tb v pos b))) <= rightBound p tb.
Proof.
  intros Hf Hr Hs HLR HI. unfold iteration.
  set (v1 := Vec.mult v (frictionCoefficient p)).
  set (nxt := Vec.add pos (Vec.mult v1 (predictionStepSize p))).
  set (a := vx v * frictionCoefficient p).
  unfold withinSides in HI.
  set (L := leftBound p tb) in *. set (Rb := rightBound p tb) in *.
  assert (Ex : vx nxt = vx pos + a * predictionStepSize p) by reflexivity.
  assert (Ea : vx v1 = a) by reflexivity.
  pose proof (checkCushionCollision_cases p tb pos nxt) as H; cbv zeta in H.
  unfold crossesLeft, crossesRight in H. fold L Rb in H.
  destruct H as [[HL E]|[[HnL [HR E]]|[[HnL [HnR [_ E]]]|[[HnL [HnR [_ [_ E]]]]|
                 [HnL [HnR [_ [_ E]]]]]]]]; rewrite E;
    unfold leftHit, rightHit, topHit, bottomHit, noHit; cbn [hit hitPoint normal fst snd];
    fold L Rb;
    try (rewrite Ex in HnL;
         assert (HnL' : vx pos > L -> L < vx pos + a * predictionStepSize p)
           by (intros ?; destruct (Rlt_dec L (vx pos + a * predictionStepSize p));
               [assumption | exfalso; apply HnL; lra]));
    try (rewrite Ex in HnR;
         assert (HnR' : vx pos < Rb -> vx pos + a * predictionStepSize p < Rb)
           by (intros ?; destruct (Rlt_dec (vx pos + a * predictionStepSize p) Rb);
               [assumption | exfalso; apply HnR; lra])).
  - (* left cushion *)
    assert (Hneg : a <= 0).
    { destruct (Rle_dec a 0) as [|Hpos]; [assumption|].
      assert (0 <= a * predictionStepSize p) by (apply Rmult_le_pos; lra). lra. }
    unfold withinSides. fold L Rb. cbn [vx].
    split; [|lra]. right; left. split; [reflexivity|].
    unfold reflectVelocity, Vec.mult, Vec.sub, Vec.dot; cbn [vx vy]. fold v1. rewrite Ea.
    replace ((a - 1 * (2 * (a * 1 + vy v1 * 0))) * cushionRestitution p)
      with ((- a) * cushionRestitution p) by ring.
    apply Rmult_le_pos; lra.
  - (* right cushion *)
    assert (Hpos : 0 <= a).
    { destruct (Rle_dec 0 a) as [|Hneg]; [assumption|].
      assert (0 <= (- a) * predictionStepSize p) by (apply Rmult_le_pos; lra). lra. }
    unfold withinSides. fold L Rb. cbn [vx].
    split; [|lra]. right; right. split; [reflexivity|].
    unfold reflectVelocity, Vec.mult, Vec.sub, Vec.dot; cbn [vx vy]. fold v1. rewrite Ea.
    replace ((a - -1 * (2 * (a * -1 + vy v1 * 0))) * cushionRestitution p)
      with (- (a * cushionRestitution p)) by ring.
    assert (0 <= a * cushionRestitution p) by (apply Rmult_le_pos; lra). lra.
  - (* top cushion: x as without a hit, horizontal velocity scaled *)
    assert (Hv : vx (Vec.mult (reflectVelocity v1 (createVector 0 1)) (cushionRestitution p))
                 = a * cushionRestitution p).
    { unfold reflectVelocity, Vec.mult, Vec.sub, Vec.dot; cbn [vx vy]. fold v1.
      rewrite Ea. ring. }
    unfold withinSides. fold L Rb. cbn [vx]. rewrite Hv, Ex.
    destruct HI as [HI|[[HI Hv0]|[HI Hv0]]].
    + split; [left|]; lra.
    + assert (0 <= a) by (apply Rmult_le_pos; lra).
      assert (0 <= a * predictionStepSize p) by (apply Rmult_le_pos; lra).
      assert (0 <= a * cushionRestitution p) by (apply Rmult_le_pos; lra).
      split; [|lra].
      destruct (Rle_lt_or_eq_dec _ _ H0) as [Hlt|Heq]; [left; lra|right; left; lra].
    + assert (0 <= (- a))
        by (unfold a; replace (- (vx v * frictionCoefficient p))
              with ((- vx v) * frictionCoefficient p) by ring;
            apply Rmult_le_pos; lra).
      assert (0 <= (- a) * predictionStepSize p) by (apply Rmult_le_pos; lra).
      assert (0 <= (- a) * cushionRestitution p) by (apply Rmult_le_pos; lra).
      split; [|lra].
      destruct (Rle_lt_or_eq_dec _ _ H0) as [Hlt|Heq]; [left; lra|right; right; lra].
  - (* bottom cushion *)
    assert (Hv : vx (Vec.mult (reflectVelocity v1 (createVector 0 (-1)))
                       (cushionRestitution p))
                 = a * cushionRestitution p).
    { unfold reflectVelocity, Vec.mult, Vec.sub, Vec.dot; cbn [vx vy]. fold v1.
      rewrite Ea. ring. }
    unfold withinSides. fold L Rb. cbn [vx]. rewrite Hv, Ex.
    destruct HI as [HI|[[HI Hv0]|[HI Hv0]]].
    + split; [left|]; lra.
    + assert (0 <= a) by (apply Rmult_le_pos; lra).
      assert (0 <= a * predictionStepSize p) by (apply Rmult_le_pos; lra).
      assert (0 <= a * cushionRestitution p) by (apply Rmult_le_pos; lra).
      split; [|lra].
      destruct (Rle_lt_or_eq_dec _ _ H0) as [Hlt|Heq]; [left; lra|right; left; lra].
    + assert (0 <= (- a))
        by (unfold a; replace (- (vx v * frictionCoefficient p))
              with ((- vx v) * frictionCoefficient p) by ring;
            apply Rmult_le_pos; lra).
      assert (0 <= (- a) * predictionStepSize p) by (apply Rmult_le_pos; lra).
      assert (0 <= (- a) * cushionRestitution p) by (apply Rmult_le_pos; lra).
      split; [|lra].
      destruct (Rle_lt_or_eq_dec _ _ H0) as [Hlt|Heq]; [left; lra|right; right; lra].
  - (* no hit *)
    unfold noHit. cbn [hit]. cbn [fst snd]. unfold withinSides. fold L Rb. rewrite Ex, Ea.
    destruct HI as [HI|[[HI Hv0]|[HI Hv0]]].
    + split; [left|]; lra.
    + assert (0 <= a) by (apply Rmult_le_pos; lra).
      assert (0 <= a * predictionStepSize p) by (apply Rmult_le_pos; lra).
      split; [|lra].
      destruct (Rle_lt_or_eq_dec _ _ H0) as [Hlt|Heq]; [left; lra|right; left; lra].
    + assert (0 <= (- a))
        by (unfold a; replace (- (vx v * frictionCoefficient p))
              with ((- vx v) * frictionCoefficient p) by ring;
            apply Rmult_le_pos; lra).
      assert (0 <= (- a) * predictionStepSize p) by (apply Rmult_le_pos; lra).
      split; [|lra].
      destruct (Rle_lt_or_eq_dec _ _ H0) as [Hlt|Heq]; [left; lra|right; right; lra].
Qed.

(** X5.  With a friction factor, a restitution and a step size that are
    not negative, and a table wide enough for the left inset bound to lie
    left of the right one, a prediction started strictly between the two
    side bounds never records a sample whose x lies outside them. *)
Theorem prediction_between_side_cushions (p : BallTrailPrediction.t) (tb : Table)
    (startPos velocity : Vector) :
  0 <= frictionCoefficient p ->
  0 <= cushionRestitution p ->
  0 <= predictionStepSize p ->
  leftBound p tb < vx startPos < rightBound p tb ->
  betweenSideCushions p tb (predictionTrail (predict p tb startPos velocity)).
Proof.
  intros Hf Hr Hs Hstart.
  destruct (predict_trail p tb startPos velocity) as [-> _].
  unfold betweenSideCushions.
  apply (predictionLoop_invariant p tb (withinSides p tb)).
  - intros v pos b HI.
    destruct (iteration_withinSides p tb v pos b Hf Hr Hs ltac:(lra) HI) as [HI' Hx].
    split; [exact HI' | exact Hx].
  - left. exact Hstart.
Qed.

Lemma prediction_between_side_cushions_witness :
  betweenSideCushions BallTrailPrediction.constructor gameTable
    (predictionTrail (predict BallTrailPrediction.constructor gameTable
                        (createVector 1080 300) (createVector 6 0))).
Proof.
  apply prediction_between_side_cushions; simpl; try lra.
  unfold leftBound, rightBound, cushionThickness; simpl.
  unfold ballRadius, ballDiameter, tableWidth. lra.
Defined.

(** ** Bounce markers *)

Lemma adjacent_weaken {A : Type} (rel rel' : A -> A -> Prop) (l : list A) :
  (forall a b, rel a b -> rel' a b) -> adjacent rel l -> adjacent rel' l.
Proof.
  intros Himp. induction l as [|a l IH]; intros H; [exact I|].
  destruct l as [|b l']; [exact I|].
  destruct H as [Hab Hrest]. split; [apply Himp; exact Hab | apply IH; exact Hrest].
Qed.

Lemma prediction_bounce_count_matches_aux (p : BallTrailPrediction.t) (tb : Table)
    (startPos velocity : Vector) :
  adjacent (fun s1 s2 => bounce s2 = bounce s1 \/ bounce s2 = S (bounce s1))
           (predictionTrail (predict p tb startPos velocity)).
Proof.
  destruct (predict_trail p tb startPos velocity) as [Et _].
  pose proof (predictionLoop_trail p tb (maxPredictionSteps p) velocity startPos 0) as H.
  cbv zeta in H. rewrite <- Et in H.
  destruct H as (_ & _ & _ & Hadj & _).
  apply (adjacent_weaken (follows p)); [|exact Hadj].
  intros a b [[E _]|[E _]]; auto.
Qed.

Lemma bounceMarkers_count (l : list Sample) :
  forall a,
    adjacent (fun s1 s2 => bounce s2 = bounce s1 \/ bounce s2 = S (bounce s1)) (a :: l) ->
    forall z, nth_error (a :: l) (length l) = Some z ->
    length (TrailView.bounceMarkers (Z.of_nat (bounce a)) l) = (bounce z - bounce a)%nat
    /\ (bounce a <= bounce z)%nat.
Proof.
  induction l as [|b l IH]; intros a Hadj z Hz.
  - simpl in Hz. injection Hz as <-. simpl. lia.
  - destruct Hadj as [Hab Hrest].
    assert (Hz' : nth_error (b :: l) (length l) = Some z) by exact Hz.
    destruct (IH b Hrest z Hz') as [Hc Hle].
    cbn [TrailView.bounceMarkers].
    destruct Hab as [E|E]; rewrite E.
    + rewrite Z.ltb_irrefl. rewrite E in Hc. split; [exact Hc | lia].
    + assert (Hlt : (Z.of_nat (bounce a) <? Z.of_nat (S (bounce a)))%Z = true)
        by (apply Z.ltb_lt; lia).
      rewrite Hlt. cbn [length]. rewrite <- E, Hc. lia.
Qed.

(** X6.  For the trail of a prediction, [drawBouncePoints] draws nothing
    when the trail is empty and otherwise one marker at the first sample and
    one at each sample whose bounce count is larger than the one before: the
    number of markers is the last bounce count minus the first, plus one. *)
Theorem drawBouncePoints_count (p : BallTrailPrediction.t) (tb : Table)
    (startPos velocity : Vector) :
  let r := predict p tb startPos velocity in
  (predictionTrail r = [] -> TrailView.drawBouncePoints r = [])
  /\ (forall first last,
        nth_error (predictionTrail r) 0 = Some first ->
        lastEntry (predictionTrail r) last ->
        nth_error (TrailView.drawBouncePoints r) 0 = Some first
        /\ length (TrailView.drawBouncePoints r) = S (bounce last - bounce first)).
Proof.
  intros r. pose proof (prediction_bounce_count_matches_aux p tb startPos velocity) as Hadj.
  fold r in Hadj. unfold TrailView.drawBouncePoints.
  split; [intros ->; reflexivity|].
  intros first last Hf Hl.
  destruct (predictionTrail r) as [|a l]; [discriminate|].
  injection Hf as <-. cbn [TrailView.bounceMarkers].
  assert (Hlt : (-1 <? Z.of_nat (bounce a))%Z = true) by (apply Z.ltb_lt; lia).
  rewrite Hlt. split; [reflexivity|]. cbn [length]. f_equal.
  unfold lastEntry in Hl. cbn [length] in Hl. rewrite Nat.sub_succ, Nat.sub_0_r in Hl.
  apply (bounceMarkers_count l a Hadj last Hl).
Qed.

(** * Further properties of the obstacle system *)

(** ** Size of the container *)

Lemma survivors_length (d : DynamicObstacles.t) (obs : list Obstacle) :
  (length (flat_map (survivors d) obs) <= length obs)%nat.
Proof.
  induction obs as [|o rest IH]; [simpl; lia|].
  cbn [flat_map]. rewrite length_app. unfold survivors at 1, tickObstacle.
  destruct (expired (ageObstacle d o)); simpl; lia.
Qed.

(** The parts of [update]: the spawn decision, then the pass. *)
Lemma update_steps (d : DynamicObstacles.t) tb bm rnd k :
  enabled d = true ->
  let d1 := withSpawnTimer d (S (spawnTimer d)) in
  exists d2 k2,
    (d2, k2) = (if spawnDue d1 bm
                then (withSpawnTimer (fst (spawnRandomObstacle d1 tb bm rnd k)) 0,
                      snd (spawnRandomObstacle d1 tb bm rnd k))
                else (d1, k))
    /\ update d tb bm rnd k
       = (withObstacles d2 (flat_map (survivors d2) (obstacles d2)),
          snd (updateObstaclesList d2 (obstacles d2) bm), k2).
Proof.
  intros He d1. unfold update. rewrite He. cbn [negb]. fold d1.
  destruct (spawnDue d1 bm).
  - destruct (spawnRandomObstacle d1 tb bm rnd k) as [d0 k0]. cbn [fst snd].
    exists (withSpawnTimer d0 0), k0. split; [reflexivity|].
    unfold updateObstacles.
    rewrite <- updateObstaclesList_survivors with (bm := bm).
    destruct (updateObstaclesList (withSpawnTimer d0 0) (obstacles (withSpawnTimer d0 0)) bm).
    reflexivity.
  - exists d1, k. split; [reflexivity|].
    unfold updateObstacles.
    rewrite <- updateObstaclesList_survivors with (bm := bm).
    destruct (updateObstaclesList d1 (obstacles d1) bm). reflexivity.
Qed.

Lemma spawnRandomObstacle_effect (d : DynamicObstacles.t) tb bm rnd k :
  (fst (spawnRandomObstacle d tb bm rnd k) = d
   /\ fst (findSafeSpawnPosition d tb bm rnd k) = None)
  \/ exists pos,
       fst (findSafeSpawnPosition d tb bm rnd k) = Some pos
       /\ fst (spawnRandomObstacle d tb bm rnd k)
          = withObstacles d (obstacles d ++ [newObstacle d pos]).
Proof.
  unfold spawnRandomObstacle.
  destruct (findSafeSpawnPosition d tb bm rnd k) as [[pos|] k'].
  - right. exists pos. split; reflexivity.
  - left. split; reflexivity.
Qed.

(** X7.  One call of [update] adds at most one obstacle to the container,
    and none, without drawing a random number, while balls are moving or
    the system is disabled; a call that does not spawn never makes the
    container larger. *)
Theorem update_adds_at_most_one (d : DynamicObstacles.t) (tb : Table) (bm : BallManager)
    (rnd : Rand) (k : nat) :
  (length (obstacles (fst (fst (update d tb bm rnd k)))) <= S (length (obstacles d)))%nat
  /\ (areBallsMoving bm = true \/ enabled d = false ->
      (length (obstacles (fst (fst (update d tb bm rnd k)))) <= length (obstacles d))%nat
      /\ snd (update d tb bm rnd k) = k)
  /\ ((length (obstacles d) < length (obstacles (fst (fst (update d tb bm rnd k)))))%nat ->
      (spawnRate d <= S (spawnTimer d))%nat
      /\ (length (obstacles d) < maxObstacles d)%nat
      /\ areBallsMoving bm = false /\ enabled d = true).
Proof.
  destruct (enabled d) eqn:He.
  2:{ unfold update. rewrite He. cbn [negb fst snd].
      split; [lia|]. split; [intros _; split; [lia|reflexivity]|]. intros; lia. }
  destruct (update_steps d tb bm rnd k He) as (d2 & k2 & Hsp & ->). cbv zeta in Hsp.
  cbn [fst snd withObstacles obstacles].
  pose proof (survivors_length d2 (obstacles d2)) as Hlen.
  set (d1 := withSpawnTimer d (S (spawnTimer d))) in *.
  destruct (spawnDue d1 bm) eqn:Hdue.
  - injection Hsp as -> ->.
    unfold spawnDue in Hdue. apply andb_true_iff in Hdue. destruct Hdue as [Hdue Hmov].
    apply andb_true_iff in Hdue. destruct Hdue as [Hrate Hcount].
    apply Nat.leb_le in Hrate. apply Nat.ltb_lt in Hcount.
    apply negb_true_iff in Hmov. cbn [d1 withSpawnTimer spawnRate spawnTimer obstacles
                                       maxObstacles] in Hrate, Hcount.
    assert (Hone : (length (obstacles (withSpawnTimer (fst (spawnRandomObstacle d1 tb bm rnd k)) 0))
                    <= S (length (obstacles d)))%nat).
    { destruct (spawnRandomObstacle_effect d1 tb bm rnd k) as [[-> _]|[pos [_ ->]]].
      - simpl. lia.
      - cbn [withSpawnTimer withObstacles obstacles]. rewrite length_app. simpl. lia. }
    split; [lia|]. split.
    + intros [Hm|Hd]; congruence.
    + intros _. repeat split; assumption.
  - injection Hsp as -> ->.
    pose proof (eq_refl : length (obstacles d1) = length (obstacles d)) as Hsame.
    split; [lia|]. split; [intros _; split; [lia|reflexivity]|]. intros; lia.
Qed.

(** The search looks at the obstacle system through its container only. *)
Lemma findSafeLoop_obstacles (d d' : DynamicObstacles.t) tb bm rnd n :
  obstacles d' = obstacles d ->
  forall k, findSafeLoop d' tb bm rnd n k = findSafeLoop d tb bm rnd n k.
Proof.
  intros Hobs. induction n as [|n IH]; intros k; [reflexivity|].
  cbn [findSafeLoop]. destruct (candidate tb rnd k) as [x y].
  assert (E : rejected d' tb bm x y = rejected d tb bm x y)
    by (unfold rejected, tooCloseToBalls; rewrite Hobs; reflexivity).
  rewrite E, IH. reflexivity.
Qed.

(** What an enabled [update] does to the container: maybe one obstacle more,
    at a position the search accepted, then one pass. *)
Lemma update_result (d : DynamicObstacles.t) tb bm rnd k :
  enabled d = true ->
  exists obs2,
    (obs2 = obstacles d
     \/ exists pos k',
          findSafeSpawnPosition d tb bm rnd k = (Some pos, k')
          /\ (length (obstacles d) < maxObstacles d)%nat
          /\ obs2 = obstacles d ++ [newObstacle d pos])
    /\ obstacles (fst (fst (update d tb bm rnd k))) = flat_map (survivors d) obs2
    /\ sameSettings d (fst (fst (update d tb bm rnd k))).
Proof.
  intros He. unfold update. rewrite He. cbn [negb].
  set (d1 := withSpawnTimer d (S (spawnTimer d))).
  destruct (spawnDue d1 bm) eqn:Hdue.
  - unfold spawnDue in Hdue. apply andb_true_iff in Hdue. destruct Hdue as [Hdue _].
    apply andb_true_iff in Hdue. destruct Hdue as [_ Hcount].
    apply Nat.ltb_lt in Hcount. cbn [d1 withSpawnTimer obstacles maxObstacles] in Hcount.
    unfold spawnRandomObstacle.
    assert (Efind : findSafeSpawnPosition d1 tb bm rnd k = findSafeSpawnPosition d tb bm rnd k)
      by (apply findSafeLoop_obstacles; reflexivity).
    rewrite Efind.
    destruct (findSafeSpawnPosition d tb bm rnd k) as [[pos|] k'] eqn:Hfind.
    + exists (obstacles d ++ [newObstacle d pos]).
      split; [right; exists pos, k'; repeat split; auto|].
      unfold updateObstacles.
      pose proof (updateObstaclesList_survivors
                    (withSpawnTimer (withObstacles d1 (obstacles d1 ++ [newObstacle d1 pos])) 0)
                    (obstacles d ++ [newObstacle d pos]) bm) as Hs.
      cbn [withSpawnTimer withObstacles obstacles].
      change (obstacles d1) with (obstacles d). change (newObstacle d1 pos) with (newObstacle d pos).
      destruct (updateObstaclesList _ (obstacles d ++ [newObstacle d pos]) bm) as [obs' bm'].
      cbn [fst snd] in *. subst obs'.
      split; [reflexivity|]. unfold sameSettings; cbn. rewrite He. repeat split.
    + exists (obstacles d). split; [left; reflexivity|].
      unfold updateObstacles.
      pose proof (updateObstaclesList_survivors (withSpawnTimer d1 0) (obstacles d) bm) as Hs.
      cbn [withSpawnTimer withObstacles obstacles].
      change (obstacles d1) with (obstacles d).
      destruct (updateObstaclesList _ (obstacles d) bm) as [obs' bm'].
      cbn [fst snd] in *. subst obs'.
      split; [reflexivity|]. unfold sameSettings; cbn. rewrite He. repeat split.
  - exists (obstacles d). split; [left; reflexivity|].
    unfold updateObstacles.
    pose proof (updateObstaclesList_survivors d1 (obstacles d) bm) as Hs.
    change (obstacles d1) with (obstacles d).
    destruct (updateObstaclesList d1 (obstacles d) bm) as [obs' bm'].
    cbn [fst snd] in *. subst obs'.
    split; [reflexivity|]. unfold sameSettings; cbn. rewrite He. repeat split.
Qed.

(** ** Frames *)

Lemma update_not_due (d : DynamicObstacles.t) tb bm rnd k :
  enabled d = true ->
  (S (spawnTimer d) < spawnRate d)%nat ->
  snd (update d tb bm rnd k) = k
  /\ spawnTimer (fst (fst (update d tb bm rnd k))) = S (spawnTimer d)
  /\ spawnRate (fst (fst (update d tb bm rnd k))) = spawnRate d
  /\ enabled (fst (fst (update d tb bm rnd k))) = true
  /\ (length (obstacles (fst (fst (update d tb bm rnd k)))) <= length (obstacles d))%nat.
Proof.
  intros He Hlt.
  destruct (update_steps d tb bm rnd k He) as (d2 & k2 & Hsp & ->). cbv zeta in Hsp.
  assert (Hdue : spawnDue (withSpawnTimer d (S (spawnTimer d))) bm = false).
  { unfold spawnDue. cbn [withSpawnTimer spawnRate spawnTimer].
    apply Nat.leb_gt in Hlt. rewrite Hlt. reflexivity. }
  rewrite Hdue in Hsp. injection Hsp as -> ->.
  cbn [fst snd withObstacles withSpawnTimer spawnTimer spawnRate enabled obstacles].
  repeat split; auto. apply survivors_length.
Qed.

Lemma runFrames_waiting (tb : Table) (rnd : Rand) (bms : list BallManager) :
  forall d k,
    enabled d = true ->
    (spawnTimer d + length bms < spawnRate d)%nat ->
    snd (runFrames tb rnd bms d k) = k
    /\ spawnTimer (fst (runFrames tb rnd bms d k)) = (spawnTimer d + length bms)%nat
    /\ (length (obstacles (fst (runFrames tb rnd bms d k))) <= length (obstacles d))%nat
    /\ enabled (fst (runFrames tb rnd bms d k)) = true.
Proof.
  induction bms as [|bm rest IH]; intros d k He Hlt.
  - simpl. repeat split; auto; lia.
  - cbn [runFrames]. cbn [length] in Hlt |- *.
    assert (H1 : (S (spawnTimer d) < spawnRate d)%nat) by lia.
    destruct (update_not_due d tb bm rnd k He H1) as (Hk & Ht & Hr & He' & Hl).
    assert (H2 : (spawnTimer (fst (fst (update d tb bm rnd k))) + length rest
                  < spawnRate (fst (fst (update d tb bm rnd k))))%nat)
      by (rewrite Ht, Hr; lia).
    destruct (IH (fst (fst (update d tb bm rnd k))) (snd (update d tb bm rnd k)) He' H2)
      as (Hk2 & Ht2 & Hl2 & He2).
    split; [rewrite Hk2; exact Hk|]. split; [rewrite Ht2, Ht; lia|].
    split; [lia | exact He2].
Qed.


Lemma runFrames_reachable (tb : Table) (rnd : Rand) (bms : list BallManager) :
  forall d k, Reachable tb rnd d k ->
              Reachable tb rnd (fst (runFrames tb rnd bms d k)) (snd (runFrames tb rnd bms d k)).
Proof.
  induction bms as [|bm rest IH]; intros d k H; [exact H|].
  cbn [runFrames]. apply IH. apply reach_update. exact H.
Qed.

Lemma afterFrame419_eq :
  afterFrame419
  = runFrames gameTable middleDraws (repeat noBalls 419) DynamicObstacles.constructor 0.
Proof. unfold afterFrame419. reflexivity. Qed.

Lemma afterFrame419_reachable :
  Reachable gameTable middleDraws (fst afterFrame419) (snd afterFrame419).
Proof.
  unfold afterFrame419.
  exact (runFrames_reachable gameTable middleDraws (repeat noBalls 419)
           DynamicObstacles.constructor 0 (reach_new gameTable middleDraws 0)).
Qed.

Lemma afterFrame420_reachable :
  Reachable gameTable middleDraws stateAfterFrame420 drawsAfterFrame420.
Proof.
  unfold stateAfterFrame420, drawsAfterFrame420.
  exact (reach_update gameTable middleDraws (fst afterFrame419) (snd afterFrame419) noBalls
           afterFrame419_reachable).
Qed.

(** ** What holds in every state the system reaches *)

Lemma constructorSettings_same (d d' : DynamicObstacles.t) :
  sameSettings d d' -> constructorSettings d -> constructorSettings d'.
Proof.
  unfold sameSettings, constructorSettings.
  intros (H1 & H2 & H3 & H4 & H5 & H6 & H7 & H8 & H9 & _) (C1 & C2 & C3 & C4 & C5 & C6 & C7 & C8 & C9).
  rewrite H1, H2, H3, H4, H5, H6, H7, H8, H9. repeat split; assumption.
Qed.

Lemma toggle_settings (d : DynamicObstacles.t) :
  constructorSettings d -> constructorSettings (toggle d).
Proof. unfold toggle. destruct (enabled d); intros H; exact H. Qed.

Lemma reachable_container (tb : Table) (rnd : Rand) (d : DynamicObstacles.t) (k : nat) :
  Reachable tb rnd d k ->
  constructorSettings d
  /\ (length (obstacles d) <= maxObstacles d)%nat
  /\ (enabled d = false -> obstacles d = []).
Proof.
  intros Hreach. induction Hreach as [k|d k bm _ IH|d k _ IH].
  - split; [unfold constructorSettings; simpl; repeat split; lra|].
    split; [simpl; lia | intros _; reflexivity].
  - destruct IH as (Hset & Hlen & Hoff).
    destruct (enabled d) eqn:He.
    2:{ unfold update. rewrite He. cbn [negb fst].
        split; [exact Hset|]. split; [exact Hlen|]. intros _. apply Hoff. reflexivity. }
    destruct (update_result d tb bm rnd k He) as (obs2 & Hobs2 & Hobs & Hsame).
    split; [exact (constructorSettings_same _ _ Hsame Hset)|].
    destruct Hsame as (_ & Hmax & _ & _ & _ & _ & _ & _ & _ & Hen).
    rewrite Hobs, Hmax, Hen. split; [|congruence].
    pose proof (survivors_length d obs2) as Hs.
    destruct Hobs2 as [->|(pos & k' & _ & Hcount & ->)]; [lia|].
    rewrite length_app in Hs. simpl in Hs. lia.
  - destruct IH as (Hset & Hlen & Hoff).
    split; [apply toggle_settings; exact Hset|].
    unfold toggle. destruct (enabled d) eqn:He.
    + cbn. split; [lia | reflexivity].
    + cbn. rewrite (Hoff eq_refl). split; [simpl; lia | discriminate].
Qed.

(** A due spawn at an accepted position: the new obstacle joins the
    container and takes part in the pass of the same frame. *)
Lemma update_spawns (d : DynamicObstacles.t) tb bm rnd k pos k' :
  enabled d = true ->
  spawnDue (withSpawnTimer d (S (spawnTimer d))) bm = true ->
  findSafeSpawnPosition d tb bm rnd k = (Some pos, k') ->
  obstacles (fst (fst (update d tb bm rnd k)))
  = flat_map (survivors d) (obstacles d ++ [newObstacle d pos])
  /\ snd (update d tb bm rnd k) = k'.
Proof.
  intros He Hdue Hfind.
  destruct (update_steps d tb bm rnd k He) as (d2 & k2 & Hsp & ->). cbv zeta in Hsp.
  rewrite Hdue in Hsp. unfold spawnRandomObstacle in Hsp.
  assert (Efind : findSafeSpawnPosition (withSpawnTimer d (S (spawnTimer d))) tb bm rnd k
                  = (Some pos, k'))
    by (rewrite <- Hfind; apply findSafeLoop_obstacles; reflexivity).
  rewrite Efind in Hsp. cbn [fst snd] in Hsp. injection Hsp as -> ->.
  split; reflexivity.
Qed.

(** A freshly spawned obstacle after the pass of the frame it appears in. *)
Lemma survivors_new (d : DynamicObstacles.t) (pos : Vector) :
  (1 <= warningTime d)%nat ->
  exists o, survivors d (newObstacle d pos) = [o]
            /\ o_x o = vx pos /\ o_y o = vy pos /\ age o = 1%nat /\ phase o = warning.
Proof.
  intros HW. unfold survivors, tickObstacle, expired.
  destruct (ageObstacle_fields d (newObstacle d pos)) as (Fa & Fm & Fx & Fy & Fp).
  rewrite Fa, Fm. cbn [newObstacle age maxAge o_x o_y] in Fa, Fx, Fy, Fp |- *.
  assert (E : (warningTime d + activeTime d + fadeTime d <? 1)%nat = false)
    by (apply Nat.ltb_ge; lia).
  rewrite E. eexists. split; [reflexivity|].
  assert (E1 : (1 <=? warningTime d)%nat = true) by (apply Nat.leb_le; exact HW).
  rewrite E1 in Fp. repeat split; assumption.
Qed.

Lemma first_spawn_from (d : DynamicObstacles.t) :
  enabled d = true -> constructorSettings d ->
  spawnTimer d = 419%nat -> obstacles d = [] ->
  exists o,
    obstacles (fst (fst (update d gameTable noBalls middleDraws 0))) = [o]
    /\ o_x o = 600 /\ o_y o = 300 /\ age o = 1%nat /\ phase o = warning.
Proof.
  intros Hen (Hrate & Hmax & HW & _) Ht Hnil.
  destruct findSafeSpawnPosition_centre as (pos & Hfind & Hx & Hy).
  assert (Hfind' : findSafeSpawnPosition d gameTable noBalls middleDraws 0
                   = (Some pos, 2%nat)).
  { rewrite <- Hfind. apply findSafeLoop_obstacles. exact Hnil. }
  assert (Hdue : spawnDue (withSpawnTimer d (S (spawnTimer d))) noBalls = true).
  { unfold spawnDue. cbn [withSpawnTimer spawnRate spawnTimer obstacles maxObstacles].
    rewrite Hrate, Ht, Hnil, Hmax. reflexivity. }
  destruct (update_spawns _ _ _ _ _ _ _ Hen Hdue Hfind') as [Hobs _].
  rewrite Hobs, Hnil. cbn [app flat_map]. rewrite app_nil_r.
  destruct (survivors_new d pos) as (o & Ho & Ox & Oy & Oa & Op); [lia|].
  exists o. rewrite Ho, Ox, Oy. repeat split; assumption.
Qed.

(** With no ball on the table and every draw 1/2, the game's first obstacle
    appears in frame 420, at the centre of the table, in its warning
    phase. *)
Lemma first_obstacle_appears :
  exists o,
    obstacles stateAfterFrame420 = [o]
    /\ o_x o = 600 /\ o_y o = 300 /\ age o = 1%nat /\ phase o = warning.
Proof.
  destruct (reachable_container _ _ _ _ afterFrame419_reachable) as (Hset & _ & _).
  destruct (runFrames_waiting gameTable middleDraws (repeat noBalls 419)
              DynamicObstacles.constructor 0 eq_refl)
    as (Hk & Ht & Hlen & Hen).
  { rewrite repeat_length. apply Nat.ltb_lt. reflexivity. }
  rewrite <- afterFrame419_eq in Hk, Ht, Hlen, Hen.
  rewrite repeat_length in Ht.
  assert (Hnil : obstacles (fst afterFrame419) = []).
  { destruct (obstacles (fst afterFrame419)); [reflexivity|].
    exfalso. apply (Nat.nle_succ_0 _ Hlen). }
  unfold stateAfterFrame420. rewrite Hk.
  apply first_spawn_from; assumption.
Qed.

(** X8.  In every state reached from the constructor by calls of [update]
    and [toggle], the settings are the constructor's, the container holds at
    most [maxObstacles] = 2 obstacles, and it is empty while the system is
    disabled. *)
Theorem obstacle_container_bounded (tb : Table) (rnd : Rand) (d : DynamicObstacles.t)
    (k : nat) :
  Reachable tb rnd d k ->
  constructorSettings d
  /\ (length (obstacles d) <= 2)%nat
  /\ (enabled d = false -> obstacles d = []).
Proof.
  intros Hreach.
  destruct (reachable_container tb rnd d k Hreach) as (Hset & Hlen & Hoff).
  split; [exact Hset|]. split; [|exact Hoff].
  destruct Hset as (_ & Hmax & _). rewrite Hmax in Hlen. exact Hlen.
Qed.

Lemma obstacle_container_bounded_witness :
  Reachable gameTable middleDraws stateAfterFrame420 drawsAfterFrame420
  /\ (length (obstacles stateAfterFrame420) <= 2)%nat.
Proof.
  split; [exact afterFrame420_reachable|].
  exact (proj1 (proj2 (obstacle_container_bounded gameTable middleDraws stateAfterFrame420
                         drawsAfterFrame420 afterFrame420_reachable))).
Defined.

(** *** Soundness of the obstacles *)

Lemma ageObstacle_flags (d : DynamicObstacles.t) (o : Obstacle) :
  o_body o = o_active o ->
  (o_active o = true <-> phase o = active) ->
  phase o = phaseAt d (age o) ->
  (S (age o) <= maxAge o)%nat ->
  o_body (ageObstacle d o) = o_active (ageObstacle d o)
  /\ (o_active (ageObstacle d o) = true <-> phase (ageObstacle d o) = active).
Proof.
  intros Hb Ha Hp Hm.
  unfold ageObstacle, updateObstaclePhase. cbn -[Nat.leb Nat.add].
  unfold phaseAt in Hp.
  destruct (S (age o) <=? warningTime d)%nat eqn:E1.
  - apply Nat.leb_le in E1.
    assert (E0 : (age o <=? warningTime d)%nat = true) by (apply Nat.leb_le; lia).
    rewrite E0 in Hp. cbn. split; [exact Hb|].
    rewrite Hp in Ha. split; intros X; [apply Ha in X; discriminate | discriminate].
  - apply Nat.leb_gt in E1.
    destruct (S (age o) <=? warningTime d + activeTime d)%nat eqn:E2.
    + apply Nat.leb_le in E2.
      destruct (phase o) eqn:Eph; cbn.
      * split; [reflexivity | tauto].
      * split; [exact Hb|]. split; [reflexivity | intros _; apply Ha; reflexivity].
      * exfalso.
        destruct (age o <=? warningTime d)%nat; [discriminate|].
        destruct (age o <=? warningTime d + activeTime d)%nat eqn:E3; [discriminate|].
        apply Nat.leb_gt in E3. lia.
    + apply Nat.leb_le in Hm. rewrite Hm.
      destruct (phase o) eqn:Eph; cbn.
      * split; [exact Hb|]. split; intros X; [apply Ha in X; discriminate | discriminate].
      * split; [reflexivity|]. split; discriminate.
      * split; [exact Hb|]. split; intros X; [apply Ha in X; discriminate | discriminate].
Qed.

Lemma survivors_sound (d : DynamicObstacles.t) (o : Obstacle) :
  obstacleSound d o -> Forall (obstacleSound d) (survivors d o).
Proof.
  intros (Hm & Hle & Hp & Hb & Ha).
  unfold survivors, tickObstacle, expired.
  destruct (ageObstacle_fields d o) as (Fa & Fm & _ & _ & Fp).
  rewrite Fa, Fm.
  destruct (maxAge o <? S (age o))%nat eqn:E; [constructor|].
  apply Nat.ltb_ge in E. constructor; [|constructor].
  destruct (ageObstacle_flags d o Hb Ha Hp E) as [Hb' Ha'].
  unfold obstacleSound.
  split; [rewrite Fm; exact Hm|]. split; [rewrite Fa, Fm; exact E|].
  split; [|split; assumption].
  rewrite Fp, Fa. unfold phaseAt. rewrite Hm in E.
  destruct (S (age o) <=? warningTime d)%nat; [reflexivity|].
  destruct (S (age o) <=? warningTime d + activeTime d)%nat; [reflexivity|].
  apply Nat.leb_le in E. rewrite Hm, E. reflexivity.
Qed.

Lemma obstacleSound_timing (d d' : DynamicObstacles.t) (o : Obstacle) :
  warningTime d' = warningTime d -> activeTime d' = activeTime d ->
  fadeTime d' = fadeTime d ->
  obstacleSound d o -> obstacleSound d' o.
Proof.
  intros HW HA HF. unfold obstacleSound, phaseAt.
  rewrite HW, HA, HF. tauto.
Qed.

Lemma newObstacle_sound (d : DynamicObstacles.t) (pos : Vector) :
  obstacleSound d (newObstacle d pos).
Proof.
  unfold obstacleSound, phaseAt, newObstacle. cbn.
  split; [reflexivity|]. split; [lia|]. split; [reflexivity|]. split; [reflexivity|].
  split; discriminate.
Qed.

(** X9.  In every reachable state each obstacle of the container has
    [maxAge] equal to the sum of the three phase times and an age not above
    it, is in the phase its age calls for, and has its physics body and its
    [active] flag exactly when it is in the active phase. *)
Theorem reachable_obstacles_sound (tb : Table) (rnd : Rand) (d : DynamicObstacles.t)
    (k : nat) :
  Reachable tb rnd d k -> Forall (obstacleSound d) (obstacles d).
Proof.
  intros Hreach. induction Hreach as [k|d k bm _ IH|d k _ IH].
  - constructor.
  - destruct (enabled d) eqn:He.
    2:{ unfold update. rewrite He. exact IH. }
    destruct (update_result d tb bm rnd k He) as (obs2 & Hobs2 & Hobs & Hsame).
    rewrite Hobs.
    assert (H2 : Forall (obstacleSound d) obs2).
    { destruct Hobs2 as [->|(pos & k' & _ & _ & ->)]; [exact IH|].
      apply Forall_app. split; [exact IH|].
      constructor; [apply newObstacle_sound | constructor]. }
    assert (H3 : Forall (obstacleSound d) (flat_map (survivors d) obs2)).
    { clear Hobs Hobs2. induction H2 as [|o rest Ho _ IHr]; [constructor|].
      cbn [flat_map]. apply Forall_app. split; [apply survivors_sound; exact Ho | exact IHr]. }
    destruct Hsame as (_ & _ & HW & HA & HF & _).
    eapply Forall_impl; [|exact H3].
    intros o. apply obstacleSound_timing; assumption.
  - unfold toggle. destruct (enabled d); [constructor|].
    eapply Forall_impl; [|exact IH]. intros o. apply obstacleSound_timing; reflexivity.
Qed.

Lemma reachable_obstacles_sound_witness :
  Reachable gameTable middleDraws stateAfterFrame420 drawsAfterFrame420
  /\ Forall (obstacleSound stateAfterFrame420) (obstacles stateAfterFrame420).
Proof.
  split; [exact afterFrame420_reachable|].
  exact (reachable_obstacles_sound gameTable middleDraws stateAfterFrame420
           drawsAfterFrame420 afterFrame420_reachable).
Defined.

(** ** Where a new obstacle may appear *)

Lemma existsb_false_Forall {A : Type} (f : A -> bool) (l : list A) :
  existsb f l = false -> Forall (fun a => f a = false) l.
Proof.
  induction l as [|a l IH]; intros H; [constructor|].
  simpl in H. apply orb_false_iff in H. destruct H as [Ha Hl].
  constructor; [exact Ha | apply IH; exact Hl].
Qed.

Lemma findSafeLoop_accepted (d : DynamicObstacles.t) tb bm rnd n :
  forall k pos k',
    findSafeLoop d tb bm rnd n k = (Some pos, k') ->
    rejected d tb bm (vx pos) (vy pos) = false.
Proof.
  induction n as [|n IH]; intros k pos k' H; [discriminate|].
  cbn [findSafeLoop] in H. destruct (candidate tb rnd k) as [x y].
  destruct (rejected d tb bm x y) eqn:E.
  - apply (IH _ _ _ H).
  - injection H as <- _. exact E.
Qed.

Lemma rejected_false_clear (d : DynamicObstacles.t) tb bm x y :
  rejected d tb bm x y = false -> clearOfEverything d tb bm x y.
Proof.
  unfold rejected, clearOfEverything.
  destruct (isInDZone tb x y); [discriminate|].
  destruct (tooCloseToPockets tb x y) eqn:EP; [discriminate|].
  intros HB. unfold tooCloseToBalls in HB.
  apply orb_false_iff in HB. destruct HB as [HB Hobs].
  apply orb_false_iff in HB. destruct HB as [HB Hcol].
  apply orb_false_iff in HB. destruct HB as [Hcue Hred].
  split; [reflexivity|]. split; [|split].
  - apply existsb_false_Forall in EP.
    eapply Forall_impl; [|exact EP]. intros pocket Hp. apply Rltb_false in Hp. exact Hp.
  - assert (Hnear : forall ball, ballNear x y ball = false ->
                      forall bd, body ball = Some bd ->
                        80 <= P5.dist x y (vx (position bd)) (vy (position bd))).
    { intros ball Hn bd Hb. unfold ballNear in Hn. rewrite Hb in Hn.
      apply Rltb_false in Hn. exact Hn. }
    unfold ballsOf. constructor; [apply Hnear; exact Hcue|].
    apply Forall_app. split.
    + apply existsb_false_Forall in Hred.
      eapply Forall_impl; [|exact Hred]. intros ball. apply Hnear.
    + apply existsb_false_Forall in Hcol.
      eapply Forall_impl; [|exact Hcol]. intros ball. apply Hnear.
  - apply existsb_false_Forall in Hobs.
    eapply Forall_impl; [|exact Hobs]. intros o Ho. apply Rltb_false in Ho. exact Ho.
Qed.

(** X10.  A position returned by [findSafeSpawnPosition] is outside the D
    zone, at least 70 from every pocket, at least 80 from every ball that
    has a body and at least 100 from every obstacle already in the
    container. *)
Theorem spawn_position_clear (d : DynamicObstacles.t) (tb : Table) (bm : BallManager)
    (rnd : Rand) (k : nat) (pos : Vector) (k' : nat) :
  findSafeSpawnPosition d tb bm rnd k = (Some pos, k') ->
  clearOfEverything d tb bm (vx pos) (vy pos).
Proof.
  intros H. apply rejected_false_clear.
  apply (findSafeLoop_accepted d tb bm rnd maxAttempts k pos k' H).
Qed.

Lemma spawn_position_clear_witness :
  exists pos,
    findSafeSpawnPosition DynamicObstacles.constructor gameTable noBalls middleDraws 0
    = (Some pos, 2%nat)
    /\ clearOfEverything DynamicObstacles.constructor gameTable noBalls (vx pos) (vy pos).
Proof.
  destruct findSafeSpawnPosition_centre as (pos & E & _).
  exists pos. split; [exact E|].
  exact (spawn_position_clear _ _ _ _ _ _ _ E).
Defined.

(** ** Obstacles keep apart *)







(** ** The gradual push *)



(** ** [map] *)

(** [map] sends the ends of the source range to the ends of the target
    range, is undone by mapping back, and takes a value of the source range
    into the target range, also when the target range is given from high to
    low as for the push force. *)
Lemma map_interpolates (n start1 stop1 start2 stop2 : R) :
  start1 < stop1 ->
  P5.map start1 start1 stop1 start2 stop2 = start2
  /\ P5.map stop1 start1 stop1 start2 stop2 = stop2
  /\ (start2 <> stop2 ->
      P5.map (P5.map n start1 stop1 start2 stop2) start2 stop2 start1 stop1 = n)
  /\ (start1 <= n <= stop1 -> stop2 <= start2 ->
      stop2 <= P5.map n start1 stop1 start2 stop2 <= start2)
  /\ (start1 <= n <= stop1 -> start2 <= stop2 ->
      start2 <= P5.map n start1 stop1 start2 stop2 <= stop2).
Proof.
  intros H1. unfold P5.map.
  assert (Hd : stop1 - start1 <> 0) by lra.
  split; [field; exact Hd|]. split; [field; exact Hd|]. split; [|split].
  - intros H2. field. split; lra.
  - intros Hn H2.
    set (u := (n - start1) / (stop1 - start1)).
    assert (Hu : 0 <= u <= 1).
    { unfold u. split.
      - apply Rmult_le_pos; [lra | left; apply Rinv_0_lt_compat; lra].
      - apply Rmult_le_reg_r with (r := stop1 - start1); [lra|].
        unfold Rdiv. rewrite Rmult_assoc, Rinv_l by exact Hd. lra. }
    assert (0 <= u * (start2 - stop2)) by (apply Rmult_le_pos; lra).
    assert (u * (start2 - stop2) <= 1 * (start2 - stop2))
      by (apply Rmult_le_compat_r; lra).
    lra.
  - intros Hn H2.
    set (u := (n - start1) / (stop1 - start1)).
    assert (Hu : 0 <= u <= 1).
    { unfold u. split.
      - apply Rmult_le_pos; [lra | left; apply Rinv_0_lt_compat; lra].
      - apply Rmult_le_reg_r with (r := stop1 - start1); [lra|].
        unfold Rdiv. rewrite Rmult_assoc, Rinv_l by exact Hd. lra. }
    assert (0 <= u * (stop2 - start2)) by (apply Rmult_le_pos; lra).
    assert (u * (stop2 - start2) <= 1 * (stop2 - start2))
      by (apply Rmult_le_compat_r; lra).
    lra.
Qed.

Lemma mag_polar (a s : R) : Vec.mag (createVector (cos a * s) (sin a * s)) = Rabs s.
Proof.
  unfold Vec.mag. cbn [vx vy].
  replace (cos a * s * (cos a * s) + sin a * s * (sin a * s))
    with (Rsqr s * (Rsqr (sin a) + Rsqr (cos a))) by (unfold Rsqr; ring).
  rewrite sin2_cos2, Rmult_1_r. apply sqrt_Rsqr_abs.
Qed.

Lemma mag_triangle (a b : Vector) : Vec.mag (Vec.add a b) <= Vec.mag a + Vec.mag b.
Proof.
  unfold Vec.mag, Vec.add. cbn [vx vy].
  destruct a as [a1 a2], b as [b1 b2]. cbn [vx vy].
  set (p := sqrt (a1 * a1 + a2 * a2)). set (q := sqrt (b1 * b1 + b2 * b2)).
  assert (Hp : 0 <= p) by apply sqrt_pos.
  assert (Hq : 0 <= q) by apply sqrt_pos.
  assert (Hpp : p * p = a1 * a1 + a2 * a2) by (apply sqrt_sqrt; nra).
  assert (Hqq : q * q = b1 * b1 + b2 * b2) by (apply sqrt_sqrt; nra).
  assert (Hcs : a1 * b1 + a2 * b2 <= p * q).
  { destruct (Rle_dec (a1 * b1 + a2 * b2) 0) as [Hn|Hn].
    - apply Rle_trans with 0; [exact Hn | apply Rmult_le_pos; assumption].
    - apply Rsqr_incr_0_var; [|apply Rmult_le_pos; assumption].
      unfold Rsqr.
      replace (p * q * (p * q)) with ((p * p) * (q * q)) by ring.
      rewrite Hpp, Hqq.
      assert (0 <= (a1 * b2 - a2 * b1) * (a1 * b2 - a2 * b1)) by apply Rle_0_sqr.
      lra. }
  rewrite <- (sqrt_square (p + q)) by lra.
  apply sqrt_le_1_alt. lra.
Qed.

(** X13.  A ball with a body between 5 and the interaction radius away,
    slow enough for the cap of 10 not to apply, is kicked by [pushBallAway]
    with a velocity change of magnitude 0.3 times the push force; that force
    lies between [minPushForce] and [maxPushForce] and is the larger the
    nearer the ball is. *)
Theorem pushBallAway_kick (d : DynamicObstacles.t) (ball : Ball) (o : Obstacle)
    (distance : R) (bd : Body) :
  body ball = Some bd ->
  5 < interactionRadius d ->
  0 <= minPushForce d <= maxPushForce d ->
  5 <= distance <= interactionRadius d ->
  Vec.mag (getVelocity ball) + 0.3 * maxPushForce d <= 10 ->
  let force := P5.map distance 5 (interactionRadius d) (maxPushForce d) (minPushForce d) in
  minPushForce d <= force <= maxPushForce d
  /\ Vec.mag (Vec.sub (getVelocity (pushBallAway d ball o distance)) (getVelocity ball))
     = 0.3 * force
  /\ (forall nearer, 5 <= nearer <= distance ->
       force <= P5.map nearer 5 (interactionRadius d) (maxPushForce d) (minPushForce d)).
Proof.
  intros Hb HR HF Hd Hslow force.
  destruct (map_interpolates distance 5 (interactionRadius d) (maxPushForce d)
              (minPushForce d) HR) as (_ & _ & _ & Hrange & _).
  assert (Hforce : minPushForce d <= force <= maxPushForce d)
    by (apply Hrange; [exact Hd | apply HF]).
  split; [exact Hforce|]. split.
  - unfold pushBallAway. rewrite Hb. cbv zeta. fold force.
    set (pushAngle := P5.atan2 (vy (position bd) - o_y o) (vx (position bd) - o_x o)
                      + sin (rotationAngle o * 2) * 0.2).
    set (kick := createVector (cos pushAngle * (force * 0.3)) (sin pushAngle * (force * 0.3))).
    assert (Hkick : Vec.mag kick = 0.3 * force).
    { unfold kick. rewrite mag_polar. rewrite Rabs_pos_eq; lra. }
    pose proof (mag_triangle (getVelocity ball) kick) as Htri.
    rewrite Hkick in Htri.
    unfold Vec.mag at 1, Vec.add in Htri. cbn [vx vy kick] in Htri.
    replace (vx (getVelocity ball) + cos pushAngle * force * 0.3)
      with (vx (getVelocity ball) + cos pushAngle * (force * 0.3)) by ring.
    replace (vy (getVelocity ball) + sin pushAngle * force * 0.3)
      with (vy (getVelocity ball) + sin pushAngle * (force * 0.3)) by ring.
    destruct (Rgtb _ 10) eqn:Hcap.
    { apply Rgtb_true in Hcap. exfalso. lra. }
    unfold setVelocity, getVelocity. rewrite Hb. cbn [body velocity].
    rewrite <- Hkick. unfold Vec.mag, Vec.sub, kick. cbn [vx vy]. f_equal. ring.
  - intros nearer Hn. unfold force, P5.map.
    assert (Hden : 0 < interactionRadius d - 5) by lra.
    assert (Hdiff : minPushForce d - maxPushForce d <= 0) by lra.
    assert (Hle : (nearer - 5) / (interactionRadius d - 5)
                  <= (distance - 5) / (interactionRadius d - 5)).
    { apply Rmult_le_compat_r; [left; apply Rinv_0_lt_compat; exact Hden | lra]. }
    apply Rplus_le_compat_r.
    apply Rmult_le_compat_neg_l with (r := minPushForce d - maxPushForce d) in Hle;
      [|exact Hdiff].
    lra.
Qed.

Lemma pushBallAway_kick_witness :
  let d := DynamicObstacles.constructor in
  let ball := mkBall 630 300 (Some (mkBody (createVector 630 300) (createVector 0 0))) in
  let o := newObstacle d (createVector 600 300) in
  1.5 <= P5.map 30 5 60 6 1.5 <= 6
  /\ Vec.mag (Vec.sub (getVelocity (pushBallAway d ball o 30)) (getVelocity ball))
     = 0.3 * P5.map 30 5 60 6 1.5.
Proof.
  cbv zeta.
  destruct (pushBallAway_kick DynamicObstacles.constructor
              (mkBall 630 300 (Some (mkBody (createVector 630 300) (createVector 0 0))))
              (newObstacle DynamicObstacles.constructor (createVector 600 300))
              30 (mkBody (createVector 630 300) (createVector 0 0)))
    as (Ha & Hb & _).
  - reflexivity.
  - cbn. lra.
  - cbn. lra.
  - cbn. lra.
  - unfold getVelocity, Vec.mag. cbn.
    replace (0 * 0 + 0 * 0) with 0 by ring. rewrite sqrt_0. lra.
  - split; [exact Ha | exact Hb].
Defined.

(** ** After an interaction pass *)

Lemma distanceTo_nonneg (o : Obstacle) (ball : Ball) : 0 <= distanceTo o ball.
Proof. unfold distanceTo, P5.dist. apply sqrt_pos. Qed.

Lemma interactWithBall_out (d : DynamicObstacles.t) (o : Obstacle) (ball : Ball) :
  emergencyRadius d <= escapeDistance ->
  outOfEmergencyZone d o (interactWithBall d o ball).
Proof.
  intros HE bd' Hb'.
  destruct (body ball) as [bd|] eqn:Hb.
  2:{ unfold interactWithBall in Hb'. rewrite Hb in Hb'. congruence. }
  destruct (interactWithBall_cases d o ball bd Hb) as (Hnear & Hfar & _).
  pose proof (distanceTo_nonneg o ball) as H0.
  destruct (Rlt_dec 0 (distanceTo o ball)) as [Hpos|Hz].
  - destruct (Rlt_dec (distanceTo o ball) (emergencyRadius d)) as [Hin|Hout].
    + right. destruct (Hnear (conj Hpos Hin)) as [Hp _].
      unfold distanceTo. rewrite Hp. cbn [vx vy].
      rewrite dist_polar by (unfold escapeDistance; lra). exact HE.
    + right. unfold distanceTo at 1. rewrite Hfar by (right; lra).
      fold (distanceTo o ball). lra.
  - left. unfold distanceTo at 1. rewrite Hfar by (left; lra).
    fold (distanceTo o ball). lra.
Qed.

(** X14.  With an emergency radius not above the escape distance and the
    interaction radius (25, 40 and 60 in the code), a pass of
    [handleBallInteractions] keeps the number of balls, leaves every ball
    that has no body or is at least the interaction radius away as it is,
    sends every ball strictly inside the emergency radius off at speed 3,
    and leaves no ball with a body inside the emergency radius, except on
    the very centre of the obstacle. *)
Theorem pass_clears_emergency_zone (d : DynamicObstacles.t) (o : Obstacle)
    (bm : BallManager) :
  emergencyRadius d <= escapeDistance ->
  emergencyRadius d <= interactionRadius d ->
  length (ballsOf (handleBallInteractions d o bm)) = length (ballsOf bm)
  /\ Forall (outOfEmergencyZone d o) (ballsOf (handleBallInteractions d o bm))
  /\ (forall i ball,
        nth_error (ballsOf bm) i = Some ball ->
        body ball = None \/ interactionRadius d <= distanceTo o ball ->
        nth_error (ballsOf (handleBallInteractions d o bm)) i = Some ball)
  /\ (forall i ball,
        nth_error (ballsOf bm) i = Some ball ->
        body ball <> None -> 0 < distanceTo o ball < emergencyRadius d ->
        exists ball',
          nth_error (ballsOf (handleBallInteractions d o bm)) i = Some ball'
          /\ Vec.mag (getVelocity ball') = 3).
Proof.
  intros HE HI. rewrite handleBallInteractions_each.
  split; [apply length_map|]. split; [|split].
  - apply Forall_map. apply Forall_forall. intros ball _.
    apply interactWithBall_out. exact HE.
  - intros i ball Hi Hfar. rewrite nth_error_map, Hi. cbn. f_equal.
    destruct (body ball) as [bd|] eqn:Hb.
    + destruct Hfar as [Hn|Hfar]; [discriminate|].
      destruct (interactWithBall_cases d o ball bd Hb) as (_ & _ & Hsame).
      apply Hsame; lra.
    + unfold interactWithBall. rewrite Hb. reflexivity.
  - intros i ball Hi Hb Hin. rewrite nth_error_map, Hi. cbn.
    eexists. split; [reflexivity|].
    destruct (body ball) as [bd|] eqn:Hbd; [|congruence].
    destruct (interactWithBall_cases d o ball bd Hbd) as (Hnear & _ & _).
    destruct (Hnear Hin) as [_ Hv]. rewrite Hv. unfold Vec.mag. cbn [vx vy].
    match goal with
    | |- sqrt (cos ?a * 3 * (cos ?a * 3) + sin ?a * 3 * (sin ?a * 3)) = 3 =>
      replace (cos a * 3 * (cos a * 3) + sin a * 3 * (sin a * 3))
        with (3 * 3 * (Rsqr (sin a) + Rsqr (cos a))) by (unfold Rsqr; ring);
      rewrite sin2_cos2, Rmult_1_r
    end.
    apply sqrt_square; lra.
Qed.

Lemma pass_clears_emergency_zone_witness :
  Forall (outOfEmergencyZone DynamicObstacles.constructor activeObstacleAtCentre)
         (ballsOf (handleBallInteractions DynamicObstacles.constructor
                     activeObstacleAtCentre (loneCueBall 603 304))).
Proof.
  destruct (pass_clears_emergency_zone DynamicObstacles.constructor activeObstacleAtCentre
              (loneCueBall 603 304)) as (_ & H & _).
  - unfold escapeDistance; simpl; lra.
  - simpl; lra.
  - exact H.
Defined.

(** ** Obstacles that are not active *)

(** X15.  With a fading time of at least one frame, a pass of
    [updateObstacles] over sound obstacles none of which has an age from
    [warningTime] to [warningTime + activeTime - 1] leaves every ball as it
    is: obstacles touch balls only in frames that end in their active
    phase. *)
Theorem inactive_obstacles_leave_balls (d : DynamicObstacles.t) (obs : list Obstacle)
    (bm : BallManager) :
  (0 < fadeTime d)%nat ->
  Forall (obstacleSound d) obs ->
  Forall (fun o => (age o < warningTime d)%nat
                   \/ (warningTime d + activeTime d <= age o)%nat) obs ->
  snd (updateObstaclesList d obs bm) = bm.
Proof.
  intros HF Hsound Hage. induction obs as [|o rest IH]; [reflexivity|].
  inversion Hsound as [|? ? Ho Hrest]; subst.
  inversion Hage as [|? ? Ha Harest]; subst.
  specialize (IH Hrest Harest).
  cbn [updateObstaclesList].
  destruct (updateObstaclesList d rest bm) as [rest' bm']. cbn [snd] in IH. subst bm'.
  assert (Hph : phase (ageObstacle d o) <> active).
  { destruct (ageObstacle_fields d o) as (_ & _ & _ & _ & ->).
    destruct Ho as (Hm & Hle & Hp & _).
    destruct (S (age o) <=? warningTime d)%nat eqn:E1; [discriminate|].
    apply Nat.leb_gt in E1.
    destruct (S (age o) <=? warningTime d + activeTime d)%nat eqn:E2.
    { apply Nat.leb_le in E2. lia. }
    destruct (S (age o) <=? maxAge o)%nat eqn:E3; [discriminate|].
    apply Nat.leb_gt in E3. rewrite Hp. unfold phaseAt.
    destruct (age o <=? warningTime d)%nat eqn:E4; [apply Nat.leb_le in E4; lia|].
    destruct (age o <=? warningTime d + activeTime d)%nat eqn:E5;
      [apply Nat.leb_le in E5; lia | discriminate]. }
  destruct (phase (ageObstacle d o)); try reflexivity. congruence.
Qed.

Lemma inactive_obstacles_leave_balls_witness :
  snd (updateObstaclesList DynamicObstacles.constructor
         [newObstacle DynamicObstacles.constructor (createVector 600 300)]
         (loneCueBall 603 304))
  = loneCueBall 603 304.
Proof.
  apply inactive_obstacles_leave_balls.
  - simpl; lia.
  - constructor; [apply newObstacle_sound | constructor].
  - constructor; [left; simpl; lia | constructor].
Defined.

(** * Cue *)

Lemma charge_state (c : Cue) (n : nat) :
  c_visible c = true ->
  CueOps.charge CueOps.initialMaxPower n (CueOps.startCharging c)
  = mkCue (angle c) true (IZR (Z.of_nat (Nat.min (2 * n) 100))) true.
Proof.
  intros Hv. induction n as [|n IH].
  - simpl. unfold CueOps.startCharging. rewrite Hv. reflexivity.
  - cbn [CueOps.charge]. rewrite IH. unfold CueOps.updatePower, CueOps.initialMaxPower.
    cbn [charging power angle c_visible andb].
    destruct (Nat.lt_ge_cases (2 * n) 100) as [Hlt|Hge].
    + assert (E : Rltb (IZR (Z.of_nat (Nat.min (2 * n) 100))) 100 = true).
      { apply Rltb_true. apply IZR_lt. lia. }
      rewrite E. f_equal. rewrite <- plus_IZR. f_equal. lia.
    + assert (E : Rltb (IZR (Z.of_nat (Nat.min (2 * n) 100))) 100 = false).
      { apply Rltb_false. apply IZR_le. lia. }
      rewrite E. f_equal. f_equal. lia.
Qed.

(** X16.  Charging a visible cue starts from power 0, and after [n] frames
    of [updatePower] with the constructor's [maxPower] of 100 the power is
    [2 n], capped at 100; [stopCharging] then returns that power and leaves
    the cue at power 0, not charging. *)
Theorem cue_power_while_charging (c : Cue) (n : nat) :
  c_visible c = true ->
  let charged := CueOps.charge CueOps.initialMaxPower n (CueOps.startCharging c) in
  getCurrentPower charged = INR (Nat.min (2 * n) 100)
  /\ 0 <= getCurrentPower charged <= 100
  /\ isCharging charged = true
  /\ fst (CueOps.stopCharging charged) = INR (Nat.min (2 * n) 100)
  /\ getCurrentPower (snd (CueOps.stopCharging charged)) = 0
  /\ isCharging (snd (CueOps.stopCharging charged)) = false.
Proof.
  intros Hv charged. unfold charged. rewrite (charge_state c n Hv).
  unfold getCurrentPower, isCharging, CueOps.stopCharging. cbn [power charging fst snd].
  rewrite INR_IZR_INZ.
  repeat split; try reflexivity.
  - apply IZR_le. lia.
  - apply IZR_le. lia.
Qed.

Lemma cue_power_while_charging_witness :
  getCurrentPower (CueOps.charge CueOps.initialMaxPower 60
                     (CueOps.startCharging (mkCue 0 true 37 false))) = 100.
Proof.
  destruct (cue_power_while_charging (mkCue 0 true 37 false) 60 eq_refl) as (H & _).
  rewrite H. rewrite INR_IZR_INZ. reflexivity.
Defined.

(** X17.  The launch velocity used by the prediction has magnitude 6 when
    the cue is not charging, and [2 + power / 10] when it is charging with a
    power from 0 to 100: between 2 and 12, never 0. *)
Theorem launch_speed (cue : Cue) :
  (isCharging cue = false -> Vec.mag (launchVelocity cue) = 6)
  /\ (isCharging cue = true -> 0 <= getCurrentPower cue <= 100 ->
      Vec.mag (launchVelocity cue) = 2 + getCurrentPower cue / 10
      /\ 2 <= Vec.mag (launchVelocity cue) <= 12).
Proof.
  unfold launchVelocity. split.
  - intros ->. rewrite mag_polar. apply Rabs_pos_eq; lra.
  - intros -> Hp. rewrite mag_polar. unfold P5.map.
    replace ((getCurrentPower cue / 100 - 0) / (1 - 0) * (12 - 2) + 2)
      with (2 + getCurrentPower cue / 10) by field.
    rewrite Rabs_pos_eq by lra. split; [reflexivity | lra].
Qed.

(** X18.  [shoot] does nothing to a cue ball without a body (the cue stays
    as it is).  Otherwise it hides the cue, keeps the ball where it is and
    launches it at speed [map(power, 0, maxPower, 1, maxSpeed)] along the
    direction the prediction uses: the shot velocity is the prediction's
    launch velocity rescaled from the prediction's speed to the shot's. *)
Theorem shoot_along_predicted_direction (maxPower maxSpeed : R) (c : Cue)
    (cueBall : Ball) (shotPower : R) :
  let shotSpeed := P5.map shotPower 0 maxPower 1 maxSpeed in
  let predictedSpeed :=
    if isCharging c then P5.map (getCurrentPower c / 100) 0 1 2 12 else 6 in
  (body cueBall = None -> CueOps.shoot maxPower maxSpeed c cueBall shotPower = (c, cueBall))
  /\ (body cueBall <> None ->
      Cue_isVisible (fst (CueOps.shoot maxPower maxSpeed c cueBall shotPower)) = false
      /\ getPosition (snd (CueOps.shoot maxPower maxSpeed c cueBall shotPower))
         = getPosition cueBall
      /\ Vec.mag (getVelocity (snd (CueOps.shoot maxPower maxSpeed c cueBall shotPower)))
         = Rabs shotSpeed
      /\ Vec.mult (getVelocity (snd (CueOps.shoot maxPower maxSpeed c cueBall shotPower)))
                  predictedSpeed
         = Vec.mult (launchVelocity c) shotSpeed).
Proof.
  intros shotSpeed predictedSpeed. unfold CueOps.shoot.
  destruct (body cueBall) as [bd|] eqn:Hb.
  - split; [discriminate|]. intros _. fold shotSpeed.
    unfold setVelocity, getPosition, getVelocity, Cue_isVisible. rewrite Hb.
    cbn [fst snd c_visible body position velocity].
    split; [reflexivity|]. split; [reflexivity|]. split; [apply mag_polar|].
    unfold launchVelocity. fold predictedSpeed. unfold Vec.mult. cbn [vx vy]. f_equal; ring.
  - split; [reflexivity | congruence].
Qed.

(** * Showing the prediction *)

Lemma predict_flags (p : BallTrailPrediction.t) tb startPos v :
  BallTrailPrediction.enabled (predict p tb startPos v) = BallTrailPrediction.enabled p
  /\ visible (predict p tb startPos v) = visible p.
Proof.
  unfold predict. destruct (predictionLoop _ _ _ _ _ _ _) as [tr bf]. split; reflexivity.
Qed.

Lemma updateBallPrediction_shows (cueBallPlaced : bool) (cue : Cue) (bm : BallManager)
    (tb : Table) (p : BallTrailPrediction.t) :
  cueBallPlaced = true -> Cue_isVisible cue = true -> areBallsMoving bm = false ->
  body (getCueBall bm) <> None -> BallTrailPrediction.enabled p = true ->
  TrailView.isVisible (GameManager.updateBallPrediction cueBallPlaced cue bm tb p) = true.
Proof.
  intros -> Hv Hm Hb He. unfold GameManager.updateBallPrediction, BallManagerOps.hasBody.
  rewrite Hv, Hm. destruct (body (getCueBall bm)) as [bd|] eqn:Hbd; [|congruence].
  cbn [andb negb].
  destruct (calculatePrediction_cases p (getCueBall bm) cue tb)
    as [[_ [X|[X|X]]]|[E _]]; try congruence.
  rewrite E.
  destruct (predict_flags p tb (getPosition (getCueBall bm)) (launchVelocity cue))
    as [Een _].
  rewrite Een, He. unfold TrailView.isVisible, TrailView.show, TrailView.withFlags.
  cbn [visible BallTrailPrediction.enabled]. rewrite Een, He. reflexivity.
Qed.

(** X19.  After [updateBallPrediction], the prediction counts as visible
    only if the cue ball is placed and has a body, the cue is visible, no
    ball moves and the prediction is enabled; and then its trail is the one
    computed in this very call from the cue ball's position and the cue's
    launch velocity.  In every other case the prediction is not visible. *)
Theorem visible_prediction_is_fresh (cueBallPlaced : bool) (cue : Cue) (bm : BallManager)
    (tb : Table) (p : BallTrailPrediction.t) :
  let p' := GameManager.updateBallPrediction cueBallPlaced cue bm tb p in
  TrailView.isVisible p' = true ->
  cueBallPlaced = true /\ Cue_isVisible cue = true /\ areBallsMoving bm = false
  /\ body (getCueBall bm) <> None /\ BallTrailPrediction.enabled p = true
  /\ predictionTrail p'
     = predictionTrail (predict p tb (getPosition (getCueBall bm)) (launchVelocity cue))
  /\ predictionBounces p'
     = predictionBounces (predict p tb (getPosition (getCueBall bm)) (launchVelocity cue)).
Proof.
  intros p'. subst p'. unfold GameManager.updateBallPrediction, TrailView.isVisible.
  destruct cueBallPlaced, (Cue_isVisible cue) eqn:Hv, (areBallsMoving bm),
    (BallManagerOps.hasBody (getCueBall bm)) eqn:Hbody; cbn [andb negb];
    try (cbn; intros X; discriminate).
  unfold BallManagerOps.hasBody in Hbody.
  destruct (calculatePrediction_cases p (getCueBall bm) cue tb)
    as [[E [He|[Hb|Hc]]]|[E (He & Hb & Hc)]].
  - rewrite E. cbn. rewrite He. cbn. rewrite He. rewrite andb_false_r. discriminate.
  - rewrite Hb in Hbody. discriminate.
  - congruence.
  - rewrite E.
    destruct (predict_flags p tb (getPosition (getCueBall bm)) (launchVelocity cue))
      as [Een Evis].
    rewrite Een, He. intros _.
    repeat split; auto.
Qed.

Lemma visible_prediction_is_fresh_witness :
  predictionTrail
    (GameManager.updateBallPrediction true (mkCue 0 true 0 false) (loneCueBall 600 300)
       gameTable
       (withResult BallTrailPrediction.constructor [mkSample 1 1 3 1] 3))
  = predictionTrail
      (predict (withResult BallTrailPrediction.constructor [mkSample 1 1 3 1] 3)
         gameTable (getPosition (getCueBall (loneCueBall 600 300)))
         (launchVelocity (mkCue 0 true 0 false))).
Proof.
  destruct (visible_prediction_is_fresh true (mkCue 0 true 0 false) (loneCueBall 600 300)
              gameTable (withResult BallTrailPrediction.constructor [mkSample 1 1 3 1] 3))
    as (_ & _ & _ & _ & _ & H & _).
  - apply updateBallPrediction_shows; try reflexivity. discriminate.
  - exact H.
Defined.

(** X20.  [toggle] flips [enabled] and keeps the trail and the settings;
    switching the prediction off hides it, and after two toggles [enabled]
    is back to what it was while the trail is hidden, until [show] is called
    again. *)
Theorem prediction_toggle (p : BallTrailPrediction.t) :
  BallTrailPrediction.enabled (TrailView.toggle p) = negb (BallTrailPrediction.enabled p)
  /\ predictionTrail (TrailView.toggle p) = predictionTrail p
  /\ maxBounces (TrailView.toggle p) = maxBounces p
  /\ TrailView.isVisible (TrailView.toggle p)
     = negb (BallTrailPrediction.enabled p) && visible p
  /\ BallTrailPrediction.enabled (TrailView.toggle (TrailView.toggle p))
     = BallTrailPrediction.enabled p
  /\ visible (TrailView.toggle (TrailView.toggle p)) = false
  /\ TrailView.isVisible (TrailView.show (TrailView.toggle (TrailView.toggle p)))
     = BallTrailPrediction.enabled p.
Proof.
  destruct p as [ms ss mb st tr pb fc cr br en vi].
  unfold TrailView.toggle, TrailView.isVisible, TrailView.show, TrailView.hide,
    TrailView.withFlags.
  cbn [BallTrailPrediction.enabled visible predictionTrail maxBounces].
  destruct en, vi;
    cbn [negb andb BallTrailPrediction.enabled visible predictionTrail maxBounces];
    repeat split; reflexivity.
Qed.

(** * Placing balls *)

Lemma randomValidLoop_spec (t : Table) (rnd : nat -> R) (n : nat) :
  forall xy k,
    (exists i, (i < n)%nat
               /\ attemptValid t rnd k i = true
               /\ (forall j, (j < i)%nat -> attemptValid t rnd k j = false)
               /\ TableOps.randomValidLoop t rnd n xy k
                  = (TableOps.randomCandidate t rnd (k + 2 * i), (k + 2 * i + 2)%nat))
    \/ ((forall j, (j < n)%nat -> attemptValid t rnd k j = false)
        /\ TableOps.randomValidLoop t rnd n xy k
           = (match n with
              | O => xy
              | S m => TableOps.randomCandidate t rnd (k + 2 * m)
              end, (k + 2 * n)%nat)).
Proof.
  induction n as [|n IH]; intros xy k.
  - right. split; [intros j Hj; lia|]. simpl. f_equal. lia.
  - cbn [TableOps.randomValidLoop].
    destruct (TableOps.isValidBallPosition t (fst (TableOps.randomCandidate t rnd k))
                (snd (TableOps.randomCandidate t rnd k))) eqn:E.
    + left. exists 0%nat. unfold attemptValid.
      replace (k + 2 * 0)%nat with k by lia.
      split; [lia|]. split; [exact E|]. split; [intros j Hj; lia|].
      f_equal. lia.
    + destruct (IH (TableOps.randomCandidate t rnd k) (S (S k)))
        as [(i & Hi & Hv & Hbefore & Hres)|(Hall & Hres)].
      * left. exists (S i). unfold attemptValid in *.
        replace (k + 2 * S i)%nat with (S (S k) + 2 * i)%nat by lia.
        split; [lia|]. split; [exact Hv|]. split.
        -- intros j Hj. destruct j as [|j].
           ++ replace (k + 2 * 0)%nat with k by lia. exact E.
           ++ replace (k + 2 * S j)%nat with (S (S k) + 2 * j)%nat by lia.
              apply Hbefore. lia.
        -- rewrite Hres. f_equal.
      * right. split.
        -- intros j Hj. unfold attemptValid in *. destruct j as [|j].
           ++ replace (k + 2 * 0)%nat with k by lia. exact E.
           ++ replace (k + 2 * S j)%nat with (S (S k) + 2 * j)%nat by lia.
              apply Hall. lia.
        -- rewrite Hres. f_equal; [|lia].
           destruct n as [|m]; [f_equal; lia|].
           f_equal. lia.
Qed.

Lemma randomCandidate_inside (cw ch : R) (rnd : nat -> R) (k : nat) :
  (forall n, 0 <= rnd n < 1) ->
  inPlacementArea (Table_new cw ch)
                  (fst (TableOps.randomCandidate (Table_new cw ch) rnd k))
                  (snd (TableOps.randomCandidate (Table_new cw ch) rnd k)).
Proof.
  intros Hr. unfold inPlacementArea, TableOps.randomCandidate. cbn [fst snd].
  split; apply random_in_range; try apply Hr;
    unfold TableOps.t_ballRadius; simpl; lra.
Qed.

(** X21.  With draws in [0, 1), on a table built by the constructor,
    [getRandomValidPosition] makes at most 100 attempts and always returns a
    position of the placement area.  It returns the first candidate that
    [isValidBallPosition] accepts; when none of the 100 candidates is
    accepted it returns the last one all the same, a position that is not
    valid. *)
Theorem getRandomValidPosition_result (cw ch : R) (rnd : nat -> R) (k : nat) :
  (forall n, 0 <= rnd n < 1) ->
  let t := Table_new cw ch in
  let r := TableOps.getRandomValidPosition t rnd k in
  inPlacementArea t (fst (fst r)) (snd (fst r))
  /\ (snd r <= k + 200)%nat
  /\ (TableOps.isValidBallPosition t (fst (fst r)) (snd (fst r)) = true
      <-> exists i, (i < 100)%nat /\ attemptValid t rnd k i = true)
  /\ ((forall i, (i < 100)%nat -> attemptValid t rnd k i = false) ->
      r = (TableOps.randomCandidate t rnd (k + 198), (k + 200)%nat)
      /\ TableOps.isValidBallPosition t (fst (fst r)) (snd (fst r)) = false)
  /\ (forall i, (i < 100)%nat -> attemptValid t rnd k i = true ->
      (forall j, (j < i)%nat -> attemptValid t rnd k j = false) ->
      r = (TableOps.randomCandidate t rnd (k + 2 * i), (k + 2 * i + 2)%nat)).
Proof.
  intros Hr t r. subst r. unfold TableOps.getRandomValidPosition.
  destruct (randomValidLoop_spec t rnd 100 (0, 0) k)
    as [(i & Hi & Hv & Hbefore & Hres)|(Hall & Hres)]; rewrite Hres; cbn [fst snd].
  - split; [apply randomCandidate_inside; exact Hr|]. split; [lia|]. split; [|split].
    + split; [intros _; exists i; split; assumption | intros _; exact Hv].
    + intros Hnone. rewrite (Hnone i Hi) in Hv. discriminate.
    + intros i' Hi' Hv' Hbefore'.
      assert (i' = i).
      { destruct (Nat.lt_trichotomy i' i) as [Hlt|[He|Hgt]]; [|exact He|].
        - rewrite (Hbefore i' Hlt) in Hv'. discriminate.
        - rewrite (Hbefore' i Hgt) in Hv. discriminate. }
      subst i'. reflexivity.
  - replace (k + 2 * 99)%nat with (k + 198)%nat by lia.
    replace (k + 2 * 100)%nat with (k + 200)%nat by lia.
    pose proof (Hall 99%nat ltac:(lia)) as Hlast. unfold attemptValid in Hlast.
    replace (k + 2 * 99)%nat with (k + 198)%nat in Hlast by lia.
    split; [apply randomCandidate_inside; exact Hr|]. split; [lia|]. split; [|split].
    + split.
      * intros X. rewrite Hlast in X. discriminate.
      * intros (i & Hi & Hv). rewrite (Hall i Hi) in Hv. discriminate.
    + intros _. split; [reflexivity | exact Hlast].
    + intros i Hi Hv _. rewrite (Hall i Hi) in Hv. discriminate.
Qed.

Lemma randomCandidate_intoDZone (i : nat) :
  TableOps.randomCandidate gameTable drawsIntoDZoneForBalls (2 * i) = (340, 300).
Proof.
  unfold TableOps.randomCandidate, drawsIntoDZoneForBalls.
  rewrite Nat.even_succ, Nat.odd_mul, Nat.even_mul. cbn [Nat.even Nat.odd negb andb orb].
  rewrite !random_value by (unfold TableOps.t_ballRadius; simpl; lra).
  f_equal; unfold TableOps.t_ballRadius; simpl; lra.
Qed.

Lemma invalid_in_DZone : TableOps.isValidBallPosition gameTable 340 300 = false.
Proof.
  unfold TableOps.isValidBallPosition.
  assert (E : Rltb 340 (t_x gameTable + t_length gameTable * 0.25)
              && Rltb (P5.dist 340 300 (t_x gameTable + t_length gameTable * 0.25)
                         (t_y gameTable + t_width gameTable / 2)) 80 = true).
  { apply andb_true_iff. split; apply Rltb_true; [simpl; lra|].
    unfold P5.dist. simpl.
    match goal with |- sqrt ?e < _ => replace e with (10 * 10) by lra end.
    rewrite sqrt_square; lra. }
  cbv zeta. rewrite E. reflexivity.
Qed.

Lemma getRandomValidPosition_result_witness :
  TableOps.getRandomValidPosition gameTable drawsIntoDZoneForBalls 0
  = (TableOps.randomCandidate gameTable drawsIntoDZoneForBalls 198, 200%nat)
  /\ TableOps.isValidBallPosition gameTable
       (fst (fst (TableOps.getRandomValidPosition gameTable drawsIntoDZoneForBalls 0)))
       (snd (fst (TableOps.getRandomValidPosition gameTable drawsIntoDZoneForBalls 0)))
     = false.
Proof.
  assert (Hr : forall n, 0 <= drawsIntoDZoneForBalls n < 1).
  { intros n. unfold drawsIntoDZoneForBalls. destruct (Nat.even n); lra. }
  destruct (getRandomValidPosition_result 1200 600 drawsIntoDZoneForBalls 0 Hr)
    as (_ & _ & _ & Hnone & _).
  apply Hnone. intros i _. unfold attemptValid.
  change (0 + 2 * i)%nat with (2 * i)%nat.
  fold gameTable. rewrite randomCandidate_intoDZone. cbn [fst snd].
  exact invalid_in_DZone.
Defined.

Lemma dist_bounds_coordinates (x y cx cy r : R) :
  P5.dist x y cx cy <= r -> cx - r <= x <= cx + r /\ cy - r <= y <= cy + r.
Proof.
  unfold P5.dist. intros H.
  pose proof (Rle_0_sqr (cx - x)) as Ha. pose proof (Rle_0_sqr (cy - y)) as Hb.
  unfold Rsqr in Ha, Hb.
  set (e := (cx - x) * (cx - x) + (cy - y) * (cy - y)) in *.
  assert (He : 0 <= e) by (unfold e; lra).
  pose proof (sqrt_pos e) as Hs. pose proof (sqrt_sqrt e He) as Hss.
  assert (H0 : 0 <= r) by lra.
  assert (Hr : e <= r * r).
  { rewrite <- Hss. apply Rmult_le_compat; assumption. }
  assert (Hx : Rabs (cx - x) <= r).
  { rewrite <- (Rabs_pos_eq r H0). apply Rsqr_le_abs_0. unfold Rsqr, e in *. lra. }
  assert (Hy : Rabs (cy - y) <= r).
  { rewrite <- (Rabs_pos_eq r H0). apply Rsqr_le_abs_0. unfold Rsqr, e in *. lra. }
  pose proof (Rle_abs (cx - x)) as X1. pose proof (Rle_abs (- (cx - x))) as X2.
  pose proof (Rle_abs (cy - y)) as Y1. pose proof (Rle_abs (- (cy - y))) as Y2.
  rewrite Rabs_Ropp in X2, Y2. lra.
Qed.

(** X22.  On a table built by the constructor on a canvas wider than 660
    and higher than 160 (the game's is 1200 by 600), [placeCueBall] succeeds
    exactly for the points of the D zone; a refused call changes nothing,
    and a successful one leaves the cue ball with a body at rest at the
    point given, whatever body it had before, and the other balls as they
    were. *)
Theorem placeCueBall_in_DZone (cw ch : R) (bm : BallManager) (x y : R) :
  660 < cw -> 160 < ch ->
  let tb := Table_new cw ch in
  let r := BallManagerOps.placeCueBall bm x y tb in
  fst r = isInDZone tb x y
  /\ (fst r = false -> snd r = bm)
  /\ (fst r = true ->
      cueBall (snd r) = mkBall x y (Some (mkBody (createVector x y) (createVector 0 0)))
      /\ redBalls (snd r) = redBalls bm /\ coloredBalls (snd r) = coloredBalls bm).
Proof.
  intros Hw Hh tb r. subst r. unfold BallManagerOps.placeCueBall.
  destruct (isInDZone tb x y) eqn:HD; cbn [negb fst snd].
  2:{ split; [reflexivity|]. split; [reflexivity | discriminate]. }
  split; [reflexivity|]. split; [discriminate|]. intros _.
  split; [|split; reflexivity].
  unfold isInDZone in HD. apply andb_true_iff in HD. destruct HD as [_ HD].
  apply Rleb_true in HD. apply dist_bounds_coordinates in HD.
  unfold tb in HD. simpl in HD.
  assert (Hx : Rgtb x 0 = true) by (apply Rgtb_true; lra).
  assert (Hy : Rgtb y 0 = true) by (apply Rgtb_true; lra).
  unfold BallOps.createPhysicsBody, BallOps.removePhysicsBody, setPosition.
  destruct (cueBall bm) as [bx by_ [bd|]]; cbn [b_x b_y body cueBall];
    rewrite Hx, Hy; reflexivity.
Qed.

Lemma placeCueBall_in_DZone_witness :
  cueBall (snd (BallManagerOps.placeCueBall noBalls 340 300 gameTable))
  = mkBall 340 300 (Some (mkBody (createVector 340 300) (createVector 0 0))).
Proof.
  destruct (placeCueBall_in_DZone 1200 600 noBalls 340 300) as (Hok & _ & Hplaced);
    try lra.
  apply Hplaced. rewrite Hok. fold gameTable.
  unfold isInDZone. apply andb_true_iff. split; apply Rleb_true; [simpl; lra|].
  unfold P5.dist. simpl.
  match goal with |- sqrt ?e <= _ => replace e with (10 * 10) by lra end.
  rewrite sqrt_square; lra.
Defined.

(** * Ball *)

(** Reading back what was written to a ball: [getPosition] after
    [setPosition] gives the point set, with or without a body, and the
    velocity is kept; [getVelocity] after [setVelocity] gives the velocity
    set when the ball has a body, while on a ball without a body
    [setVelocity] does nothing and the velocity reads as zero; and
    [setVelocity] never moves the ball. *)
Lemma ball_position_velocity_round_trip (b : Ball) (x y u v : R) :
  getPosition (setPosition b x y) = createVector x y
  /\ getVelocity (setPosition b x y) = getVelocity b
  /\ getPosition (setVelocity b u v) = getPosition b
  /\ (body b <> None -> getVelocity (setVelocity b u v) = createVector u v)
  /\ (body b = None ->
      setVelocity b u v = b /\ getVelocity (setVelocity b u v) = createVector 0 0)
  /\ (body (setPosition b x y) = None <-> body b = None)
  /\ (body (setVelocity b u v) = None <-> body b = None).
Proof.
  unfold getPosition, getVelocity, setPosition, setVelocity.
  destruct b as [bx by_ [bd|]]; cbn [body b_x b_y position velocity];
    repeat split; try reflexivity; try congruence; try discriminate.
Qed.

(** * Movement flag *)

Lemma movement_flag (bm : BallManager) :
  areBallsMoving (BallManagerOps.updateBallMovementState bm)
  = existsb (fun ball => BallManagerOps.hasBody ball
                         && BallOps.isMoving ball BallManagerOps.speedThreshold)
            (ballsOf bm).
Proof.
  unfold BallManagerOps.updateBallMovementState, areBallsMoving, ballsOf,
    getCueBall, getRedBalls, getColoredBalls.
  cbn [ballsMoving existsb]. rewrite existsb_app, orb_assoc. reflexivity.
Qed.

(** X23.  [updateBallMovementState] keeps the balls and sets the flag from
    scratch: it is raised exactly when some ball that has a body is faster
    than 0.5, whatever the flag was before. *)
Theorem movement_flag_exact (bm : BallManager) :
  ballsOf (BallManagerOps.updateBallMovementState bm) = ballsOf bm
  /\ (areBallsMoving (BallManagerOps.updateBallMovementState bm) = true
      <-> exists ball, In ball (ballsOf bm) /\ body ball <> None
                       /\ 0.5 < BallOps.getSpeed ball).
Proof.
  split; [reflexivity|]. rewrite movement_flag, existsb_exists.
  split.
  - intros (ball & Hin & Hm). apply andb_true_iff in Hm. destruct Hm as [Hb Hs].
    exists ball. split; [exact Hin|]. split.
    + unfold BallManagerOps.hasBody in Hb. destruct (body ball); [discriminate|discriminate].
    + unfold BallOps.isMoving, BallManagerOps.speedThreshold in Hs.
      apply Rgtb_true in Hs. lra.
  - intros (ball & Hin & Hb & Hs). exists ball. split; [exact Hin|].
    apply andb_true_iff. split.
    + unfold BallManagerOps.hasBody. destruct (body ball); [reflexivity|congruence].
    + unfold BallOps.isMoving, BallManagerOps.speedThreshold. apply Rgtb_true. lra.
Qed.

(** X24.  When an interaction pass finds a ball with a body strictly
    inside the emergency radius, the movement state computed from the balls
    it leaves reports movement (the teleported ball has speed 3), and with
    that state no obstacle system finds a spawn due. *)
Theorem teleport_blocks_spawning (d : DynamicObstacles.t) (o : Obstacle)
    (bm : BallManager) (i : nat) (ball : Ball) :
  nth_error (ballsOf bm) i = Some ball ->
  body ball <> None ->
  0 < distanceTo o ball < emergencyRadius d ->
  areBallsMoving (BallManagerOps.updateBallMovementState (handleBallInteractions d o bm))
  = true
  /\ forall d', spawnDue d' (BallManagerOps.updateBallMovementState
                                (handleBallInteractions d o bm)) = false.
Proof.
  intros Hi Hb Hin.
  assert (Hmov : areBallsMoving (BallManagerOps.updateBallMovementState
                                   (handleBallInteractions d o bm)) = true).
  { rewrite movement_flag, existsb_exists.
    exists (interactWithBall d o ball). split.
    - apply (nth_error_In _ i). apply handleBallInteractions_nth. exact Hi.
    - destruct (body ball) as [bd|] eqn:Hbd; [|congruence].
      destruct (interactWithBall_cases d o ball bd Hbd) as (Hnear & _ & _).
      destruct (Hnear Hin) as [_ Hv].
      assert (Hmag : Vec.mag (getVelocity (interactWithBall d o ball)) = 3).
      { rewrite Hv, mag_polar. apply Rabs_pos_eq; lra. }
      unfold getVelocity in Hmag, Hv.
      unfold BallManagerOps.hasBody, BallOps.isMoving, BallOps.getSpeed, getVelocity,
        BallManagerOps.speedThreshold.
      destruct (body (interactWithBall d o ball)) as [bd'|].
      + apply andb_true_iff. split; [reflexivity|]. apply Rgtb_true.
        unfold Vec.mag in Hmag. rewrite Hmag. lra.
      + exfalso. unfold Vec.mag in Hmag. cbn [vx vy] in Hmag.
        replace (0 * 0 + 0 * 0) with 0 in Hmag by ring. rewrite sqrt_0 in Hmag. lra. }
  split; [exact Hmov|]. intros d'. unfold spawnDue. rewrite Hmov.
  cbn [negb]. apply andb_false_r.
Qed.

Lemma teleport_blocks_spawning_witness :
  areBallsMoving (BallManagerOps.updateBallMovementState
                    (handleBallInteractions DynamicObstacles.constructor
                       activeObstacleAtCentre (loneCueBall 603 304))) = true.
Proof.
  destruct (teleport_blocks_spawning DynamicObstacles.constructor activeObstacleAtCentre
              (loneCueBall 603 304) 0 (cueBall (loneCueBall 603 304)) eq_refl)
    as [H _].
  - discriminate.
  - rewrite distanceTo_lone.
    replace ((603 - 600) * (603 - 600) + (304 - 300) * (304 - 300)) with (5 * 5) by ring.
    rewrite sqrt_square by lra. simpl; lra.
  - exact H.
Defined.

(** * Spawn cadence *)

(** X25.  Starting from an enabled system, as long as the spawn timer has
    not come within one frame of [spawnRate], frames of [update] draw no
    random number and add no obstacle, whatever the balls do; each frame
    moves the timer on by one.  After a spawn attempt, which resets the
    timer to 0, the next attempt is therefore [spawnRate] frames away. *)
Theorem no_spawn_before_timer (tb : Table) (rnd : Rand) (bms : list BallManager)
    (d : DynamicObstacles.t) (k : nat) :
  enabled d = true ->
  (spawnTimer d + length bms < spawnRate d)%nat ->
  snd (runFrames tb rnd bms d k) = k
  /\ spawnTimer (fst (runFrames tb rnd bms d k)) = (spawnTimer d + length bms)%nat
  /\ (length (obstacles (fst (runFrames tb rnd bms d k))) <= length (obstacles d))%nat
  /\ enabled (fst (runFrames tb rnd bms d k)) = true.
Proof. intros He Hlt. apply runFrames_waiting; assumption. Qed.

Lemma no_spawn_before_timer_witness :
  snd (runFrames gameTable middleDraws (repeat noBalls 419) DynamicObstacles.constructor 0)
  = 0%nat
  /\ spawnTimer (fst (runFrames gameTable middleDraws (repeat noBalls 419)
                        DynamicObstacles.constructor 0)) = 419%nat.
Proof.
  destruct (no_spawn_before_timer gameTable middleDraws (repeat noBalls 419)
              DynamicObstacles.constructor 0) as (Hk & Ht & _ & _).
  - reflexivity.
  - rewrite repeat_length. simpl. lia.
  - rewrite repeat_length in Ht. split; [exact Hk | exact Ht].
Defined.

(** * The starting layout *)


(** The triangle lies behind its apex, within two ball diameters of the
    long axis of the table. *)
Lemma triangle_area (t : Table) :
  0 <= t_ballDiameter t ->
  Forall (fun p => t_x t + t_length t * 0.75 <= vx p
                   /\ t_y t + t_width t * 0.5 - 2 * t_ballDiameter t <= vy p
                      <= t_y t + t_width t * 0.5 + 2 * t_ballDiameter t)
         (TableLayout.getRedBallTrianglePositions t).
Proof.
  intros Hd. unfold TableLayout.getRedBallTrianglePositions.
  cbv [fold_left seq TableLayout.triangleRow TableLayout.pushTrianglePosition
       Nat.ltb Nat.leb Nat.add fst snd app].
  unfold TableOps.t_ballRadius.
  set (d := t_ballDiameter t) in *.
  repeat (apply Forall_cons; [cbn [vx vy INR]; lra|]). apply Forall_nil.
Qed.

Lemma triangle_length (t : Table) :
  length (TableLayout.getRedBallTrianglePositions t) = 15%nat.
Proof. reflexivity. Qed.



(** ** Putting the balls on their starting positions *)

Lemma createPhysicsBody_fresh (x y : R) :
  0 < x -> 0 < y ->
  BallOps.createPhysicsBody (mkBall x y None) = restingAt (createVector x y).
Proof.
  intros Hx Hy. unfold BallOps.createPhysicsBody, restingAt. cbn [b_x b_y body vx vy].
  assert (Hgx : Rgtb x 0 = true) by (apply Rgtb_true; lra).
  assert (Hgy : Rgtb y 0 = true) by (apply Rgtb_true; lra).
  rewrite Hgx, Hgy. reflexivity.
Qed.

Lemma forEachIndexed_positions (positions pre : list Vector) (n : nat) :
  length positions = n ->
  BallSetup.forEachIndexed
    (fun ball index =>
       match nth_error (pre ++ positions) index with
       | Some p => setPosition ball (vx p) (vy p)
       | None => ball
       end)
    (repeat BallSetup.Ball_new n) (length pre)
  = List.map (fun p => mkBall (vx p) (vy p) None) positions.
Proof.
  revert pre n. induction positions as [|p rest IH]; intros pre n Hn.
  - subst n. reflexivity.
  - destruct n as [|n]; [discriminate|]. cbn [repeat BallSetup.forEachIndexed List.map].
    f_equal.
    + rewrite nth_error_app2 by apply Nat.le_refl. rewrite Nat.sub_diag. reflexivity.
    + specialize (IH (pre ++ [p]) n).
      rewrite <- app_assoc in IH. cbn [app] in IH.
      rewrite length_app in IH. cbn [length] in IH. rewrite Nat.add_1_r in IH.
      apply IH. injection Hn as Hn. exact Hn.
Qed.

Lemma bodies_on_positions (positions : list Vector) :
  Forall (fun p => 0 < vx p /\ 0 < vy p) positions ->
  List.map BallOps.createPhysicsBody
    (List.map BallOps.removePhysicsBody
       (List.map (fun p => mkBall (vx p) (vy p) None) positions))
  = List.map restingAt positions.
Proof.
  induction 1 as [|p rest [Hx Hy] _ IH]; [reflexivity|].
  cbn [List.map]. rewrite IH. f_equal.
  unfold BallOps.removePhysicsBody. cbn [body].
  destruct p as [px py]. apply createPhysicsBody_fresh; assumption.
Qed.

(** X27.  On a table built by the constructor on a canvas that holds it (at
    least 1000 by 500; the game's is 1200 by 600), [positionBallsStarting]
    applied to the balls of a new ball manager gives every red a body at
    rest on its place in the triangle and every coloured ball a body at rest
    on its spot, and leaves the cue ball where the constructor put it,
    without a body. *)
Theorem starting_positions (cw ch : R) :
  1000 <= cw -> 500 <= ch ->
  let t := Table_new cw ch in
  let bm := BallSetup.positionBallsStarting BallSetup.colorIds BallSetup.initializeBalls t in
  redBalls bm = List.map restingAt (TableLayout.getRedBallTrianglePositions t)
  /\ coloredBalls bm
     = List.map (fun spot => restingAt (createVector (t_x t + 1000 * fst spot)
                                                     (t_y t + 500 * snd spot)))
                [(0.25, 0.65); (0.25, 0.35); (0.25, 0.5);
                 (0.5, 0.5); (0.735, 0.5); (0.88, 0.5)]
  /\ cueBall bm = BallSetup.Ball_new
  /\ ballsMoving bm = false.
Proof.
  intros Hw Hh t bm.
  assert (Hx : 0 <= t_x t) by (unfold t; cbn; lra).
  assert (Hy : 0 <= t_y t) by (unfold t; cbn; lra).
  assert (Hlen : t_length t = 1000) by reflexivity.
  assert (Hwid : t_width t = 500) by reflexivity.
  assert (Hd : t_ballDiameter t = 500 / 36) by reflexivity.
  split; [|split; [|split; reflexivity]].
  - unfold bm, BallSetup.positionBallsStarting, BallSetup.createPhysicsBodies,
      BallSetup.resetPhysicsBalls, BallSetup.positionRedBallsTriangle,
      BallSetup.initializeBalls.
    cbn [redBalls coloredBalls cueBall ballsMoving].
    pose proof (forEachIndexed_positions (TableLayout.getRedBallTrianglePositions t) [] 15
                  (triangle_length t)) as HF.
    cbn [app length] in HF. rewrite HF.
    apply bodies_on_positions.
    assert (Hd0 : 0 <= t_ballDiameter t) by (rewrite Hd; lra).
    eapply Forall_impl; [|exact (triangle_area t Hd0)].
    intros p (Hpx & Hpy & _). rewrite Hlen in Hpx. rewrite Hwid, Hd in Hpy. lra.
  - unfold bm, BallSetup.positionBallsStarting, BallSetup.createPhysicsBodies,
      BallSetup.resetPhysicsBalls, BallSetup.positionRedBallsTriangle,
      BallSetup.initializeBalls, BallSetup.colorIds.
    cbn [redBalls coloredBalls cueBall ballsMoving List.map BallSetup.positionOnSpots hd tl].
    unfold TableLayout.getBallSpotPosition.
    cbn [TableLayout.ballPositions String.eqb Ascii.eqb Bool.eqb fst snd vx vy].
    unfold BallSetup.Ball_new, setPosition, BallOps.removePhysicsBody.
    cbn [body b_x b_y]. rewrite Hlen, Hwid.
    repeat match goal with
           | |- _ :: _ = _ :: _ => f_equal
           | |- BallOps.createPhysicsBody _ = _ => apply createPhysicsBody_fresh; lra
           end.
Qed.

Lemma starting_positions_witness :
  cueBall (BallSetup.positionBallsStarting BallSetup.colorIds BallSetup.initializeBalls
             gameTable)
  = BallSetup.Ball_new.
Proof.
  assert (Hw : 1000 <= 1200) by lra.
  assert (Hh : 500 <= 600) by lra.
  exact (proj1 (proj2 (proj2 (starting_positions 1200 600 Hw Hh)))).
Defined.

(** * Balls in pockets *)

Lemma checkRedBalls_spec (t : Table) (reds : list Ball) (st : Potting.PotState)
    (ev : Potting.GameEvents) :
  Potting.checkRedBalls (getPocketPositions t) (pocketRadius t) reds st ev
  = (filter (fun b => negb (potted t b)) reds,
     if existsb (potted t) reds then Potting.mkPotState "red" 0 else st,
     if existsb (potted t) reds
     then Potting.mkGameEvents true (Potting.coloredPotted ev) (Potting.cueBallPotted ev)
                               (Potting.gameMessage ev)
     else ev).
Proof.
  induction reds as [|b rest IH]; [reflexivity|].
  cbn [Potting.checkRedBalls filter existsb]. rewrite IH. fold (potted t b).
  destruct (potted t b); cbn [negb orb]; [|reflexivity].
  destruct (existsb (potted t) rest); reflexivity.
Qed.

(** What the loop over the coloured balls does to the potting fields and to
    the events. *)
Lemma checkColoredBalls_counters (bm : BallManager) (t : Table) (rnd : nat -> R)
    (todo : list Ball) :
  forall ids before st ev k,
    let r := Potting.checkColoredBalls bm t rnd ids before todo st ev k in
    let m := countPotted t todo in
    let st' := snd (fst (fst r)) in
    let ev' := snd (fst r) in
    st' = match m with
          | O => st
          | S _ =>
            Potting.mkPotState "colored"
              (if String.eqb (Potting.lastPottedBallType st) "red" then m
               else (Potting.consecutiveColoredBalls st + m)%nat)
          end
    /\ Potting.redPotted ev' = Potting.redPotted ev
    /\ Potting.cueBallPotted ev' = Potting.cueBallPotted ev
    /\ Potting.coloredPotted ev' = (Potting.coloredPotted ev || (0 <? m)%nat)
    /\ Potting.gameMessage ev'
       = if (0 <? m)%nat && (2 <=? Potting.consecutiveColoredBalls st')%nat
         then Potting.mistakeMessage else Potting.gameMessage ev.
Proof.
  induction todo as [|b rest IH]; intros ids before st ev k.
  - cbn. rewrite orb_false_r. repeat split; reflexivity.
  - cbn zeta. cbn [Potting.checkColoredBalls]. fold (potted t b).
    unfold countPotted. cbn [filter].
    destruct (potted t b) eqn:Hp.
    2:{ apply IH. }
    cbn [length].
    destruct (Potting.respotColoredBall bm before rest b (hd ""%string ids) t rnd k)
      as [b' k1].
    set (count := if negb (String.eqb (Potting.lastPottedBallType st) "red")
                  then S (Potting.consecutiveColoredBalls st) else 1%nat).
    set (ev1 := if negb (String.eqb (Potting.lastPottedBallType st) "red")
                then (if (2 <=? S (Potting.consecutiveColoredBalls st))%nat
                      then Potting.mkGameEvents (Potting.redPotted ev)
                             (Potting.coloredPotted ev) (Potting.cueBallPotted ev)
                             Potting.mistakeMessage
                      else ev)
                else ev).
    assert (Hstep :
      (let '(count, ev) :=
         if negb (String.eqb (Potting.lastPottedBallType st) "red")
         then (S (Potting.consecutiveColoredBalls st),
               if (2 <=? S (Potting.consecutiveColoredBalls st))%nat
               then Potting.mkGameEvents (Potting.redPotted ev) (Potting.coloredPotted ev)
                      (Potting.cueBallPotted ev) Potting.mistakeMessage
               else ev)
         else (1%nat, ev) in
       Potting.checkColoredBalls bm t rnd (tl ids) (before ++ [b']) rest
         (Potting.mkPotState "colored" count)
         (Potting.mkGameEvents (Potting.redPotted ev) true (Potting.cueBallPotted ev)
                               (Potting.gameMessage ev)) k1)
      = Potting.checkColoredBalls bm t rnd (tl ids) (before ++ [b']) rest
          (Potting.mkPotState "colored" count)
          (Potting.mkGameEvents (Potting.redPotted ev1) true (Potting.cueBallPotted ev1)
                                (Potting.gameMessage ev1)) k1).
    { unfold count, ev1.
      destruct (negb (String.eqb (Potting.lastPottedBallType st) "red")); reflexivity. }
    rewrite Hstep. clear Hstep.
    specialize (IH (tl ids) (before ++ [b']) (Potting.mkPotState "colored" count)
                   (Potting.mkGameEvents (Potting.redPotted ev1) true
                      (Potting.cueBallPotted ev1) (Potting.gameMessage ev1)) k1).
    cbn zeta in IH. destruct IH as (Hst & Hred & Hcue & Hcol & Hmsg).
    fold (countPotted t rest) in *.
    set (r := Potting.checkColoredBalls bm t rnd (tl ids) (before ++ [b']) rest
                (Potting.mkPotState "colored" count)
                (Potting.mkGameEvents (Potting.redPotted ev1) true
                   (Potting.cueBallPotted ev1) (Potting.gameMessage ev1)) k1) in *.
    cbn [Potting.lastPottedBallType Potting.consecutiveColoredBalls Potting.redPotted
         Potting.cueBallPotted Potting.coloredPotted Potting.gameMessage] in Hst, Hred,
         Hcue, Hcol, Hmsg.
    change (String.eqb "colored" "red") with false in Hst.
    assert (Hfinal : snd (fst (fst r))
                     = Potting.mkPotState "colored" (count + countPotted t rest)).
    { rewrite Hst. destruct (countPotted t rest); [rewrite Nat.add_0_r|]; reflexivity. }
    assert (Hev1 : Potting.redPotted ev1 = Potting.redPotted ev
                   /\ Potting.cueBallPotted ev1 = Potting.cueBallPotted ev).
    { unfold ev1. destruct (negb _); [destruct (2 <=? _)%nat|]; split; reflexivity. }
    destruct Hev1 as [Hr1 Hc1].
    split; [|split; [|split; [|split]]].
    + rewrite Hfinal. f_equal. unfold count.
      destruct (String.eqb (Potting.lastPottedBallType st) "red"); cbn [negb]; lia.
    + rewrite Hred. exact Hr1.
    + rewrite Hcue. exact Hc1.
    + rewrite Hcol. cbn. rewrite orb_true_r. reflexivity.
    + rewrite Hmsg. rewrite Hfinal.
      cbn [Potting.consecutiveColoredBalls].
      destruct (countPotted t rest) as [|m'] eqn:Hm.
      * rewrite Nat.add_0_r. unfold ev1, count. cbn [Nat.ltb Nat.leb andb].
        destruct (String.eqb (Potting.lastPottedBallType st) "red"); cbn [negb].
        -- reflexivity.
        -- destruct (Potting.consecutiveColoredBalls st); reflexivity.
      * assert (H2 : (2 <=? count + S m')%nat = true).
        { apply Nat.leb_le. unfold count. destruct (negb _); lia. }
        rewrite H2. reflexivity.
Qed.

Lemma respotColoredBall_draws (bm : BallManager) (before after : list Ball) (b : Ball)
    (id : String.string) (t : Table) (rnd : nat -> R) (k : nat) :
  (k <= snd (Potting.respotColoredBall bm before after b id t rnd k) <= k + 2)%nat.
Proof.
  unfold Potting.respotColoredBall.
  destruct (TableLayout.getBallSpotPosition t id); [|cbn; lia].
  destruct (Potting.isSpotOccupied _ _ _); cbn; lia.
Qed.

(** What the loop over the coloured balls does to the balls. *)
Lemma checkColoredBalls_balls (bm : BallManager) (t : Table) (rnd : nat -> R)
    (todo : list Ball) :
  forall ids before st ev k,
    let r := Potting.checkColoredBalls bm t rnd ids before todo st ev k in
    (exists after,
        fst (fst (fst r)) = before ++ after
        /\ Forall2 (visitedColored bm t rnd) todo after)
    /\ (k <= snd r <= k + 2 * countPotted t todo)%nat.
Proof.
  induction todo as [|b rest IH]; intros ids before st ev k.
  - cbn. split; [|lia]. exists []. rewrite app_nil_r. split; [reflexivity | constructor].
  - cbn zeta. cbn [Potting.checkColoredBalls]. fold (potted t b).
    unfold countPotted. cbn [filter].
    destruct (potted t b) eqn:Hp.
    + pose proof (respotColoredBall_draws bm before rest b (hd ""%string ids) t rnd k)
        as Hk.
      assert (Hres : respotted bm t rnd b
                       (fst (Potting.respotColoredBall bm before rest b
                               (hd ""%string ids) t rnd k))).
      { exists before, rest, (hd ""%string ids), k. reflexivity. }
      destruct (Potting.respotColoredBall bm before rest b (hd ""%string ids) t rnd k)
        as [b' k1].
      cbn [fst snd] in Hk, Hres.
      match goal with
      | |- context [let '(c, e) := ?x in _] => destruct x as [count ev1]
      end.
      destruct (IH (tl ids) (before ++ [b']) (Potting.mkPotState "colored" count)
                   (Potting.mkGameEvents (Potting.redPotted ev1) true
                      (Potting.cueBallPotted ev1) (Potting.gameMessage ev1)) k1)
        as ((after & Hafter & Hall) & Hk').
      fold (countPotted t rest) in *. cbn [length]. split.
      * exists (b' :: after). rewrite Hafter, <- app_assoc. split; [reflexivity|].
        constructor; [|exact Hall]. unfold visitedColored. rewrite Hp. exact Hres.
      * fold (countPotted t rest). lia.
    + destruct (IH (tl ids) (before ++ [b]) st ev k) as ((after & Hafter & Hall) & Hk').
      split.
      * exists (b :: after). rewrite Hafter, <- app_assoc. split; [reflexivity|].
        constructor; [|exact Hall]. unfold visitedColored. rewrite Hp. reflexivity.
      * exact Hk'.
Qed.

Lemma spot_fraction (id : String.string) (fx fy : R) :
  TableLayout.ballPositions id = Some (fx, fy) ->
  0.25 <= fx <= 0.88 /\ 0.35 <= fy <= 0.65.
Proof.
  unfold TableLayout.ballPositions.
  repeat match goal with
         | |- context [String.eqb id ?s] => destruct (String.eqb id s)
         end;
    intros H; try discriminate; injection H as <- <-; lra.
Qed.

(** A point within 31 of the height of a spot is in no pocket of a table
    built by the constructor. *)
Lemma away_from_pockets (cw ch x y fy : R) :
  0.35 <= fy <= 0.65 ->
  t_y (Table_new cw ch) + 500 * fy - 31 <= y <= t_y (Table_new cw ch) + 500 * fy + 31 ->
  existsb (fun pocket => Rltb (P5.dist x y (vx pocket) (vy pocket))
                              (pocketRadius (Table_new cw ch)))
          (getPocketPositions (Table_new cw ch)) = false.
Proof.
  intros Hf Hy. cbn in Hy.
  unfold getPocketPositions, Table_new, initializePockets.
  cbn [pocketPositions pocketRadius existsb vx vy].
  repeat match goal with
         | |- (Rltb ?a ?b || _)%bool = false =>
           let H := fresh "H" in
           assert (H : Rltb a b = false);
             [ apply Rltb_false;
               destruct (Rle_dec b a) as [Hle|Hgt]; [exact Hle|];
               exfalso;
               assert (Hd : a <= b) by lra;
               apply dist_bounds_coordinates in Hd; lra
             | rewrite H; cbn [orb] ]
         end.
  reflexivity.
Qed.

Lemma respotted_not_potted (cw ch : R) (bm : BallManager) (rnd : nat -> R) (b b' : Ball) :
  (forall n, 0 <= rnd n < 1) ->
  respotted bm (Table_new cw ch) rnd b b' ->
  potted (Table_new cw ch) b' = false.
Proof.
  intros Hr (before & after & id & k & ->).
  assert (Hgone : BallManagerOps.hasBody (BallOps.removePhysicsBody b) = false).
  { unfold BallOps.removePhysicsBody. destruct (body b) eqn:Hb; [reflexivity|].
    unfold BallManagerOps.hasBody. rewrite Hb. reflexivity. }
  unfold Potting.respotColoredBall, TableLayout.getBallSpotPosition.
  set (gone := BallOps.removePhysicsBody b) in *.
  destruct (TableLayout.ballPositions id) as [[fx fy]|] eqn:Hid.
  2:{ cbn [fst]. unfold potted. rewrite Hgone. reflexivity. }
  apply spot_fraction in Hid. destruct Hid as [_ Hfy].
  cbn [fst snd vx vy].
  assert (Hplace : forall x y,
             t_y (Table_new cw ch) + 500 * fy - 31 <= y
               <= t_y (Table_new cw ch) + 500 * fy + 31 ->
             potted (Table_new cw ch) (BallOps.createPhysicsBody (setPosition gone x y))
             = false).
  { intros x y Hy. unfold potted, BallOps.createPhysicsBody, setPosition.
    unfold BallManagerOps.hasBody in Hgone.
    destruct (body gone); [discriminate|]. cbn [b_x b_y body].
    destruct (Rgtb x 0 && Rgtb y 0 && true); cbn [BallManagerOps.hasBody body andb];
      [|reflexivity].
    unfold Potting.isInPocket, getPosition. cbn [body position vx vy].
    apply away_from_pockets with (fy := fy); assumption. }
  match goal with
  | |- context [if ?c then _ else _] => destruct c
  end; cbn [fst]; apply Hplace.
  - pose proof (random_in_range (-30) 30 (rnd (S k)) ltac:(lra) (Hr (S k))).
    cbn. cbn in H. lra.
  - cbn. lra.
Qed.

Lemma checkBallsInPockets_eq (ids : list String.string) (bm : BallManager)
    (st : Potting.PotState) (t : Table) (rnd : nat -> R) (k : nat) :
  let red := existsb (potted t) (redBalls bm) in
  let reds := filter (fun b => negb (potted t b)) (redBalls bm) in
  let bm1 := mkBallManager (cueBall bm) reds (coloredBalls bm) (ballsMoving bm) in
  let rc := Potting.checkColoredBalls bm1 t rnd ids [] (coloredBalls bm)
              (if red then Potting.mkPotState "red" 0 else st)
              (Potting.mkGameEvents red false false "") k in
  Potting.checkBallsInPockets ids bm st t rnd k
  = (if potted t (cueBall bm)
     then (Potting.mkGameEvents (Potting.redPotted (snd (fst rc)))
                                (Potting.coloredPotted (snd (fst rc))) true
                                Potting.cueBallMessage,
           mkBallManager (BallOps.removePhysicsBody (cueBall bm)) reds
                         (fst (fst (fst rc))) (ballsMoving bm))
     else (snd (fst rc),
           mkBallManager (cueBall bm) reds (fst (fst (fst rc))) (ballsMoving bm)),
     snd (fst (fst rc)), snd rc).
Proof.
  cbv zeta. unfold Potting.checkBallsInPockets. rewrite checkRedBalls_spec.
  destruct (existsb (potted t) (redBalls bm));
    cbn [Potting.coloredPotted Potting.cueBallPotted Potting.gameMessage
         cueBall coloredBalls ballsMoving];
    match goal with
    | |- context [Potting.checkColoredBalls ?a ?b ?c ?d ?e ?f ?g ?h ?i] =>
      destruct (Potting.checkColoredBalls a b c d e f g h i) as [[[colored st'] ev'] k']
    end;
    cbn [fst snd]; fold (potted t (cueBall bm));
    destruct (potted t (cueBall bm)); reflexivity.
Qed.

Lemma existsb_count {A : Type} (f : A -> bool) (l : list A) :
  existsb f l = (0 <? length (filter f l))%nat.
Proof.
  induction l as [|a l IH]; [reflexivity|]. cbn [existsb filter].
  destruct (f a); [reflexivity | exact IH].
Qed.

Lemma Forall2_nth_error {A B : Type} (P : A -> B -> Prop) (l : list A) (l' : list B) :
  Forall2 P l l' ->
  forall i a, nth_error l i = Some a -> exists b, nth_error l' i = Some b /\ P a b.
Proof.
  induction 1 as [|x y l l' Hxy _ IH]; intros i a Hi.
  - destruct i; discriminate.
  - destruct i as [|i]; cbn in Hi |- *.
    + injection Hi as <-. exists y. split; [reflexivity | exact Hxy].
    + apply IH. exact Hi.
Qed.

(** X28.  [checkBallsInPockets] removes from [redBalls] exactly the reds
    that are in a pocket and keeps the others in their order; it keeps every
    coloured ball, leaving those that are not in a pocket as they are; it
    takes the body of a cue ball that is in a pocket and leaves the cue ball
    alone otherwise; it draws at most two random numbers for each coloured
    ball in a pocket.  On a table built by the constructor, with draws in
    [0, 1), no ball is in a pocket after the call. *)
Theorem pockets_emptied (ids : list String.string) (bm : BallManager)
    (st : Potting.PotState) (t : Table) (rnd : nat -> R) (k : nat) :
  let r := Potting.checkBallsInPockets ids bm st t rnd k in
  let bm' := snd (fst (fst r)) in
  redBalls bm' = filter (fun b => negb (potted t b)) (redBalls bm)
  /\ length (coloredBalls bm') = length (coloredBalls bm)
  /\ (forall i b, nth_error (coloredBalls bm) i = Some b -> potted t b = false ->
                  nth_error (coloredBalls bm') i = Some b)
  /\ cueBall bm' = (if potted t (cueBall bm) then BallOps.removePhysicsBody (cueBall bm)
                    else cueBall bm)
  /\ ballsMoving bm' = ballsMoving bm
  /\ (k <= snd r <= k + 2 * countPotted t (coloredBalls bm))%nat
  /\ ((forall n, 0 <= rnd n < 1) -> (exists cw ch, t = Table_new cw ch) ->
      Forall (fun b => potted t b = false) (ballsOf bm')).
Proof.
  intros r bm'. unfold bm', r. rewrite checkBallsInPockets_eq. cbn zeta.
  set (reds := filter (fun b => negb (potted t b)) (redBalls bm)).
  set (bm1 := mkBallManager (cueBall bm) reds (coloredBalls bm) (ballsMoving bm)).
  set (rc := Potting.checkColoredBalls bm1 t rnd ids [] (coloredBalls bm) _ _ k).
  destruct (checkColoredBalls_balls bm1 t rnd (coloredBalls bm) ids []
              (if existsb (potted t) (redBalls bm) then Potting.mkPotState "red" 0 else st)
              (Potting.mkGameEvents (existsb (potted t) (redBalls bm)) false false "") k)
    as ((after & Hafter & Hall) & Hk).
  fold rc in Hafter, Hk. cbn [app] in Hafter.
  cbn [fst snd].
  assert (Hcol : coloredBalls
                   (snd (if potted t (cueBall bm)
                         then (Potting.mkGameEvents (Potting.redPotted (snd (fst rc)))
                                 (Potting.coloredPotted (snd (fst rc))) true
                                 Potting.cueBallMessage,
                               mkBallManager (BallOps.removePhysicsBody (cueBall bm)) reds
                                 (fst (fst (fst rc))) (ballsMoving bm))
                         else (snd (fst rc),
                               mkBallManager (cueBall bm) reds (fst (fst (fst rc)))
                                 (ballsMoving bm))))
                 = after).
  { destruct (potted t (cueBall bm)); cbn [snd coloredBalls]; exact Hafter. }
  split; [destruct (potted t (cueBall bm)); reflexivity|].
  split; [rewrite Hcol; symmetry; exact (Forall2_length Hall)|].
  split.
  { intros i b Hi Hp. rewrite Hcol.
    destruct (Forall2_nth_error _ _ _ Hall i b Hi) as (b' & Hi' & Hv).
    unfold visitedColored in Hv. rewrite Hp in Hv. subst b'. exact Hi'. }
  split; [destruct (potted t (cueBall bm)); reflexivity|].
  split; [destruct (potted t (cueBall bm)); reflexivity|].
  split; [exact Hk|].
  intros Hr (cw & ch & ->).
  assert (Hafter' : Forall (fun b => potted (Table_new cw ch) b = false) after).
  { clear Hcol Hafter Hk.
    induction Hall as [|b b' l l' Hv _ IH]; constructor; [|exact IH].
    unfold visitedColored in Hv.
    destruct (potted (Table_new cw ch) b) eqn:Hp; [|subst b'; exact Hp].
    apply (respotted_not_potted cw ch bm1 rnd b b' Hr Hv). }
  assert (Hreds : Forall (fun b => potted (Table_new cw ch) b = false) reds).
  { apply Forall_forall. intros b Hb. unfold reds in Hb.
    apply filter_In in Hb. destruct Hb as [_ Hb]. apply negb_true_iff in Hb. exact Hb. }
  unfold ballsOf, getCueBall, getRedBalls, getColoredBalls.
  destruct (potted (Table_new cw ch) (cueBall bm)) eqn:Hcue;
    cbn [snd cueBall redBalls coloredBalls]; rewrite Hafter.
  - constructor; [|apply Forall_app; split; assumption].
    unfold potted, BallOps.removePhysicsBody.
    destruct (body (cueBall bm)) eqn:Hb; [reflexivity|].
    unfold BallManagerOps.hasBody. rewrite Hb. reflexivity.
  - constructor; [exact Hcue | apply Forall_app; split; assumption].
Qed.

(** X29.  After [checkBallsInPockets], [lastPottedBallType] and
    [consecutiveColoredBalls] are as follows.  With no coloured ball in a
    pocket they are "red" and 0 if a red was in a pocket and unchanged
    otherwise.  With [m] > 0 coloured balls in pockets they are "colored"
    and [m] if a red was in a pocket in this call or was the last ball
    potted before, and the former count plus [m] otherwise.  The message is
    the cue ball's if the cue ball was in a pocket, else the mistake message
    if a coloured ball was in a pocket and the new count is 2 or more, else
    empty.  The three flags of the events tell which kinds of ball were in a
    pocket. *)
Theorem pockets_counted (ids : list String.string) (bm : BallManager)
    (st : Potting.PotState) (t : Table) (rnd : nat -> R) (k : nat) :
  let r := Potting.checkBallsInPockets ids bm st t rnd k in
  let gameEvents := fst (fst (fst r)) in
  snd (fst r) = expectedPotState t bm st
  /\ Potting.gameMessage gameEvents = expectedMessage t bm st
  /\ Potting.redPotted gameEvents = existsb (potted t) (redBalls bm)
  /\ Potting.coloredPotted gameEvents = existsb (potted t) (coloredBalls bm)
  /\ Potting.cueBallPotted gameEvents = potted t (cueBall bm).
Proof.
  intros r gameEvents. unfold gameEvents, r. rewrite checkBallsInPockets_eq. cbn zeta.
  set (red := existsb (potted t) (redBalls bm)).
  set (reds := filter (fun b => negb (potted t b)) (redBalls bm)).
  set (bm1 := mkBallManager (cueBall bm) reds (coloredBalls bm) (ballsMoving bm)).
  destruct (checkColoredBalls_counters bm1 t rnd (coloredBalls bm) ids []
              (if red then Potting.mkPotState "red" 0 else st)
              (Potting.mkGameEvents red false false "") k)
    as (Hst & Hred & Hcue & Hcol & Hmsg).
  set (rc := Potting.checkColoredBalls bm1 t rnd ids [] (coloredBalls bm) _ _ k) in *.
  cbn [Potting.redPotted Potting.coloredPotted Potting.cueBallPotted Potting.gameMessage
       orb] in Hred, Hcue, Hcol, Hmsg.
  cbn [fst snd].
  assert (Hexp : snd (fst (fst rc)) = expectedPotState t bm st).
  { rewrite Hst. unfold expectedPotState. fold red.
    destruct (countPotted t (coloredBalls bm)) as [|m]; [reflexivity|].
    destruct red; cbn [Potting.lastPottedBallType Potting.consecutiveColoredBalls orb];
      reflexivity. }
  split; [exact Hexp|].
  unfold expectedMessage. rewrite <- Hexp, existsb_count. fold (countPotted t (coloredBalls bm)).
  destruct (potted t (cueBall bm)); cbn [fst Potting.gameMessage Potting.redPotted
                                          Potting.coloredPotted Potting.cueBallPotted].
  - repeat split; assumption.
  - repeat split; assumption.
Qed.

(** * The game loop *)

(** ** What the obstacles leave of the ball manager *)

Lemma pushBallAway_hasBody (d : DynamicObstacles.t) (ball : Ball) (o : Obstacle)
    (distance : R) :
  BallManagerOps.hasBody (pushBallAway d ball o distance) = BallManagerOps.hasBody ball.
Proof.
  unfold pushBallAway, BallManagerOps.hasBody.
  destruct (body ball) as [bd|] eqn:Hb; [|rewrite Hb; reflexivity].
  cbv zeta. unfold setVelocity. rewrite Hb.
  destruct (Rgtb _ 10); reflexivity.
Qed.

Lemma emergencyPushBall_hasBody (ball : Ball) (o : Obstacle) :
  BallManagerOps.hasBody (emergencyPushBall ball o) = BallManagerOps.hasBody ball.
Proof.
  unfold emergencyPushBall, BallManagerOps.hasBody.
  destruct (body ball) as [bd|] eqn:Hb; [|rewrite Hb; reflexivity].
  cbv zeta. unfold setVelocity, setPosition. rewrite Hb. reflexivity.
Qed.

Lemma interactWithBall_hasBody (d : DynamicObstacles.t) (o : Obstacle) (ball : Ball) :
  BallManagerOps.hasBody (interactWithBall d o ball) = BallManagerOps.hasBody ball.
Proof.
  unfold interactWithBall.
  destruct (body ball) as [bd|] eqn:Hb; [|reflexivity].
  cbv zeta.
  destruct (Rltb _ (interactionRadius d) && Rgtb _ 5);
    destruct (Rltb _ (emergencyRadius d) && Rgtb _ 0);
    rewrite ?emergencyPushBall_hasBody, ?pushBallAway_hasBody; reflexivity.
Qed.

Lemma handleBallInteractions_sameBalls (d : DynamicObstacles.t) (o : Obstacle)
    (bm : BallManager) :
  sameBalls bm (handleBallInteractions d o bm).
Proof.
  unfold sameBalls, handleBallInteractions. cbn [cueBall redBalls coloredBalls ballsMoving].
  rewrite interactWithBall_hasBody, !length_map. repeat split; reflexivity.
Qed.

Lemma sameBalls_refl (bm : BallManager) : sameBalls bm bm.
Proof. unfold sameBalls. repeat split; reflexivity. Qed.

Lemma sameBalls_trans (bm1 bm2 bm3 : BallManager) :
  sameBalls bm1 bm2 -> sameBalls bm2 bm3 -> sameBalls bm1 bm3.
Proof.
  unfold sameBalls. intros (A1 & A2 & A3 & A4) (B1 & B2 & B3 & B4).
  repeat split; congruence.
Qed.

Lemma updateObstaclesList_sameBalls (d : DynamicObstacles.t) (obs : list Obstacle)
    (bm : BallManager) :
  sameBalls bm (snd (updateObstaclesList d obs bm)).
Proof.
  induction obs as [|o rest IH]; [apply sameBalls_refl|].
  cbn [updateObstaclesList].
  destruct (updateObstaclesList d rest bm) as [rest' bm1]. cbn [snd] in IH |- *.
  destruct (phase (ageObstacle d o)); cbn [snd]; try exact IH.
  eapply sameBalls_trans; [exact IH | apply handleBallInteractions_sameBalls].
Qed.

Lemma update_sameBalls (d : DynamicObstacles.t) (tb : Table) (bm : BallManager)
    (rnd : Rand) (k : nat) :
  sameBalls bm (snd (fst (update d tb bm rnd k))).
Proof.
  destruct (enabled d) eqn:He.
  - destruct (update_steps d tb bm rnd k He) as (d2 & k2 & _ & ->). cbn [fst snd].
    apply updateObstaclesList_sameBalls.
  - unfold update. rewrite He. cbn [negb fst snd]. apply sameBalls_refl.
Qed.

(** ** What the handlers keep *)

Lemma createPhysicsBodies_shape (bm : BallManager) :
  BallManagerOps.hasBody (cueBall (BallSetup.createPhysicsBodies bm)) = false
  /\ length (redBalls (BallSetup.createPhysicsBodies bm)) = length (redBalls bm)
  /\ length (coloredBalls (BallSetup.createPhysicsBodies bm)) = length (coloredBalls bm).
Proof.
  unfold BallSetup.createPhysicsBodies, BallSetup.resetPhysicsBalls.
  cbn [cueBall redBalls coloredBalls]. rewrite !length_map.
  split; [|split; reflexivity].
  destruct (cueBall bm) as [bx by_ [bd|]]; reflexivity.
Qed.

Lemma resetPhysicsBalls_shape (bm : BallManager) :
  BallManagerOps.hasBody (cueBall (BallSetup.resetPhysicsBalls bm)) = false
  /\ length (redBalls (BallSetup.resetPhysicsBalls bm)) = length (redBalls bm)
  /\ length (coloredBalls (BallSetup.resetPhysicsBalls bm)) = length (coloredBalls bm).
Proof.
  unfold BallSetup.resetPhysicsBalls.
  cbn [cueBall redBalls coloredBalls]. rewrite !length_map.
  split; [|split; reflexivity].
  destruct (cueBall bm) as [bx by_ [bd|]]; reflexivity.
Qed.

Lemma forEachIndexed_length (f : Ball -> nat -> Ball) (balls : list Ball) (index : nat) :
  length (BallSetup.forEachIndexed f balls index) = length balls.
Proof.
  revert index. induction balls as [|b rest IH]; intros index; [reflexivity|].
  cbn. rewrite IH. reflexivity.
Qed.

Lemma positionOnSpots_length (t : Table) (balls : list Ball) (ids : list String.string) :
  length (BallSetup.positionOnSpots t ids balls) = length balls.
Proof.
  revert ids. induction balls as [|b rest IH]; intros ids; [reflexivity|].
  cbn [BallSetup.positionOnSpots length]. rewrite IH. reflexivity.
Qed.

Lemma positionRandomly_length (t : Table) (rnd : nat -> R) (balls : list Ball) (k : nat) :
  length (fst (BallSetup.positionRandomly t rnd balls k)) = length balls.
Proof.
  revert k. induction balls as [|b rest IH]; intros k; [reflexivity|].
  cbn [BallSetup.positionRandomly].
  destruct (TableOps.getRandomValidPosition t rnd k) as [xy k1].
  specialize (IH k1). destruct (BallSetup.positionRandomly t rnd rest k1) as [rest' k2].
  cbn [fst length] in IH |- *. rewrite IH. reflexivity.
Qed.

Lemma positionBallsStarting_shape (ids : list String.string) (bm : BallManager)
    (t : Table) :
  let bm' := BallSetup.positionBallsStarting ids bm t in
  BallManagerOps.hasBody (cueBall bm') = false
  /\ length (redBalls bm') = length (redBalls bm)
  /\ length (coloredBalls bm') = length (coloredBalls bm).
Proof.
  cbv zeta. unfold BallSetup.positionBallsStarting.
  match goal with
  | |- context [BallSetup.createPhysicsBodies ?x] =>
    destruct (createPhysicsBodies_shape x) as (Hc & Hr & Hcol); rewrite Hc, Hr, Hcol
  end.
  cbn [redBalls coloredBalls BallSetup.positionRedBallsTriangle].
  rewrite forEachIndexed_length, positionOnSpots_length. repeat split; reflexivity.
Qed.

Lemma positionBallsRandom_shape (ids : list String.string) (bm : BallManager)
    (t : Table) (includeColored : bool) (rnd : nat -> R) (k : nat) :
  let bm' := fst (BallSetup.positionBallsRandom ids bm t includeColored rnd k) in
  BallManagerOps.hasBody (cueBall bm') = false
  /\ length (redBalls bm') = length (redBalls bm)
  /\ length (coloredBalls bm') = length (coloredBalls bm).
Proof.
  cbv zeta. unfold BallSetup.positionBallsRandom.
  pose proof (positionRandomly_length t rnd (redBalls bm) k) as Hreds.
  destruct (BallSetup.positionRandomly t rnd (redBalls bm) k) as [reds k1].
  cbn [fst] in Hreds.
  assert (Hcol : length (fst (if includeColored
                              then BallSetup.positionRandomly t rnd (coloredBalls bm) k1
                              else (BallSetup.positionOnSpots t ids (coloredBalls bm), k1)))
                 = length (coloredBalls bm)).
  { destruct includeColored; [apply positionRandomly_length|].
    cbn [fst]. apply positionOnSpots_length. }
  destruct (if includeColored
            then BallSetup.positionRandomly t rnd (coloredBalls bm) k1
            else (BallSetup.positionOnSpots t ids (coloredBalls bm), k1)) as [colored k2].
  cbn [fst] in Hcol |- *.
  match goal with
  | |- context [BallSetup.createPhysicsBodies ?x] =>
    destruct (createPhysicsBodies_shape x) as (Hc & Hr & Hc2); rewrite Hc, Hr, Hc2
  end.
  cbn [redBalls coloredBalls]. repeat split; assumption.
Qed.

Lemma placed_cue_has_body (bm : BallManager) (x y : R) :
  isInDZone gameTable x y = true ->
  BallManagerOps.placeCueBall bm x y gameTable
  = (true, mkBallManager (restingAt (createVector x y)) (redBalls bm) (coloredBalls bm)
                         (ballsMoving bm)).
Proof.
  intros HD. unfold BallManagerOps.placeCueBall. rewrite HD. cbn [negb]. cbv zeta.
  f_equal. f_equal.
  unfold isInDZone in HD. apply andb_true_iff in HD. destruct HD as [_ HD].
  apply Rleb_true in HD. apply dist_bounds_coordinates in HD.
  unfold gameTable in HD. simpl in HD.
  assert (Hgone : body (BallOps.removePhysicsBody (cueBall bm)) = None).
  { unfold BallOps.removePhysicsBody. destruct (body (cueBall bm)) eqn:Hb;
      [reflexivity | exact Hb]. }
  unfold setPosition. rewrite Hgone.
  apply createPhysicsBody_fresh; lra.
Qed.

Lemma checkBallsInPockets_shape (ids : list String.string) (bm : BallManager)
    (st : Potting.PotState) (t : Table) (rnd : nat -> R) (k : nat) :
  let r := Potting.checkBallsInPockets ids bm st t rnd k in
  BallManagerOps.hasBody (cueBall (snd (fst (fst r))))
  = BallManagerOps.hasBody (cueBall bm) && negb (Potting.cueBallPotted (fst (fst (fst r))))
  /\ (length (redBalls (snd (fst (fst r)))) <= length (redBalls bm))%nat
  /\ length (coloredBalls (snd (fst (fst r)))) = length (coloredBalls bm)
  /\ (Potting.cueBallPotted (fst (fst (fst r))) = true ->
      Potting.gameMessage (fst (fst (fst r))) = Potting.cueBallMessage).
Proof.
  cbv zeta. rewrite checkBallsInPockets_eq. cbv zeta.
  set (reds := filter (fun b => negb (potted t b)) (redBalls bm)).
  set (bm1 := mkBallManager (cueBall bm) reds (coloredBalls bm) (ballsMoving bm)).
  destruct (checkColoredBalls_balls bm1 t rnd (coloredBalls bm) ids []
              (if existsb (potted t) (redBalls bm) then Potting.mkPotState "red" 0 else st)
              (Potting.mkGameEvents (existsb (potted t) (redBalls bm)) false false "") k)
    as ((after & Hafter & Hall) & _).
  destruct (checkColoredBalls_counters bm1 t rnd (coloredBalls bm) ids []
              (if existsb (potted t) (redBalls bm) then Potting.mkPotState "red" 0 else st)
              (Potting.mkGameEvents (existsb (potted t) (redBalls bm)) false false "") k)
    as (_ & _ & Hcue & _).
  set (rc := Potting.checkColoredBalls bm1 t rnd ids [] (coloredBalls bm) _ _ k) in *.
  cbn [app Potting.cueBallPotted] in Hafter, Hcue.
  apply Forall2_length in Hall.
  assert (Hreds : (length reds <= length (redBalls bm))%nat) by apply filter_length_le.
  destruct (potted t (cueBall bm)) eqn:Hp;
    cbn [fst snd cueBall redBalls coloredBalls Potting.cueBallPotted Potting.gameMessage].
  - rewrite andb_false_r, Hafter.
    split; [|split; [exact Hreds|split; [symmetry; exact Hall | reflexivity]]].
    unfold BallManagerOps.hasBody, BallOps.removePhysicsBody.
    destruct (body (cueBall bm)) eqn:Hb; [reflexivity | rewrite Hb; reflexivity].
  - rewrite Hcue, andb_true_r, Hafter.
    split; [reflexivity|split; [exact Hreds|split; [symmetry; exact Hall | discriminate]]].
Qed.

(** ** The handlers keep the game consistent *)

Ltac game_fields :=
  cbn [GameLoop.gameState GameLoop.displayMode GameLoop.cueBallPlaced GameLoop.table
       GameLoop.ballManager GameLoop.potState GameLoop.cue GameLoop.ballPrediction
       GameLoop.dynamicObstacles GameLoop.gameMessage GameLoop.gameMessageTimer
       GameLoop.draws GameLoop.Cue_show GameLoop.Cue_hide GameLoop.Cue_reset
       GameLoop.Cue_new Cue_isVisible c_visible cueBall redBalls coloredBalls
       ballsMoving] in *.

Ltac game_flags :=
  repeat split; intros;
  try assumption; try discriminate; try tauto; try lia; try congruence;
  try (match goal with H : _ \/ _ |- _ => destruct H; discriminate end);
  try (left; reflexivity).

Lemma consistent_initialize : gameConsistent GameLoop.initialize.
Proof.
  unfold gameConsistent, GameLoop.initialize. cbv zeta. game_fields.
  destruct (positionBallsStarting_shape BallSetup.colorIds BallSetup.initializeBalls
              (Table_new 1200 600)) as (Hc & Hr & Hcol).
  rewrite Hc, Hr, Hcol. game_flags.
Qed.

Lemma consistent_showGameMessage (g : GameLoop.t) (message : String.string) :
  gameConsistent g -> gameConsistent (GameLoop.showGameMessage g message).
Proof.
  unfold gameConsistent, GameLoop.showGameMessage. game_fields.
  intros (Hplace & Hbody & Hvis & Htab & Htimer & Hcol & Hred).
  game_flags.
Qed.

Lemma consistent_updateGameMessageTimer (g : GameLoop.t) :
  gameConsistent g -> gameConsistent (GameLoop.updateGameMessageTimer g).
Proof.
  unfold GameLoop.updateGameMessageTimer.
  destruct (0 <? GameLoop.gameMessageTimer g)%nat; [|tauto].
  unfold gameConsistent. game_fields.
  intros (Hplace & Hbody & Hvis & Htab & Htimer & Hcol & Hred).
  game_flags.
Qed.

Lemma consistent_handleCueVisibility (g : GameLoop.t) :
  gameConsistent g -> gameConsistent (GameLoop.handleCueVisibility g).
Proof.
  unfold GameLoop.handleCueVisibility.
  destruct (GameLoop.cueBallPlaced g
            && BallManagerOps.hasBody (getCueBall (GameLoop.ballManager g))
            && negb (Cue_isVisible (GameLoop.cue g))
            && negb (areBallsMoving (GameLoop.ballManager g))) eqn:Hc; [|tauto].
  apply andb_true_iff in Hc. destruct Hc as [Hc _].
  apply andb_true_iff in Hc. destruct Hc as [Hc _].
  apply andb_true_iff in Hc. destruct Hc as [Hp _].
  unfold gameConsistent. game_fields.
  intros (Hplace & Hbody & Hvis & Htab & Htimer & Hcol & Hred).
  game_flags.
Qed.

Lemma consistent_handlePocketEvents (rnd : nat -> R) (g : GameLoop.t) :
  gameConsistent g -> gameConsistent (GameLoop.handlePocketEvents rnd g).
Proof.
  intros (Hplace & Hbody & Hvis & Htab & Htimer & Hcol & Hred).
  unfold GameLoop.handlePocketEvents.
  destruct (checkBallsInPockets_shape BallSetup.colorIds (GameLoop.ballManager g)
              (GameLoop.potState g) (GameLoop.table g) rnd (GameLoop.draws g))
    as (Hb & Hr & Hc & Hmsg).
  destruct (Potting.checkBallsInPockets BallSetup.colorIds (GameLoop.ballManager g)
              (GameLoop.potState g) (GameLoop.table g) rnd (GameLoop.draws g))
    as [[[ev bm] st] k].
  cbn [fst snd] in Hb, Hr, Hc, Hmsg. game_fields.
  assert (Hcore :
    gameConsistent
      (if Potting.cueBallPotted ev
       then GameLoop.mkGame GameLoop.PLACE_CUE_BALL (GameLoop.displayMode g) false
              (GameLoop.table g) bm st (GameLoop.Cue_hide (GameLoop.cue g))
              (TrailView.hide (GameLoop.ballPrediction g)) (GameLoop.dynamicObstacles g)
              (GameLoop.gameMessage g) (GameLoop.gameMessageTimer g) k
       else GameLoop.mkGame (GameLoop.gameState g) (GameLoop.displayMode g)
              (GameLoop.cueBallPlaced g) (GameLoop.table g) bm st (GameLoop.cue g)
              (GameLoop.ballPrediction g) (GameLoop.dynamicObstacles g)
              (GameLoop.gameMessage g) (GameLoop.gameMessageTimer g) k)).
  { destruct (Potting.cueBallPotted ev); unfold gameConsistent; game_fields;
      rewrite Hb, Hc, ?andb_false_r, ?andb_true_r.
    - game_flags.
    - game_flags. }
  destruct (String.eqb (Potting.gameMessage ev) "");
    [exact Hcore | apply consistent_showGameMessage; exact Hcore].
Qed.

Lemma consistent_handleMousePressed (g : GameLoop.t) (mouseX mouseY : R) :
  gameConsistent g -> gameConsistent (GameLoop.handleMousePressed g mouseX mouseY).
Proof.
  intros Hg. pose proof Hg as (Hplace & Hbody & Hvis & Htab & Htimer & Hcol & Hred).
  unfold GameLoop.handleMousePressed.
  destruct (GameLoop.gameState g) eqn:Hs; try exact Hg.
  rewrite Htab.
  destruct (isInDZone gameTable mouseX mouseY) eqn:HD; [|exact Hg].
  rewrite placed_cue_has_body by exact HD.
  unfold gameConsistent. game_fields.
  game_flags.
Qed.

Lemma consistent_setDisplayMode (rnd : nat -> R) (g : GameLoop.t) (mode : nat) :
  gameConsistent g -> gameConsistent (GameLoop.setDisplayMode rnd g mode).
Proof.
  intros (Hplace & Hbody & Hvis & Htab & Htimer & Hcol & Hred).
  unfold GameLoop.setDisplayMode. cbv zeta.
  destruct (resetPhysicsBalls_shape (GameLoop.ballManager g)) as (R1 & R2 & R3).
  set (bm0 := BallSetup.resetPhysicsBalls (GameLoop.ballManager g)) in *.
  assert (Hshape :
    forall r : BallManager * nat,
      r = match mode with
          | 1%nat => (BallSetup.positionBallsStarting BallSetup.colorIds bm0
                        (GameLoop.table g), GameLoop.draws g)
          | 2%nat => BallSetup.positionBallsRandom BallSetup.colorIds bm0
                       (GameLoop.table g) false rnd (GameLoop.draws g)
          | 3%nat => BallSetup.positionBallsRandom BallSetup.colorIds bm0
                       (GameLoop.table g) true rnd (GameLoop.draws g)
          | _ => (bm0, GameLoop.draws g)
          end ->
      BallManagerOps.hasBody (cueBall (fst r)) = false
      /\ length (redBalls (fst r)) = length (redBalls bm0)
      /\ length (coloredBalls (fst r)) = length (coloredBalls bm0)).
  { intros r ->.
    destruct mode as [|[|[|[|m]]]]; cbn [fst];
      try (split; [exact R1 | split; reflexivity]).
    - apply positionBallsStarting_shape.
    - apply positionBallsRandom_shape.
    - apply positionBallsRandom_shape. }
  specialize (Hshape _ eq_refl).
  destruct (match mode with
            | 1%nat => _
            | 2%nat => _
            | 3%nat => _
            | _ => _
            end) as [bm k].
  cbn [fst] in Hshape. destruct Hshape as (S1 & S2 & S3).
  unfold gameConsistent. game_fields. rewrite S1, S2, S3, R2, R3.
  game_flags.
Qed.

Lemma startCharging_visible (c : Cue) :
  Cue_isVisible (CueOps.startCharging c) = Cue_isVisible c.
Proof. unfold CueOps.startCharging. destruct c as [a [|] p ch]; reflexivity. Qed.

Lemma consistent_startChargingKey (g : GameLoop.t) :
  gameConsistent g -> gameConsistent (GameLoop.startChargingKey g).
Proof.
  intros Hg. pose proof Hg as (Hplace & Hbody & Hvis & Htab & Htimer & Hcol & Hred).
  unfold GameLoop.startChargingKey.
  destruct (GameLoop.gameState g) eqn:Hs; try exact Hg.
  destruct (GameLoop.cueBallPlaced g && negb (areBallsMoving (GameLoop.ballManager g)))
    eqn:Hc; [|exact Hg].
  apply andb_true_iff in Hc. destruct Hc as [Hp _].
  unfold gameConsistent.
  cbn [GameLoop.gameState GameLoop.cueBallPlaced GameLoop.table GameLoop.ballManager
       GameLoop.cue GameLoop.gameMessageTimer].
  rewrite startCharging_visible.
  game_flags.
Qed.

Lemma consistent_togglePredictionKey (g : GameLoop.t) :
  gameConsistent g -> gameConsistent (GameLoop.togglePredictionKey g).
Proof.
  intros Hg. unfold GameLoop.togglePredictionKey. cbv zeta.
  destruct (BallTrailPrediction.enabled (TrailView.toggle (GameLoop.ballPrediction g)));
    apply consistent_showGameMessage; exact Hg.
Qed.

Lemma consistent_toggleObstaclesKey (g : GameLoop.t) :
  gameConsistent g -> gameConsistent (GameLoop.toggleObstaclesKey g).
Proof.
  intros Hg. unfold GameLoop.toggleObstaclesKey. cbv zeta.
  destruct (DynamicObstacles.enabled (toggle (GameLoop.dynamicObstacles g)));
    apply consistent_showGameMessage; exact Hg.
Qed.

Lemma consistent_handleKeyPressed (rnd : nat -> R) (g : GameLoop.t) (key : String.string) :
  gameConsistent g -> gameConsistent (GameLoop.handleKeyPressed rnd g key).
Proof.
  intros Hg. unfold GameLoop.handleKeyPressed.
  repeat match goal with
         | |- context [if ?c then _ else _] => destruct c
         end;
    first [ exact Hg
          | apply consistent_setDisplayMode; exact Hg
          | apply consistent_startChargingKey; exact Hg
          | apply consistent_togglePredictionKey; exact Hg
          | apply consistent_toggleObstaclesKey; exact Hg ].
Qed.

Lemma consistent_handleKeyReleased (g : GameLoop.t) (key : String.string) :
  gameConsistent g -> gameConsistent (GameLoop.handleKeyReleased g key).
Proof.
  intros Hg. pose proof Hg as (Hplace & Hbody & Hvis & Htab & Htimer & Hcol & Hred).
  unfold GameLoop.handleKeyReleased.
  destruct (GameLoop.gameState g) eqn:Hs; try exact Hg.
  destruct (String.eqb key " " && negb (areBallsMoving (GameLoop.ballManager g)));
    [|exact Hg].
  assert (Hp : GameLoop.cueBallPlaced g = true).
  { destruct (GameLoop.cueBallPlaced g); [reflexivity|].
    destruct Hplace as [Hplace _]. specialize (Hplace eq_refl). discriminate. }
  rewrite Hp in Hbody.
  unfold CueOps.stopCharging, CueOps.shoot, getCueBall.
  unfold BallManagerOps.hasBody in Hbody.
  destruct (body (cueBall (GameLoop.ballManager g))) as [bd|] eqn:Hb; [|discriminate].
  cbv zeta. unfold gameConsistent. game_fields.
  unfold BallManagerOps.hasBody, setVelocity. rewrite Hb. cbn [body].
  game_flags.
Qed.

Lemma consistent_resetGame (g : GameLoop.t) :
  gameConsistent g -> gameConsistent (GameLoop.resetGame g).
Proof.
  intros (Hplace & Hbody & Hvis & Htab & Htimer & Hcol & Hred).
  destruct (resetPhysicsBalls_shape (GameLoop.ballManager g)) as (R1 & R2 & R3).
  unfold GameLoop.resetGame, gameConsistent. game_fields. rewrite R1, R2, R3.
  game_flags.
Qed.

Lemma updatePower_visible (maxPower : R) (c : Cue) :
  Cue_isVisible (CueOps.updatePower maxPower c) = Cue_isVisible c.
Proof.
  unfold CueOps.updatePower. destruct (charging c && Rltb (power c) maxPower); reflexivity.
Qed.

Lemma updateAngle_visible (c : Cue) (mouseX mouseY : R) (ball : Ball) :
  Cue_isVisible (GameLoop.Cue_updateAngle c mouseX mouseY ball) = Cue_isVisible c.
Proof. unfold GameLoop.Cue_updateAngle. destruct (body ball); reflexivity. Qed.

Lemma consistent_update (rnd : nat -> R) (g : GameLoop.t) (afterPhysics : BallManager)
    (mouseX mouseY : R) :
  gameConsistent g ->
  engineMoves (GameLoop.ballManager g) afterPhysics ->
  gameConsistent (GameLoop.update rnd g afterPhysics mouseX mouseY).
Proof.
  intros Hg (Hcue & Hreds & Hcols & _).
  unfold GameLoop.update.
  set (g1 := GameLoop.mkGame (GameLoop.gameState g) (GameLoop.displayMode g)
               (GameLoop.cueBallPlaced g) (GameLoop.table g)
               (BallManagerOps.updateBallMovementState afterPhysics) (GameLoop.potState g)
               (GameLoop.cue g) (GameLoop.ballPrediction g) (GameLoop.dynamicObstacles g)
               (GameLoop.gameMessage g) (GameLoop.gameMessageTimer g) (GameLoop.draws g)).
  assert (H1 : gameConsistent g1).
  { destruct Hg as (Hplace & Hbody & Hvis & Htab & Htimer & Hcol & Hred).
    destruct Hcue as (_ & _ & Hcue).
    apply Forall2_length in Hreds, Hcols.
    unfold gameConsistent, g1, BallManagerOps.updateBallMovementState. game_fields.
    rewrite Hcue, <- Hreds, <- Hcols.
    game_flags. }
  cbv zeta.
  pose proof (consistent_handlePocketEvents rnd g1 H1) as H2.
  set (g2 := GameLoop.handlePocketEvents rnd g1) in *. clearbody g2. clear g1 H1.
  pose proof (update_sameBalls (GameLoop.dynamicObstacles g2) (GameLoop.table g2)
                (GameLoop.ballManager g2) rnd (GameLoop.draws g2)) as Hsame.
  destruct (update (GameLoop.dynamicObstacles g2) (GameLoop.table g2)
                   (GameLoop.ballManager g2) rnd (GameLoop.draws g2)) as [[d bm] k].
  cbn [fst snd] in Hsame. destruct Hsame as (S1 & S2 & S3 & _).
  apply consistent_updateGameMessageTimer, consistent_handleCueVisibility.
  destruct H2 as (Hplace & Hbody & Hvis & Htab & Htimer & Hcol & Hred).
  unfold gameConsistent. game_fields. rewrite S1, S2, S3.
  assert (Hpow : forall b : bool,
             Cue_isVisible (if b then CueOps.updatePower CueOps.initialMaxPower
                                        (GameLoop.cue g2)
                            else GameLoop.cue g2)
             = Cue_isVisible (GameLoop.cue g2)).
  { intros [|]; [apply updatePower_visible | reflexivity]. }
  assert (Hang : forall (b : bool) (c0 : Cue),
             Cue_isVisible (if b then GameLoop.Cue_updateAngle c0 mouseX mouseY
                                        (getCueBall (GameLoop.ballManager g2))
                            else c0)
             = Cue_isVisible c0).
  { intros [|] c0; [apply updateAngle_visible | reflexivity]. }
  rewrite Hang, Hpow.
  game_flags.
Qed.

(** X30.  In every state of the game, reached from [initialize] by frames
    of [update], the mouse and key handlers and [resetGame], whatever the
    physics engine does to the bodies: [cueBallPlaced] is false exactly in
    the state PLACE_CUE_BALL and true exactly when the cue ball has a body,
    the cue is visible exactly in the states AIMING and READY_TO_SHOOT, a
    message is shown for at most 180 frames, and the table holds six
    coloured balls and at most fifteen reds. *)
Theorem game_stays_consistent (rnd : nat -> R) (g : GameLoop.t) :
  Played rnd g -> gameConsistent g.
Proof.
  induction 1 as [|g ap mx my _ IH Hmove|g mx my _ IH|g key _ IH|g key _ IH|g _ IH].
  - apply consistent_initialize.
  - apply consistent_update; assumption.
  - apply consistent_handleMousePressed; exact IH.
  - apply consistent_handleKeyPressed; exact IH.
  - apply consistent_handleKeyReleased; exact IH.
  - apply consistent_resetGame; exact IH.
Qed.

Lemma click_in_DZone : isInDZone gameTable 340 300 = true.
Proof.
  unfold isInDZone. apply andb_true_iff. split; apply Rleb_true; [simpl; lra|].
  unfold P5.dist. simpl.
  match goal with |- sqrt ?e <= _ => replace e with (10 * 10) by lra end.
  rewrite sqrt_square; lra.
Qed.

Lemma first_shot_played : Played middleDraws stateAfterFirstShot.
Proof.
  unfold stateAfterFirstShot.
  apply played_keyReleased, played_keyPressed, played_mousePressed, played_initialize.
Qed.

(** The first shot leaves the game in the state BALL_MOVING, with the cue
    ball placed and the cue hidden. *)
Lemma first_shot_state :
  GameLoop.gameState stateAfterFirstShot = GameLoop.BALL_MOVING
  /\ GameLoop.cueBallPlaced stateAfterFirstShot = true
  /\ Cue_isVisible (GameLoop.cue stateAfterFirstShot) = false.
Proof.
  unfold stateAfterFirstShot.
  assert (Hclick :
    GameLoop.handleMousePressed GameLoop.initialize 340 300
    = GameLoop.mkGame GameLoop.AIMING 1 true gameTable
        (mkBallManager (restingAt (createVector 340 300))
           (redBalls (GameLoop.ballManager GameLoop.initialize))
           (coloredBalls (GameLoop.ballManager GameLoop.initialize)) false)
        Potting.initialPotState (GameLoop.Cue_show GameLoop.Cue_new)
        BallTrailPrediction.constructor DynamicObstacles.constructor "" 0 0).
  { unfold GameLoop.handleMousePressed.
    change (GameLoop.gameState GameLoop.initialize) with GameLoop.PLACE_CUE_BALL.
    change (GameLoop.table GameLoop.initialize) with gameTable.
    rewrite click_in_DZone, placed_cue_has_body by exact click_in_DZone.
    reflexivity. }
  rewrite Hclick.
  unfold GameLoop.handleKeyPressed.
  change (String.eqb " " "1") with false. change (String.eqb " " "2") with false.
  change (String.eqb " " "3") with false. change (String.eqb " " " ") with true.
  cbv iota.
  unfold GameLoop.startChargingKey, GameLoop.handleKeyReleased, CueOps.stopCharging,
    CueOps.shoot, CueOps.startCharging, getCueBall, areBallsMoving, restingAt.
  cbn [GameLoop.gameState GameLoop.cueBallPlaced GameLoop.ballManager ballsMoving
       GameLoop.cue GameLoop.Cue_show GameLoop.Cue_new c_visible negb andb cueBall body].
  change (String.eqb " " " ") with true.
  cbn [GameLoop.gameState GameLoop.cueBallPlaced GameLoop.ballManager ballsMoving
       GameLoop.cue GameLoop.Cue_show GameLoop.Cue_new c_visible negb andb cueBall body
       Cue_isVisible].
  repeat split; reflexivity.
Qed.

Lemma game_stays_consistent_witness :
  Played middleDraws stateAfterFirstShot /\ gameConsistent stateAfterFirstShot.
Proof.
  split; [exact first_shot_played|].
  exact (game_stays_consistent middleDraws stateAfterFirstShot first_shot_played).
Defined.
